(** * NovelVerified.AI: the claim-verification pipeline, embedded in Rocq

    The development follows the Python agents of the repository:
    - [agents/ingestion_agent.py]      (module [Ingestion])
    - [agents/retriever_agent.py]      (module [Retriever])
    - [agents/reasoning_agent.py]      (module [Reasoning])
    - [agents/reasoning_agent_local.py] (module [ReasoningLocal])
    - [agents/results_aggregator.py]   (module [Aggregator])
    - [agents/embedding_agent.py]      (module [Embedding])
    - [run_all.py]                     (module [RunAll])

    Python values are modelled as the code has them: [str] as [string]
    (bytes, ASCII text), [int] as [Z], JSON documents and [dict]s as the
    inductive [json] with insertion-ordered association lists, directories
    of per-claim files as finite maps from the file stem to the content. *)

From Stdlib Require Import ZArith QArith Lqa List Sorted Bool Ascii String Lia.
From Stdlib Require OrderedTypeEx.
From stdpp Require Import base option list strings pretty gmap.

Local Open Scope string_scope.
Local Open Scope list_scope.
Local Open Scope Z_scope.

Set Warnings "-register-all".

(** ** Python string operations *)

Module PyStr.

(** [s[n:]] for [0 <= n]. *)
Fixpoint drop (n : nat) (s : string) : string :=
  match n, s with
  | O, _ => s
  | S _, EmptyString => EmptyString
  | S k, String _ s' => drop k s'
  end.

(** [s[:n]] for [0 <= n]. *)
Fixpoint take (n : nat) (s : string) : string :=
  match n, s with
  | O, _ => EmptyString
  | S _, EmptyString => EmptyString
  | S k, String c s' => String c (take k s')
  end.

(** [s.startswith(p)]. *)
Definition startswith (s p : string) : bool := String.prefix p s.

Fixpoint find_aux (sub s : string) (pos : nat) : option nat :=
  if String.prefix sub s then Some pos
  else match s with
       | EmptyString => None
       | String _ s' => find_aux sub s' (S pos)
       end.

(** [s.find(sub, start)] for [0 <= start]: the lowest index [>= start]
    at which [sub] occurs, [-1] when there is none. *)
Definition find (s sub : string) (start : nat) : Z :=
  if (String.length s <? start)%nat then -1
  else match find_aux sub (drop start s) start with
       | Some i => Z.of_nat i
       | None => -1
       end.

(** [sub in s]. *)
Definition contains (sub s : string) : bool :=
  match find_aux sub s 0 with Some _ => true | None => false end.

(** [s.split(sep)] for a non-empty separator. [skip] counts the
    characters of a separator occurrence still to be passed over and
    [cur] is the field read so far. *)
Fixpoint split_go (sep s : string) (skip : nat) (cur : string) : list string :=
  match s with
  | EmptyString => [cur]
  | String c s' =>
      match skip with
      | S k => split_go sep s' k cur
      | O =>
          if String.prefix sep s
          then cur :: split_go sep s' (String.length sep - 1) EmptyString
          else split_go sep s' O (cur ++ String c EmptyString)
      end
  end.

Definition split (s sep : string) : list string := split_go sep s O EmptyString.

(** [sep.join(l)]. *)
Fixpoint join (sep : string) (l : list string) : string :=
  match l with
  | [] => EmptyString
  | [x] => x
  | x :: rest => x ++ sep ++ join sep rest
  end.

(** ASCII characters for which [str.isspace] holds. *)
Definition is_space (c : ascii) : bool :=
  let n := nat_of_ascii c in
  ((9 <=? n) && (n <=? 13) || (28 <=? n) && (n <=? 32))%nat.

Fixpoint lstrip (s : string) : string :=
  match s with
  | EmptyString => EmptyString
  | String c s' => if is_space c then lstrip s' else s
  end.

Fixpoint rstrip (s : string) : string :=
  match s with
  | EmptyString => EmptyString
  | String c s' =>
      match rstrip s' with
      | EmptyString => if is_space c then EmptyString else String c EmptyString
      | r => String c r
      end
  end.

(** [s.strip()]. *)
Definition strip (s : string) : string := rstrip (lstrip s).

Definition lower_char (c : ascii) : ascii :=
  let n := nat_of_ascii c in
  if ((65 <=? n) && (n <=? 90))%nat then ascii_of_nat (n + 32) else c.

(** [s.lower()] on ASCII text. *)
Fixpoint lower (s : string) : string :=
  match s with
  | EmptyString => EmptyString
  | String c s' => String (lower_char c) (lower s')
  end.

(** [s.replace(c, "")] for a one-character [c]. *)
Fixpoint remove_char (c : ascii) (s : string) : string :=
  match s with
  | EmptyString => EmptyString
  | String d s' => if Ascii.eqb c d then remove_char c s' else String d (remove_char c s')
  end.

(** [len(s)] as a Python integer. *)
Definition len (s : string) : Z := Z.of_nat (String.length s).

(** The double quote character, and a text between double quotes. *)
Definition quote : ascii := ascii_of_nat 34.

Definition quoted (s : string) : string :=
  String quote (s ++ String quote EmptyString).

End PyStr.

(** ** Python list slicing *)

Module PyList.

(** Normalisation of a slice bound against a sequence of length [n]:
    negative bounds count from the end, and the result is clamped to
    [0..n]. *)
Definition clamp (n i : Z) : Z :=
  if i <? 0 then Z.max 0 (i + n) else Z.min i n.

(** [l[lo:hi]]. *)
Definition slice {A} (l : list A) (lo hi : Z) : list A :=
  let n := Z.of_nat (List.length l) in
  let a := clamp n lo in
  let b := clamp n hi in
  firstn (Z.to_nat (b - a)) (skipn (Z.to_nat a) l).

Definition len {A} (l : list A) : Z := Z.of_nat (List.length l).

(** [l.sort(key=...)] and [l.sort(key=..., reverse=True)]. Python's sort
    is stable in both directions: [before a b] says that key [a] goes
    strictly before key [b] ([a < b] ascending, [b < a] with
    [reverse=True]), and entries neither of which goes strictly before
    the other keep the order they had. *)
Section Sort.
Context {A K : Type} (before : K -> K -> bool) (key : A -> K).

Fixpoint insert (x : A) (l : list A) : list A :=
  match l with
  | [] => [x]
  | y :: rest =>
      if before (key y) (key x) then y :: insert x rest
      else x :: y :: rest
  end.

Fixpoint sort (l : list A) : list A :=
  match l with
  | [] => []
  | x :: rest => insert x (sort rest)
  end.
End Sort.

End PyList.

(** ** How a stage's [main] ends *)

Module Stage.

(** A printed diagnostic followed by [return], an exception nobody
    handles, or the end of the function. *)
Inductive ending : Type :=
| Stopped (diagnostic : string)
| Raised (exception : string)
| Finished.

End Stage.

(** ** agents/ingestion_agent.py *)

Module Ingestion.

(** The tokenizer object handed to [chunk_text] ([tiktoken]'s encoding in
    [main]): only [encode] and [decode] are used. *)
Class Encoding := {
  token : Type;
  encode : string -> list token;
  decode : list token -> string
}.

(** One entry of the list returned by [chunk_text]. *)
Record chunk := mk_chunk {
  chunk_idx : Z;
  char_start : Z;
  char_end : Z;
  text : string;
  token_count : Z
}.

(** [chunks[-1]["char_end"]]; the list is never empty where it is read
    ([chunk_idx <> 0]). *)
Definition last_char_end (chunks : list chunk) : Z :=
  default 0 (char_end <$> last chunks).

Section ChunkText.
Context `{Encoding}.

(** The body of the [while token_idx < len(tokens)] loop. A result
    [None] stands for a loop that has not ended within [fuel]
    iterations. *)
Fixpoint chunk_loop (fuel : nat) (source : string) (tokens : list token)
    (chunk_size overlap : Z) (token_idx idx : Z) (chunks : list chunk)
    : option (list chunk) :=
  match fuel with
  | O => None
  | S fuel' =>
      if token_idx <? PyList.len tokens then
        let end_idx := Z.min (token_idx + chunk_size) (PyList.len tokens) in
        let chunk_tokens := PyList.slice tokens token_idx end_idx in
        let chunk_text := decode chunk_tokens in
        let start :=
          if idx =? 0 then 0
          else
            let overlap_tokens :=
              PyList.slice tokens (Z.max 0 (token_idx - overlap)) token_idx in
            let overlap_text := decode overlap_tokens in
            let search_start :=
              last_char_end chunks - PyStr.len overlap_text - 100 in
            let found :=
              PyStr.find source (PyStr.take 100 chunk_text)
                         (Z.to_nat (Z.max 0 search_start)) in
            if found =? -1 then last_char_end chunks else found in
        let stop := start + PyStr.len chunk_text in
        let chunks' :=
          chunks ++ [mk_chunk idx start stop chunk_text (PyList.len chunk_tokens)] in
        if end_idx >=? PyList.len tokens then Some chunks'
        else chunk_loop fuel' source tokens chunk_size overlap
                        (token_idx + (chunk_size - overlap)) (idx + 1) chunks'
      else Some chunks
  end.

(** [chunk_text(text, encoding, chunk_size, overlap)]. With a positive
    stride the loop runs at most [len(tokens)] times. *)
Definition chunk_text (source : string) (chunk_size overlap : Z)
    : option (list chunk) :=
  let tokens := encode source in
  chunk_loop (S (List.length tokens)) source tokens chunk_size overlap 0 0 [].

End ChunkText.

Definition CHUNK_SIZE : Z := 1400.
Definition CHUNK_OVERLAP : Z := 300.

(** Position [p] lies in the half-open character range of some chunk. *)
Definition covered (chunks : list chunk) (p : Z) : bool :=
  existsb (fun c => (char_start c <=? p) && (p <? char_end c)) chunks.

(** A tokenizer whose tokens are words with their leading space, the
    shape byte-pair encodings give to common English words. *)
Fixpoint words_go (s cur : string) : list string :=
  match s with
  | EmptyString => if String.eqb cur EmptyString then [] else [cur]
  | String c s' =>
      if Ascii.eqb c " "%char
      then (if String.eqb cur EmptyString then [] else [cur])
             ++ words_go s' (String c EmptyString)
      else words_go s' (cur ++ String c EmptyString)
  end.

Definition word_encoding : Encoding := {|
  token := string;
  encode := fun s => words_go s EmptyString;
  decode := fun l => String.concat EmptyString l
|}.

(** [" ".join(["word"] * n)], the text of the repository's chunking
    tests. *)
Fixpoint words (n : nat) : string :=
  match n with
  | O => EmptyString
  | S O => "word"
  | S k => "word " ++ words k
  end.

End Ingestion.

(** ** JSON documents and Python dictionaries *)

Module Json.

(** The values [json.load]/[json.loads] build. A [dict] is kept as an
    association list in insertion order with distinct keys; a [float] is
    kept by its decimal value, with the non-finite literals Python's
    decoder accepts apart. *)
Inductive json : Type :=
| JNull
| JBool (b : bool)
| JInt (n : Z)
| JFloat (q : Q)
| JNaN
| JInf (negative : bool)
| JStr (s : string)
| JArr (items : list json)
| JObj (members : list (string * json)).

Definition dict := list (string * json).

(** [d.get(k)] ([None] for a missing key). *)
Fixpoint dict_get (k : string) (d : dict) : option json :=
  match d with
  | [] => None
  | (k', v) :: rest => if String.eqb k k' then Some v else dict_get k rest
  end.

(** [k in d]. *)
Definition dict_has (k : string) (d : dict) : bool :=
  match dict_get k d with Some _ => true | None => false end.

(** [d[k] = v]: an existing key keeps its position. *)
Fixpoint dict_set (k : string) (v : json) (d : dict) : dict :=
  match d with
  | [] => [(k, v)]
  | (k', v') :: rest =>
      if String.eqb k k' then (k, v) :: rest else (k', v') :: dict_set k v rest
  end.

(** [d.get(k, dflt)]. *)
Definition dict_get_default (k : string) (dflt : json) (d : dict) : json :=
  default dflt (dict_get k d).

(** *** A reference decoder

    [loads] follows the grammar of Python's [json] decoder on byte
    strings: the four whitespace characters, the literals [null], [true],
    [false], [NaN], [Infinity], [-Infinity], numbers, strings with their
    escapes (a [\u] escape is written out in UTF-8; surrogate escapes are
    not modelled and are refused), arrays and objects (a repeated key
    keeps the last value). It is used to evaluate the agents on concrete
    replies; the general theorems take the decoder as a parameter. *)

Definition is_ws (c : ascii) : bool :=
  let n := nat_of_ascii c in
  ((n =? 32) || (n =? 9) || (n =? 10) || (n =? 13))%nat.

Fixpoint skip_ws (s : string) : string :=
  match s with
  | String c s' => if is_ws c then skip_ws s' else s
  | EmptyString => s
  end.

Definition digit_val (c : ascii) : option Z :=
  let n := nat_of_ascii c in
  if ((48 <=? n) && (n <=? 57))%nat then Some (Z.of_nat (n - 48)) else None.

Definition hex_val (c : ascii) : option Z :=
  let n := nat_of_ascii c in
  if ((48 <=? n) && (n <=? 57))%nat then Some (Z.of_nat (n - 48))
  else if ((65 <=? n) && (n <=? 70))%nat then Some (Z.of_nat (n - 55))
  else if ((97 <=? n) && (n <=? 102))%nat then Some (Z.of_nat (n - 87))
  else None.

(** A maximal run of decimal digits: its value, its length, the rest. *)
Fixpoint digits (s : string) (acc : Z) (count : nat) : Z * nat * string :=
  match s with
  | String c s' =>
      match digit_val c with
      | Some d => digits s' (10 * acc + d) (S count)
      | None => (acc, count, s)
      end
  | EmptyString => (acc, count, s)
  end.

(** The integer part [0|[1-9]\d*]. *)
Definition int_part (s : string) : option (Z * string) :=
  match s with
  | String "0" s' => Some (0, s')
  | _ => match digits s 0 O with
         | (_, O, _) => None
         | (v, _, rest) => Some (v, rest)
         end
  end.

(** The optional fraction [\.\d+]: digits read and their number. *)
Definition frac_part (s : string) : option (Z * nat * string) :=
  match s with
  | String "." s' =>
      match digits s' 0 O with
      | (_, O, _) => None
      | r => Some r
      end
  | _ => None
  end.

(** The optional exponent [[eE][-+]?\d+]. *)
Definition exp_part (s : string) : option (Z * string) :=
  let signed (neg : bool) (s' : string) :=
    match digits s' 0 O with
    | (_, O, _) => None
    | (v, _, rest) => Some (if neg then - v else v, rest)
    end in
  match s with
  | String c s' =>
      if Ascii.eqb c "e" || Ascii.eqb c "E" then
        match s' with
        | String "-" s'' => signed true s''
        | String "+" s'' => signed false s''
        | _ => signed false s'
        end
      else None
  | EmptyString => None
  end.

(** The decimal [m * 10^e] in lowest terms. *)
Definition decimal (m e : Z) : Q :=
  if 0 <=? e then Qmake (m * 10 ^ e) 1
  else Qred (Qmake m (Z.to_pos (10 ^ (- e)))).

Definition parse_number (s : string) : option (json * string) :=
  let '(neg, s1) :=
    match s with String "-" s' => (true, s') | _ => (false, s) end in
  match int_part s1 with
  | None => None
  | Some (i, s2) =>
      let sg (v : Z) := if neg then - v else v in
      match frac_part s2 with
      | Some (f, n, s3) =>
          let m := i * 10 ^ Z.of_nat n + f in
          match exp_part s3 with
          | Some (e, s4) => Some (JFloat (decimal (sg m) (e - Z.of_nat n)), s4)
          | None => Some (JFloat (decimal (sg m) (- Z.of_nat n)), s3)
          end
      | None =>
          match exp_part s2 with
          | Some (e, s4) => Some (JFloat (decimal (sg i) e), s4)
          | None => Some (JInt (sg i), s2)
          end
      end
  end.

Definition byte (n : Z) : ascii := ascii_of_nat (Z.to_nat n).

(** The UTF-8 bytes of a code point of the Basic Multilingual Plane. *)
Definition utf8 (cp : Z) : option string :=
  if cp <? 128 then Some (String (byte cp) EmptyString)
  else if cp <? 2048 then
    Some (String (byte (192 + cp / 64)) (String (byte (128 + cp mod 64)) EmptyString))
  else if (55296 <=? cp) && (cp <=? 57343) then None
  else
    Some (String (byte (224 + cp / 4096))
           (String (byte (128 + (cp / 64) mod 64))
             (String (byte (128 + cp mod 64)) EmptyString))).

Definition hex4 (s : string) : option (Z * string) :=
  match s with
  | String a (String b (String c (String d rest))) =>
      match hex_val a, hex_val b, hex_val c, hex_val d with
      | Some x, Some y, Some z, Some w =>
          Some (((x * 16 + y) * 16 + z) * 16 + w, rest)
      | _, _, _, _ => None
      end
  | _ => None
  end.

(** The body of a string after its opening quote. *)
Fixpoint parse_chars (fuel : nat) (s : string) (acc : string)
    : option (string * string) :=
  match fuel with
  | O => None
  | S f =>
      match s with
      | EmptyString => None
      | String c s' =>
          if Ascii.eqb c PyStr.quote then Some (acc, s')
          else if Ascii.eqb c "\"%char then
            match s' with
            | String e s'' =>
                let lit (x : ascii) := parse_chars f s'' (acc ++ String x EmptyString) in
                if Ascii.eqb e PyStr.quote then lit PyStr.quote
                else if Ascii.eqb e "\"%char then lit "\"%char
                else if Ascii.eqb e "/"%char then lit "/"%char
                else if Ascii.eqb e "b"%char then lit (ascii_of_nat 8)
                else if Ascii.eqb e "f"%char then lit (ascii_of_nat 12)
                else if Ascii.eqb e "n"%char then lit (ascii_of_nat 10)
                else if Ascii.eqb e "r"%char then lit (ascii_of_nat 13)
                else if Ascii.eqb e "t"%char then lit (ascii_of_nat 9)
                else if Ascii.eqb e "u"%char then
                  match hex4 s'' with
                  | Some (cp, rest) =>
                      match utf8 cp with
                      | Some bytes => parse_chars f rest (acc ++ bytes)
                      | None => None
                      end
                  | None => None
                  end
                else None
            | EmptyString => None
            end
          else if (nat_of_ascii c <? 32)%nat then None
          else parse_chars f s' (acc ++ String c EmptyString)
      end
  end.

Definition parse_string (s : string) : option (string * string) :=
  parse_chars (S (String.length s)) s EmptyString.

Fixpoint parse_value (fuel : nat) (s : string) : option (json * string) :=
  match fuel with
  | O => None
  | S f =>
      match s with
      | String c s' =>
          if Ascii.eqb c PyStr.quote then
            match parse_string s' with
            | Some (str, rest) => Some (JStr str, rest)
            | None => None
            end
          else if Ascii.eqb c "{" then
            match skip_ws s' with
            | String "}" rest => Some (JObj [], rest)
            | s'' => parse_members f s'' []
            end
          else if Ascii.eqb c "[" then
            match skip_ws s' with
            | String "]" rest => Some (JArr [], rest)
            | s'' => parse_items f s'' []
            end
          else if String.prefix "null" s then Some (JNull, PyStr.drop 4 s)
          else if String.prefix "true" s then Some (JBool true, PyStr.drop 4 s)
          else if String.prefix "false" s then Some (JBool false, PyStr.drop 5 s)
          else match parse_number s with
               | Some r => Some r
               | None =>
                   if String.prefix "NaN" s then Some (JNaN, PyStr.drop 3 s)
                   else if String.prefix "Infinity" s
                   then Some (JInf false, PyStr.drop 8 s)
                   else if String.prefix "-Infinity" s
                   then Some (JInf true, PyStr.drop 9 s)
                   else None
               end
      | EmptyString => None
      end
  end
with parse_items (fuel : nat) (s : string) (acc : list json)
    : option (json * string) :=
  match fuel with
  | O => None
  | S f =>
      match parse_value f s with
      | Some (v, rest) =>
          match skip_ws rest with
          | String "]" rest' => Some (JArr (acc ++ [v]), rest')
          | String "," rest' => parse_items f (skip_ws rest') (acc ++ [v])
          | _ => None
          end
      | None => None
      end
  end
with parse_members (fuel : nat) (s : string) (acc : dict)
    : option (json * string) :=
  match fuel with
  | O => None
  | S f =>
      match s with
      | String c s' =>
          if Ascii.eqb c PyStr.quote then
            match parse_string s' with
            | Some (key, rest) =>
                match skip_ws rest with
                | String ":" rest' =>
                    match parse_value f (skip_ws rest') with
                    | Some (v, rest'') =>
                        match skip_ws rest'' with
                        | String "}" r => Some (JObj (dict_set key v acc), r)
                        | String "," r =>
                            parse_members f (skip_ws r) (dict_set key v acc)
                        | _ => None
                        end
                    | None => None
                    end
                | _ => None
                end
            | None => None
            end
          else None
      | EmptyString => None
      end
  end.

(** The document decoded from [s], when [s] is one JSON value between
    optional whitespace. *)
Definition loads (s : string) : option json :=
  match parse_value (2 * String.length s + 2) (skip_ws s) with
  | Some (v, rest) =>
      match skip_ws rest with
      | EmptyString => Some v
      | _ => None
      end
  | None => None
  end.

(** What the agents see of [json.loads]: the value, or the text of the
    [JSONDecodeError]. *)
Definition decoder := string -> json + string.

(** The reference decoder, with [message s] the text of the error
    raised on an undecodable [s]. *)
Definition loads_with (message : string -> string) : decoder :=
  fun s => match loads s with
           | Some v => inl v
           | None => inr (message s)
           end.

End Json.

(** ** agents/retriever_agent.py *)

Module Retriever.

Definition TOP_K : nat := 6.
Definition FINAL_K : nat := 3.

(** One line of [claims/claims.jsonl]. *)
Record claim := mk_claim {
  claim_id : string;
  book_name : string;
  character : string;
  claim_text : string
}.

(** One entry of the pickled metadata list. *)
Record meta := mk_meta {
  meta_book : string;
  meta_chunk_idx : Z;
  meta_char_start : Z;
  meta_char_end : Z;
  meta_text : string
}.

(** One entry of the list returned by [retrieve_evidence]. Similarity
    scores are kept by their rational value. *)
Record evidence := mk_evidence {
  chunk_idx : Z;
  book : string;
  char_start : Z;
  char_end : Z;
  text : string;
  score : Q;
  is_same_book : bool
}.

(** The content of [evidence/{claim_id}.json]. *)
Record bundle := mk_bundle {
  bundle_claim_id : string;
  bundle_book_name : string;
  bundle_character : string;
  bundle_claim_text : string;
  bundle_evidence : list evidence
}.

(** The loaded similarity index together with the sentence encoder, as
    far as the agent uses them: the number of stored vectors, and the
    scores and positions [index.search] returns for the embedding of a
    query text (position [-1] where there are fewer than [k]
    neighbours). *)
Record faiss_index := mk_index {
  ntotal : Z;
  search : string -> nat -> list (Q * Z)
}.

(** [metadata[idx]]: a negative position counts from the end; [None] is
    the [IndexError]. *)
Definition py_index {A} (l : list A) (i : Z) : option A :=
  let n := PyList.len l in
  if (0 <=? i) && (i <? n) then l !! Z.to_nat i
  else if (- n <=? i) && (i <? 0) then l !! Z.to_nat (i + n)
  else None.

(** [name.lower().replace(" ", "").replace("_", "")]. *)
Definition normalize_book (name : string) : string :=
  PyStr.remove_char "_" (PyStr.remove_char " " (PyStr.lower name)).

(** The loop over [zip(scores[0], indices[0])]; [None] when a position
    is outside the metadata list. *)
Fixpoint build_results (book_name_lower : string) (metadata : list meta)
    (hits : list (Q * Z)) : option (list evidence) :=
  match hits with
  | [] => Some []
  | (sc, idx) :: rest =>
      if idx =? -1 then build_results book_name_lower metadata rest
      else
        match py_index metadata idx with
        | None => None
        | Some m =>
            let meta_book_lower := normalize_book (meta_book m) in
            let same :=
              PyStr.contains book_name_lower meta_book_lower
              || PyStr.contains meta_book_lower book_name_lower in
            let adjusted_score := Qplus sc (if same then Qmake 1 5 else Qmake 0 1) in
            match build_results book_name_lower metadata rest with
            | None => None
            | Some results =>
                Some (mk_evidence (meta_chunk_idx m) (meta_book m)
                        (meta_char_start m) (meta_char_end m) (meta_text m)
                        adjusted_score same :: results)
            end
        end
  end.

(** [x < y] on scores. *)
Definition score_lt (x y : Q) : bool := negb (Qle_bool y x).

(** [results.sort(key=lambda x: x["score"], reverse=True)], for any
    entries that carry a score. *)
Definition sort_desc {A} (key : A -> Q) (l : list A) : list A :=
  PyList.sort (fun a b => score_lt b a) key l.

Definition query_text (c : claim) : string :=
  character c ++ ": " ++ claim_text c.

(** [retrieve_evidence(claim, model, index, metadata)]. *)
Definition retrieve_evidence (c : claim) (index : faiss_index)
    (metadata : list meta) : option (list evidence) :=
  let hits := search index (query_text c) (TOP_K * 2) in
  let book_name_lower := normalize_book (book_name c) in
  match build_results book_name_lower metadata hits with
  | None => None
  | Some results => Some (firstn FINAL_K (sort_desc score results))
  end.

(** The files the stage reads: [claims/claims.jsonl], [index/faiss.index]
    and [index/meta.pkl], each absent or holding its content. *)
Record inputs := mk_inputs {
  claims_file : option (list claim);
  index_file : option faiss_index;
  meta_file : option (list meta)
}.

Import Stage.

(** The loop over the claims; the second component is the evidence
    directory, keyed by file stem. *)
Fixpoint process_claims (index : faiss_index) (metadata : list meta)
    (claims : list claim) (out : gmap string bundle)
    : ending * gmap string bundle :=
  match claims with
  | [] => (Finished, out)
  | c :: rest =>
      match retrieve_evidence c index metadata with
      | None => (Raised "IndexError", out)
      | Some ev =>
          let output :=
            mk_bundle (claim_id c) (book_name c) (character c) (claim_text c) ev in
          process_claims index metadata rest (<[claim_id c := output]> out)
      end
  end.

(** [load_index_and_metadata()]: the index and the metadata, or the
    exception of the read that fails. Nothing relates the two to each
    other. *)
Definition load_index_and_metadata (fs : inputs)
    : string + (faiss_index * list meta) :=
  match index_file fs with
  | None => inl "RuntimeError"
  | Some index =>
      match meta_file fs with
      | None => inl "FileNotFoundError"
      | Some metadata => inr (index, metadata)
      end
  end.

(** [main()], started on the evidence directory [out]. *)
Definition main (fs : inputs) (out : gmap string bundle)
    : ending * gmap string bundle :=
  match claims_file fs with
  | None =>
      (Stopped "ERROR: claims/claims.jsonl not found. Run claim_parser.py first.", out)
  | Some claims =>
      match index_file fs with
      | None =>
          (Stopped "ERROR: index/faiss.index not found. Run embedding_agent.py first.", out)
      | Some _ =>
          match load_index_and_metadata fs with
          | inl exception => (Raised exception, out)
          | inr (index, metadata) => process_claims index metadata claims out
          end
      end
  end.

End Retriever.

(** ** The per-claim loop shared by the two reasoning agents *)

Module Resolver.
Import Json Stage.

(** What a run of a reasoning agent reads and changes: the directory
    [verdicts/], keyed by file stem, and the requests sent to the
    reasoning backend so far, each recorded with the claim it was sent
    for. *)
Record world := mk_world {
  verdicts : gmap string dict;
  requests : list string
}.

(** A file [evidence/{stem}.json] and the document [json.load] reads
    from it. *)
Record evidence_file := mk_file {
  stem : string;
  data : Retriever.bundle
}.

Definition claim_id_of (f : evidence_file) : string :=
  Retriever.bundle_claim_id (data f).

(** [processed = set(f.stem for f in OUTPUT_DIR.glob("*.json"))] and
    [remaining = [f for f in evidence_files if f.stem not in processed]]. *)
Definition remaining_files (evidence_files : list evidence_file)
    (store : gmap string dict) : list evidence_file :=
  let processed : gset string := dom store in
  filter (fun f => stem f ∉ processed) evidence_files.

(** The name of a value's Python type, as error messages print it. *)
Definition type_name (j : json) : string :=
  match j with
  | JNull => "NoneType"
  | JBool _ => "bool"
  | JInt _ => "int"
  | JFloat _ | JNaN | JInf _ => "float"
  | JStr _ => "str"
  | JArr _ => "list"
  | JObj _ => "dict"
  end.

(** The message of the [TypeError] that [verdict["claim_id"] = ...]
    raises on a value that is not a [dict]. *)
Definition setitem_error (j : json) : string :=
  match j with
  | JArr _ => "list indices must be integers or slices, not str"
  | _ => "'" ++ type_name j ++ "' object does not support item assignment"
  end.

(** The exception [f"{x:.2f}"] raises, if any. *)
Definition format_2f_error (j : json) : option string :=
  match j with
  | JStr _ => Some "ValueError"
  | JNull | JArr _ | JObj _ => Some "TypeError"
  | _ => None
  end.

(** The progress line [f"... {verdict['verdict']}
    ({verdict.get('confidence', 0):.2f})"]: the exception it raises, if
    any. *)
Definition report_error (verdict : dict) : option string :=
  match dict_get "verdict" verdict with
  | None => Some "KeyError"
  | Some _ => format_2f_error (dict_get_default "confidence" (JInt 0) verdict)
  end.

Section Loop.
(** [resolve] is the agent's call for one claim: from the evidence
    document and the requests so far to the verdict and the requests
    after it. [update_stats] and [report] give the exception the
    statistics update and the progress line raise, if any;
    [report_every] is the period of the progress line. *)
Variable resolve : Retriever.bundle -> list string -> dict * list string.
Variable update_stats : dict -> option string.
Variable report : dict -> option string.
Variable report_every : Z.

(** [for i, evidence_file in enumerate(remaining)], from index [i] on,
    with [total = len(remaining)]. *)
Fixpoint process (files : list evidence_file) (i total : Z) (w : world)
    : ending * world :=
  match files with
  | [] => (Finished, w)
  | f :: rest =>
      let claim_data := data f in
      let '(verdict, reqs) := resolve claim_data (requests w) in
      match update_stats verdict with
      | Some exc => (Raised exc, mk_world (verdicts w) reqs)
      | None =>
          let w' :=
            mk_world (<[Retriever.bundle_claim_id claim_data := verdict]> (verdicts w))
                     reqs in
          if ((i + 1) mod report_every =? 0) || (i =? total - 1) then
            match report verdict with
            | Some exc => (Raised exc, w')
            | None => process rest (i + 1) total w'
            end
          else process rest (i + 1) total w'
      end
  end.
End Loop.

End Resolver.

(** ** agents/reasoning_agent.py *)

Module Reasoning.
Import Json Stage Resolver.

Definition MAX_RETRIES : nat := 5.

(** What [client.messages.create] does on one call: it returns a
    message whose first content block has the given text, or raises. *)
Inductive api_outcome : Type :=
| Responded (response_text : string)
| RateLimitError (message : string)
| APIConnectionError (message : string)
| APIError (status_code : option Z) (message : string)
| OtherException (message : string).

(** [create_error_verdict(claim_id, error_message)]. *)
Definition create_error_verdict (claim_id error_message : string) : dict :=
  [ ("claim_id", JStr claim_id);
    ("verdict", JStr "undetermined");
    ("confidence", JFloat (Qmake 0 1));
    ("supporting_spans", JArr []);
    ("contradicting_spans", JArr []);
    ("reasoning", JStr error_message) ].

Definition newline : string := String (ascii_of_nat 10) EmptyString.

(** The removal of the lines of a Markdown code fence. *)
Definition strip_fences (response_text : string) : string :=
  if PyStr.startswith response_text "```" then
    let lines := PyStr.split response_text newline in
    let json_lines := List.filter (fun l => negb (PyStr.startswith l "```")) lines in
    PyStr.join newline json_lines
  else response_text.

Section Call.
Variable json_loads : decoder.

(** The body of the [try] once the client has returned: from the
    reply text to the returned verdict, through the handlers of
    [json.JSONDecodeError] and [Exception]. *)
Definition read_reply (claim_id response : string) : dict :=
  let response_text := strip_fences (PyStr.strip response) in
  match json_loads response_text with
  | inl (JObj verdict) => dict_set "claim_id" (JStr claim_id) verdict
  | inl other =>
      create_error_verdict claim_id ("Unexpected error: " ++ setitem_error other)
  | inr message =>
      create_error_verdict claim_id ("Failed to parse model response: " ++ message)
  end.

(** [str(last_error)]. *)
Definition str_error (last_error : option string) : string :=
  default "None" last_error.

(** [for attempt in range(MAX_RETRIES)] with [attempts_left]
    iterations to go. [client k] is the outcome of the request sent
    when [k] requests have been sent before. The waits between the
    attempts ([exponential_backoff_delay], [time.sleep]) take time and
    change nothing else; they are left out. *)
Fixpoint attempts (client : nat -> api_outcome) (attempts_left : nat)
    (last_error : option string) (claim_id : string) (reqs : list string)
    : dict * list string :=
  match attempts_left with
  | O =>
      (create_error_verdict claim_id
         ("Max retries exceeded: " ++ str_error last_error), reqs)
  | S fewer =>
      let reqs' := reqs ++ [claim_id] in
      match client (List.length reqs) with
      | Responded response => (read_reply claim_id response, reqs')
      | RateLimitError message =>
          attempts client fewer (Some message) claim_id reqs'
      | APIConnectionError message =>
          attempts client fewer (Some message) claim_id reqs'
      | APIError (Some status) message =>
          if (500 <=? status) && (status <? 600)
          then attempts client fewer (Some message) claim_id reqs'
          else (create_error_verdict claim_id ("API error: " ++ message), reqs')
      | APIError None message =>
          (create_error_verdict claim_id ("API error: " ++ message), reqs')
      | OtherException message =>
          (create_error_verdict claim_id ("Unexpected error: " ++ message), reqs')
      end
  end.

(** [call_claude_with_retry(client, claim_data)]. *)
Definition call_claude_with_retry (client : nat -> api_outcome)
    (claim_data : Retriever.bundle) (reqs : list string) : dict * list string :=
  attempts client MAX_RETRIES None (Retriever.bundle_claim_id claim_data) reqs.

(** The statistics update of [main]: the exception it raises, if any. *)
Definition update_stats (verdict : dict) : option string :=
  match dict_get_default "reasoning" (JStr EmptyString) verdict with
  | JStr reasoning =>
      if PyStr.contains "error" (PyStr.lower reasoning)
         || PyStr.contains "retries" (PyStr.lower reasoning)
      then None
      else match dict_get "verdict" verdict with
           | None => Some "KeyError"
           | Some (JArr _) | Some (JObj _) => Some "TypeError"
           | Some _ => None
           end
  | _ => Some "AttributeError"
  end.

(** [main()], with [api_key] telling whether [ANTHROPIC_API_KEY] is
    set and [evidence_files] the result of
    [EVIDENCE_DIR.glob("*.json")]. *)
Definition main (api_key : bool) (client : nat -> api_outcome)
    (evidence_files : list evidence_file) (w : world) : ending * world :=
  if negb api_key then
    (Stopped "ERROR: ANTHROPIC_API_KEY not set. Create .env file with your API key.", w)
  else
    match evidence_files with
    | [] => (Stopped "ERROR: No evidence files found in evidence/", w)
    | _ =>
        let remaining := remaining_files evidence_files (verdicts w) in
        match process (call_claude_with_retry client) update_stats report_error 10
                      remaining 0 (PyList.len remaining) w with
        | (Finished, w') =>
            if bool_decide (map_Forall (fun _ v => dict_has "verdict" v = true) (verdicts w'))
            then (Finished, w')
            else (Raised "KeyError", w')
        | stopped => stopped
        end
    end.
End Call.

End Reasoning.

(** ** agents/reasoning_agent_local.py *)

Module ReasoningLocal.
Import Json Stage Resolver.

(** What [requests.post] does on one call: it returns a response with a
    status code and a body, or raises. *)
Inductive http_outcome : Type :=
| Response (status_code : Z) (body : string)
| ConnectionError
| Timeout
| OtherException (message : string).

(** [create_error_verdict(claim_id, error_message)]. *)
Definition create_error_verdict (claim_id error_message : string) : dict :=
  [ ("claim_id", JStr claim_id);
    ("verdict", JStr "undetermined");
    ("confidence", JFloat (Qmake 0 1));
    ("supporting_spans", JArr []);
    ("contradicting_spans", JArr []);
    ("reasoning", JStr error_message) ].

(** [l[i]] for [i] 0 or 1 on the result of a [split]. *)
Definition item (l : list string) (i : nat) : string := nth i l EmptyString.

(** The extraction of the payload of a Markdown code fence. *)
Definition extract_fenced (response_text : string) : string :=
  if PyStr.contains "```json" response_text then
    PyStr.strip (item (PyStr.split (item (PyStr.split response_text "```json") 1) "```") 0)
  else if PyStr.contains "```" response_text then
    PyStr.strip (item (PyStr.split (item (PyStr.split response_text "```") 1) "```") 0)
  else response_text.

(** [if k not in verdict: verdict[k] = v]. *)
Definition set_default (k : string) (v : json) (verdict : dict) : dict :=
  if dict_has k verdict then verdict else dict_set k v verdict.

(** The four "ensure required fields exist" statements. *)
Definition backfill (verdict : dict) : dict :=
  set_default "reasoning" (JStr "Local model inference")
    (set_default "confidence" (JFloat (Qmake 1 2))
      (set_default "contradicting_spans" (JArr [])
        (set_default "supporting_spans" (JArr []) verdict))).

Section Call.
Variable json_loads : decoder.

(** The body of the [try] from [json.loads(response_text)] on. *)
Definition read_reply (claim_id response_text : string) : dict :=
  match json_loads response_text with
  | inl (JObj verdict) => backfill (dict_set "claim_id" (JStr claim_id) verdict)
  | inl other => create_error_verdict claim_id ("Error: " ++ setitem_error other)
  | inr message => create_error_verdict claim_id ("JSON parse error: " ++ message)
  end.

(** The body of the [try] once the server has answered with status
    200: [response.json()], [result.get("response", "").strip()], the
    code fence, and the rest. *)
Definition read_body (claim_id body : string) : dict :=
  match json_loads body with
  | inr message => create_error_verdict claim_id ("JSON parse error: " ++ message)
  | inl (JObj result) =>
      match dict_get_default "response" (JStr EmptyString) result with
      | JStr response => read_reply claim_id (extract_fenced (PyStr.strip response))
      | other =>
          create_error_verdict claim_id
            ("Error: '" ++ type_name other ++ "' object has no attribute 'strip'")
      end
  | inl other =>
      create_error_verdict claim_id
        ("Error: '" ++ type_name other ++ "' object has no attribute 'get'")
  end.

(** [call_ollama(claim_data)]. [server k] is the outcome of the
    request sent when [k] requests have been sent before. *)
Definition call_ollama (server : nat -> http_outcome)
    (claim_data : Retriever.bundle) (reqs : list string) : dict * list string :=
  let claim_id := Retriever.bundle_claim_id claim_data in
  let verdict :=
    match server (List.length reqs) with
    | Response status body =>
        if negb (status =? 200)
        then create_error_verdict claim_id ("Ollama error: " ++ pretty status)
        else read_body claim_id body
    | ConnectionError =>
        create_error_verdict claim_id "Ollama not running. Start with: ollama serve"
    | Timeout =>
        create_error_verdict claim_id "Ollama timeout - model may be too slow"
    | OtherException message =>
        create_error_verdict claim_id ("Error: " ++ message)
    end in
  (verdict, reqs ++ [claim_id]).

(** [stats[verdict.get("verdict", "undetermined")] += 1]: the
    exception it raises, if any. *)
Definition update_stats (verdict : dict) : option string :=
  match dict_get_default "verdict" (JStr "undetermined") verdict with
  | JStr v =>
      if String.eqb v "supported" || String.eqb v "contradicted"
         || String.eqb v "undetermined"
      then None else Some "KeyError"
  | JArr _ | JObj _ => Some "TypeError"
  | _ => Some "KeyError"
  end.

(** [main()], with [ollama_ok] the result of [check_ollama_status()]
    and [evidence_files] the result of [EVIDENCE_DIR.glob("*.json")]. *)
Definition main (ollama_ok : bool) (server : nat -> http_outcome)
    (evidence_files : list evidence_file) (w : world) : ending * world :=
  if negb ollama_ok then (Stopped "Ollama is not running or model not found!", w)
  else
    match evidence_files with
    | [] => (Stopped "No evidence files found in evidence/", w)
    | _ =>
        let remaining := remaining_files evidence_files (verdicts w) in
        process (call_ollama server) update_stats report_error 5
                remaining 0 (PyList.len remaining) w
    end.
End Call.

End ReasoningLocal.

(** ** agents/results_aggregator.py *)

Module Aggregator.
Import Json.

(** [VERDICT_MAP.get(v, 0)] for a hashable [v]. *)
Definition VERDICT_MAP (v : string) : option Z :=
  if String.eqb v "supported" then Some 1
  else if String.eqb v "contradicted" then Some 0
  else if String.eqb v "undetermined" then Some 0
  else None.

(** One entry of [results], a line of [output/results.csv]. *)
Record row := mk_row {
  id : json;
  book_name : string;
  character : string;
  prediction : Z;
  verdict : json;
  confidence : json;
  rationale : json
}.

(** [load_claims()]: the claims by [claim_id], a later line replacing an
    earlier one; the empty dictionary when the file does not exist. *)
Definition load_claims (claims_file : option (list Retriever.claim))
    : gmap string Retriever.claim :=
  match claims_file with
  | None => ∅
  | Some lines =>
      foldl (fun claims c => <[Retriever.claim_id c := c]> claims) ∅ lines
  end.

(** [claims.get(claim_id, {})]; the keys of [claims] are strings. *)
Definition lookup_claim (claims : gmap string Retriever.claim) (claim_id : json)
    : string + option Retriever.claim :=
  match claim_id with
  | JArr _ | JObj _ => inl "TypeError"
  | JStr s => inr (claims !! s)
  | _ => inr None
  end.

(** [prediction = VERDICT_MAP.get(verdict["verdict"], 0)]. *)
Definition predict (v : json) : string + Z :=
  match v with
  | JArr _ | JObj _ => inl "TypeError"
  | JStr s => inr (default 0 (VERDICT_MAP s))
  | _ => inr 0
  end.

(** The "concise rationale": [reasoning[:197] + "..."] when
    [len(reasoning) > 200]. *)
Definition concise (reasoning : json) : string + json :=
  match reasoning with
  | JStr s =>
      if (200 <? String.length s)%nat
      then inr (JStr (PyStr.take 197 s ++ "..."))
      else inr reasoning
  | JArr l => if (200 <? List.length l)%nat then inl "TypeError" else inr reasoning
  | JObj d => if (200 <? List.length d)%nat then inl "TypeError" else inr reasoning
  | _ => inl "TypeError"
  end.

(** The body of [for verdict_file in verdict_files], on the document
    read from the file: the entry appended to [results], or the
    exception raised. *)
Definition make_row (claims : gmap string Retriever.claim) (document : json)
    : string + row :=
  match document with
  | JObj verdict =>
      match dict_get "claim_id" verdict with
      | None => inl "KeyError"
      | Some claim_id =>
          match lookup_claim claims claim_id with
          | inl exc => inl exc
          | inr claim_data =>
              match dict_get "verdict" verdict with
              | None => inl "KeyError"
              | Some v =>
                  match predict v with
                  | inl exc => inl exc
                  | inr prediction =>
                      match concise (dict_get_default "reasoning" (JStr EmptyString) verdict) with
                      | inl exc => inl exc
                      | inr reasoning =>
                          inr (mk_row claim_id
                                 (from_option Retriever.book_name EmptyString claim_data)
                                 (from_option Retriever.character EmptyString claim_data)
                                 prediction v
                                 (dict_get_default "confidence" (JInt 0) verdict)
                                 reasoning)
                      end
                  end
              end
          end
      end
  | _ => inl "TypeError"
  end.

Fixpoint collect (claims : gmap string Retriever.claim) (documents : list json)
    : string + list row :=
  match documents with
  | [] => inr []
  | d :: rest =>
      match make_row claims d with
      | inl exc => inl exc
      | inr r =>
          match collect claims rest with
          | inl exc => inl exc
          | inr rows => inr (r :: rows)
          end
      end
  end.

(** Decimal digits with single underscores between them. *)
Fixpoint int_digits (s : string) (acc : Z) (after_digit : bool) : option Z :=
  match s with
  | EmptyString => if after_digit then Some acc else None
  | String c s' =>
      match digit_val c with
      | Some d => int_digits s' (10 * acc + d) true
      | None =>
          if Ascii.eqb c "_" && after_digit then int_digits s' acc false else None
      end
  end.

(** [int(s)] for a string of ASCII text; [None] is the [ValueError]. *)
Definition int_of_string (s : string) : option Z :=
  match PyStr.strip s with
  | String "-" digits => Z.opp <$> int_digits digits 0 false
  | String "+" digits => int_digits digits 0 false
  | digits => int_digits digits 0 false
  end.

(** The two ways [int(x["id"])] fails: the [ValueError] that [main]
    handles, and the exceptions it does not. *)
Inductive int_error : Type :=
| IntValueError
| IntOtherError (exception : string).

(** [int(x["id"])]. *)
Definition int_key (x : json) : int_error + Z :=
  match x with
  | JStr s => match int_of_string s with Some n => inr n | None => inl IntValueError end
  | JInt n => inr n
  | JBool b => inr (if b then 1 else 0)
  | JFloat q => inr (Z.quot (Qnum q) (Zpos (Qden q)))
  | JNaN => inl IntValueError
  | JInf _ => inl (IntOtherError "OverflowError")
  | JNull | JArr _ | JObj _ => inl (IntOtherError "TypeError")
  end.

(** The keys [list.sort] computes before it compares any: the first
    failure decides. *)
Fixpoint int_keys (rows : list row) : int_error + list (Z * row) :=
  match rows with
  | [] => inr []
  | r :: rest =>
      match int_key (id r) with
      | inr n =>
          match int_keys rest with
          | inr keyed => inr ((n, r) :: keyed)
          | inl e => inl e
          end
      | inl e => inl e
      end
  end.

Definition string_id (r : row) : option string :=
  match id r with JStr s => Some s | _ => None end.

(** The [try]/[except ValueError] around the two sorts. In the second
    sort ids that are all strings are compared as strings. Ids of other
    types are not ordered here: next to a string Python's [<] raises
    [TypeError], and the order Python gives to numbers that include a
    NaN is not modelled and has the same ending. *)
Definition sort_results (rows : list row) : string + list row :=
  match int_keys rows with
  | inr keyed => inr (snd <$> PyList.sort Z.ltb fst keyed)
  | inl IntValueError =>
      match mapM (fun r => (fun s => (s, r)) <$> string_id r) rows with
      | Some keyed => inr (snd <$> PyList.sort String.ltb fst keyed)
      | None =>
          match rows with
          | [_] => inr rows
          | _ => inl "TypeError"
          end
      end
  | inl (IntOtherError exc) => inl exc
  end.

(** What [main] leaves behind: nothing when there is no verdict file,
    nothing when an exception ends it before the report is written, or
    the lines written to [output/results.csv]. The summary printed
    after the report is written is not part of the model. *)
Inductive report : Type :=
| NoVerdicts
| Failed (exception : string)
| Written (rows : list row).

(** [main()], with [verdict_files] the documents read from the files of
    [VERDICTS_DIR.glob("*.json")] in the order of the listing. *)
Definition main (verdict_files : list json)
    (claims_file : option (list Retriever.claim)) : report :=
  match verdict_files with
  | [] => NoVerdicts
  | _ =>
      let claims := load_claims claims_file in
      match collect claims verdict_files with
      | inl exc => Failed exc
      | inr results =>
          match sort_results results with
          | inl exc => Failed exc
          | inr sorted => Written sorted
          end
      end
  end.

End Aggregator.

(** ** What is asked of verdicts and report lines *)

Module Shape.
Import Json.

(** The verdict field is one of the three values. *)
Definition verdict_in_enum (v : dict) : bool :=
  match dict_get "verdict" v with
  | Some (JStr s) =>
      String.eqb s "supported" || String.eqb s "contradicted"
      || String.eqb s "undetermined"
  | _ => false
  end.

(** The confidence field is a finite number between 0 and 1. *)
Definition confidence_in_unit (v : dict) : bool :=
  match dict_get "confidence" v with
  | Some (JInt n) => (0 <=? n) && (n <=? 1)
  | Some (JFloat q) => Qle_bool (Qmake 0 1) q && Qle_bool q (Qmake 1 1)
  | _ => false
  end.

(** The fields of an error verdict, with the reasoning left open. *)
Definition error_shaped (claim_id : string) (v : dict) : Prop :=
  dict_get "claim_id" v = Some (JStr claim_id)
  /\ dict_get "verdict" v = Some (JStr "undetermined")
  /\ dict_get "confidence" v = Some (JFloat (Qmake 0 1))
  /\ dict_get "supporting_spans" v = Some (JArr [])
  /\ dict_get "contradicting_spans" v = Some (JArr []).

(** A failure after which the loop goes on to the next attempt. *)
Definition transient (o : Reasoning.api_outcome) : bool :=
  match o with
  | Reasoning.RateLimitError _ | Reasoning.APIConnectionError _ => true
  | Reasoning.APIError (Some status) _ => (500 <=? status) && (status <? 600)
  | _ => false
  end.

(** The fixed mapping from verdict to prediction, on a report line. *)
Definition mapped (r : Aggregator.row) : Prop :=
  (Aggregator.verdict r = JStr "supported" -> Aggregator.prediction r = 1)
  /\ (Aggregator.verdict r = JStr "contradicted" -> Aggregator.prediction r = 0)
  /\ (Aggregator.verdict r = JStr "undetermined" -> Aggregator.prediction r = 0).

End Shape.

(** ** How the segmenter places a chunk *)

Module Offsets.
Import Ingestion.

Section Located.
Context `{Encoding}.

(** The window of tokens of the chunk with index [i]. *)
Definition window_start (chunk_size overlap : Z) (i : nat) : Z :=
  Z.of_nat i * (chunk_size - overlap).

Definition window (source : string) (chunk_size overlap : Z) (i : nat) : list token :=
  let tokens := encode source in
  let token_idx := window_start chunk_size overlap i in
  PyList.slice tokens token_idx (Z.min (token_idx + chunk_size) (PyList.len tokens)).

(** The text decoded from the tokens of the overlap before the chunk with
    index [i]. *)
Definition overlap_text (source : string) (chunk_size overlap : Z) (i : nat) : string :=
  let tokens := encode source in
  let token_idx := window_start chunk_size overlap i in
  decode (PyList.slice tokens (Z.max 0 (token_idx - overlap)) token_idx).

(** Where the search for the start of the chunk with index [i] begins,
    given the end of the chunk before it. *)
Definition search_from (source : string) (chunk_size overlap : Z) (i : nat)
    (previous_end : Z) : nat :=
  Z.to_nat (Z.max 0 (previous_end
                     - PyStr.len (overlap_text source chunk_size overlap i) - 100)).

(** The chunk [c] is the chunk with index [i] of [source], placed after a
    chunk that ends at [previous_end]: its text is decoded from its
    window, and its start is 0 for the first chunk and otherwise the
    result of searching the source for the first 100 characters of the
    text, or, when they are not found, the end of the chunk before. *)
Definition located (source : string) (chunk_size overlap : Z) (i : nat)
    (previous_end : Z) (c : chunk) : Prop :=
  chunk_idx c = Z.of_nat i
  /\ text c = decode (window source chunk_size overlap i)
  /\ token_count c = PyList.len (window source chunk_size overlap i)
  /\ char_end c = char_start c + PyStr.len (text c)
  /\ char_start c =
     match i with
     | O => 0
     | S _ =>
         let found :=
           PyStr.find source (PyStr.take 100 (text c))
                      (search_from source chunk_size overlap i previous_end) in
         if found =? -1 then previous_end else found
     end.

Definition all_located (source : string) (chunk_size overlap : Z)
    (chunks : list chunk) : Prop :=
  forall i c, chunks !! i = Some c ->
    located source chunk_size overlap i (last_char_end (firstn i chunks)) c.

End Located.

End Offsets.

(** ** Search hits behind the evidence entries *)

Module Ranking.

(** An entry of [results] together with what the loop knew when it built
    it: the position of the hit in the search result and its similarity
    score before the boost. *)
Record candidate := mk_candidate {
  position : nat;
  raw : Q;
  entry : Retriever.evidence
}.

(** [Retriever.build_results] with every entry tagged by its hit; [pos]
    is the position of the first hit of [hits] in the search result. *)
Fixpoint candidates (book_name_lower : string) (metadata : list Retriever.meta)
    (hits : list (Q * Z)) (pos : nat) : option (list candidate) :=
  match hits with
  | [] => Some []
  | (sc, idx) :: rest =>
      if idx =? -1 then candidates book_name_lower metadata rest (S pos)
      else
        match Retriever.py_index metadata idx with
        | None => None
        | Some m =>
            let meta_book_lower := Retriever.normalize_book (Retriever.meta_book m) in
            let same :=
              PyStr.contains book_name_lower meta_book_lower
              || PyStr.contains meta_book_lower book_name_lower in
            let adjusted_score := Qplus sc (if same then Qmake 1 5 else Qmake 0 1) in
            match candidates book_name_lower metadata rest (S pos) with
            | None => None
            | Some results =>
                Some (mk_candidate pos sc
                        (Retriever.mk_evidence (Retriever.meta_chunk_idx m)
                           (Retriever.meta_book m) (Retriever.meta_char_start m)
                           (Retriever.meta_char_end m) (Retriever.meta_text m)
                           adjusted_score same) :: results)
            end
        end
  end.

(** In a sort with the given [before] and [key], [a] is ranked ahead of
    [b]: by key, or else, neither key going before the other, by
    position. *)
Definition ahead {A K : Type} (before : K -> K -> bool) (key : A -> K)
    (pos : A -> nat) (a b : A) : Prop :=
  before (key a) (key b) = true
  \/ (before (key b) (key a) = false /\ (pos a < pos b)%nat).

(** The boosted score of a candidate, the key of the sort. *)
Definition boosted (c : candidate) : Q := Retriever.score (entry c).

(** The hits come in descending order of similarity, as a similarity
    search returns them. *)
Definition descending (hits : list (Q * Z)) : Prop :=
  forall i j s t, (i < j)%nat -> hits !! i = Some s -> hits !! j = Some t ->
    Qle t.1 s.1.

End Ranking.

(** ** Concrete inputs used in the examples *)

Module Samples.
Import Json.

(** The text of the [JSONDecodeError] Python raises on a reply that does
    not start with a JSON value. *)
Definition expecting_value (s : string) : string :=
  "Expecting value: line 1 column 1 (char 0)".

Definition json_loads : decoder := loads_with expecting_value.

Definition sample_evidence : Retriever.bundle :=
  Retriever.mk_bundle "test_001" "The Count of Monte Cristo" "Edmond Dantes"
    "Edmond Dantes was imprisoned for fourteen years." [].

(** [{"verdict": "maybe", "confidence": 7}] *)
Definition reply_maybe : string :=
  "{" ++ PyStr.quoted "verdict" ++ ": " ++ PyStr.quoted "maybe" ++ ", "
      ++ PyStr.quoted "confidence" ++ ": 7}".

(** [{"verdict": "supported"}] *)
Definition reply_bare : string :=
  "{" ++ PyStr.quoted "verdict" ++ ": " ++ PyStr.quoted "supported" ++ "}".

Definition reply_text : string := "This is not valid JSON".

(** A claim about a book, an index of three chunks of which the last two
    come from that book, and a search that finds all three: the first
    with similarity 0.7, the other two with 0.5, and after them the
    padding a search for more neighbours than there are vectors returns. *)
Definition sample_claim : Retriever.claim :=
  Retriever.mk_claim "test_001" "The Count of Monte Cristo" "Edmond Dantes"
    "Edmond Dantes was imprisoned for fourteen years.".

Definition sample_metadata : list Retriever.meta :=
  [ Retriever.mk_meta "In Search of the Castaways" 0 0 40 "The yacht left Glasgow.";
    Retriever.mk_meta "The Count of Monte Cristo" 0 0 52 "He was imprisoned for fourteen years.";
    Retriever.mk_meta "the_count_of_monte_cristo" 1 40 90 "The Chateau d'If stood on a rock." ].


Definition sample_hits : list (Q * Z) :=
  [ (Qmake 7 10, 0); (Qmake 1 2, 1); (Qmake 1 2, 2);
    (Qmake (- 340282346638528859811704183484516925440) 1, -1) ].

Definition sample_index : Retriever.faiss_index :=
  Retriever.mk_index 3 (fun _ _ => sample_hits).

Definition sample_candidate (pos : nat) (sc : Q) (m : Retriever.meta) (same : bool)
    : Ranking.candidate :=
  Ranking.mk_candidate pos sc
    (Retriever.mk_evidence (Retriever.meta_chunk_idx m) (Retriever.meta_book m)
       (Retriever.meta_char_start m) (Retriever.meta_char_end m)
       (Retriever.meta_text m)
       (Qplus sc (if same then Qmake 1 5 else Qmake 0 1)) same).

Definition sample_candidates : list Ranking.candidate :=
  match sample_metadata with
  | [m0; m1; m2] =>
      [ sample_candidate 0 (Qmake 7 10) m0 false;
        sample_candidate 1 (Qmake 1 2) m1 true;
        sample_candidate 2 (Qmake 1 2) m2 true ]
  | _ => []
  end.

(** The chunks of the repository's chunking tests: 500 times "word",
    chunks of 100 tokens, overlap 20; and a smaller case. *)
Definition test_chunks : list Ingestion.chunk :=
  Eval vm_compute in
    default [] (@Ingestion.chunk_text Ingestion.word_encoding (Ingestion.words 500) 100 20).

Definition small_chunks : list Ingestion.chunk :=
  Eval vm_compute in
    default [] (@Ingestion.chunk_text Ingestion.word_encoding (Ingestion.words 12) 5 2).

Definition sample_verdict (claim_id v : string) : json :=
  JObj [ ("claim_id", JStr claim_id); ("verdict", JStr v);
         ("confidence", JFloat (Qmake 1 2)); ("reasoning", JStr "ok") ].

Definition sample_row (claim_id v : string) (p : Z) : Aggregator.row :=
  Aggregator.mk_row (JStr claim_id) EmptyString EmptyString p (JStr v)
    (JFloat (Qmake 1 2)) (JStr "ok").

End Samples.

(** ** agents/ingestion_agent.py: the rest of the file *)

Module Novel.
Import Ingestion.

(** [count_tokens(text, encoding)]. *)
Definition count_tokens `{Encoding} (source : string) : Z :=
  PyList.len (encode source).

(** [text.split()]: the maximal runs of characters that are not
    whitespace; [cur] is the run read so far. *)
Fixpoint split_ws_go (s cur : string) : list string :=
  match s with
  | EmptyString => if String.eqb cur EmptyString then [] else [cur]
  | String c s' =>
      if PyStr.is_space c
      then (if String.eqb cur EmptyString then [] else [cur])
             ++ split_ws_go s' EmptyString
      else split_ws_go s' (cur ++ String c EmptyString)
  end.

Definition split_ws (s : string) : list string := split_ws_go s EmptyString.

(** [" ".join(text.split())], the clean-up of [process_novel]. *)
Definition clean (raw : string) : string := PyStr.join " " (split_ws raw).

(** A chunk with the [book] key [process_novel] adds to it. *)
Record book_chunk := mk_book_chunk {
  book : string;
  body : chunk
}.

(** [process_novel(filepath, encoding)], on the stem of the path and the
    text read from the file. *)
Definition process_novel `{Encoding} (file_stem raw : string)
    : option (list book_chunk) :=
  match chunk_text (clean raw) CHUNK_SIZE CHUNK_OVERLAP with
  | Some chunks => Some (mk_book_chunk file_stem <$> chunks)
  | None => None
  end.

(** A character run without whitespace, and not empty. *)
Fixpoint no_space (s : string) : bool :=
  match s with
  | EmptyString => true
  | String c s' => negb (PyStr.is_space c) && no_space s'
  end.

Definition is_word (s : string) : bool :=
  no_space s && negb (String.eqb s EmptyString).

(** Only whitespace. *)
Fixpoint all_space (s : string) : bool :=
  match s with
  | EmptyString => true
  | String c s' => PyStr.is_space c && all_space s'
  end.

End Novel.

(** ** Entries and the hits they are built from *)

Module Built.
Import Retriever.

(** The entry [e] is what the loop of [retrieve_evidence] builds from the
    hit [h] for a claim whose normalised book name is [book_name_lower]:
    the fields of the metadata at the hit's position, the flag of the
    book-name test, and the hit's score plus 0.2 when the flag is set. *)
Definition built_from (book_name_lower : string) (metadata : list meta)
    (h : Q * Z) (e : evidence) : Prop :=
  exists m,
    py_index metadata h.2 = Some m
    /\ chunk_idx e = meta_chunk_idx m
    /\ book e = meta_book m
    /\ char_start e = meta_char_start m
    /\ char_end e = meta_char_end m
    /\ text e = meta_text m
    /\ is_same_book e
       = (PyStr.contains book_name_lower (normalize_book (meta_book m))
          || PyStr.contains (normalize_book (meta_book m)) book_name_lower)
    /\ score e = Qplus h.1 (if is_same_book e then Qmake 1 5 else Qmake 0 1).

(** The hit is not the padding of a search that found fewer neighbours
    than it was asked for. *)
Definition is_hit (h : Q * Z) : bool := negb (h.2 =? -1).

End Built.

(** ** More concrete inputs *)

Module MoreSamples.
Import Json.

(** A search that finds two chunks with the same similarity, the one
    from another book first. *)
Definition tie_hits : list (Q * Z) := [ (Qmake 1 2, 0); (Qmake 1 2, 1) ].

Definition tie_index : Retriever.faiss_index :=
  Retriever.mk_index 3 (fun _ _ => tie_hits).

Definition tie_other : Ranking.candidate :=
  Samples.sample_candidate 0 (Qmake 1 2)
    (Retriever.mk_meta "In Search of the Castaways" 0 0 40 "The yacht left Glasgow.")
    false.

Definition tie_same : Ranking.candidate :=
  Samples.sample_candidate 1 (Qmake 1 2)
    (Retriever.mk_meta "The Count of Monte Cristo" 0 0 52
       "He was imprisoned for fourteen years.") true.

(** A second claim, and a search that returns a position the metadata of
    three entries does not have. *)
Definition second_claim : Retriever.claim :=
  Retriever.mk_claim "test_002" "The Count of Monte Cristo" "Mercedes"
    "Mercedes married Fernand.".

Definition stale_index : Retriever.faiss_index :=
  Retriever.mk_index 4
    (fun query _ =>
       if String.prefix "Mercedes" query then [ (Qmake 9 10, 3) ]
       else Samples.sample_hits).

End MoreSamples.

(** ** Outcomes of a request to the hosted backend *)

Module Outcome.
Import Reasoning.

(** [str(e)] of the exception an outcome raises. *)
Definition failure_message (o : api_outcome) : string :=
  match o with
  | Responded _ => EmptyString
  | RateLimitError m | APIConnectionError m | APIError _ m | OtherException m => m
  end.

(** The reasoning of the error verdict with which the call ends at once
    on an exception that is not retried. *)
Definition fatal_reasoning (o : api_outcome) : option string :=
  match o with
  | APIError (Some status) m =>
      if (500 <=? status) && (status <? 600) then None
      else Some ("API error: " ++ m)%string
  | APIError None m => Some ("API error: " ++ m)%string
  | OtherException m => Some ("Unexpected error: " ++ m)%string
  | _ => None
  end.

(** The [str(last_error)] after [k] transient failures, the first of
    them the request number [first]. *)
Definition last_error_after (client : nat -> api_outcome) (first k : nat)
    (before : option string) : option string :=
  match k with
  | O => before
  | S k' => Some (failure_message (client (first + k')%nat))
  end.

End Outcome.

(** ** Sample runs of the reasoning agents *)

Module RunSamples.
Import Json.

(** [{"confidence": 7}] *)
Definition reply_no_verdict : string :=
  "{" ++ PyStr.quoted "confidence" ++ ": 7}".

Definition second_evidence : Retriever.bundle :=
  Retriever.mk_bundle "test_002" "In Search of the Castaways" "Paganel"
    "Paganel boarded the wrong ship." [].

Definition two_files : list Resolver.evidence_file :=
  [ Resolver.mk_file "test_001" Samples.sample_evidence;
    Resolver.mk_file "test_002" second_evidence ].

(** A quoted string inside a JSON string: [\] before each quote. *)
Definition escaped (s : string) : string :=
  let backslash := String (ascii_of_nat 92) EmptyString in
  let quote := String PyStr.quote EmptyString in
  backslash ++ quote ++ s ++ backslash ++ quote.

(** The body of an answer of the local server whose [response] field
    is the text [{"verdict": "supported"}]. *)
Definition body_bare : string :=
  "{" ++ PyStr.quoted "response" ++ ": "
      ++ PyStr.quoted ("{" ++ escaped "verdict" ++ ": " ++ escaped "supported" ++ "}")
      ++ "}".

End RunSamples.

(** ** Reading the report *)

Module Report.
Import Json Aggregator.


(** The id of a line whose id is a string. *)
Definition text_id (r : row) : string :=
  match id r with JStr s => s | _ => EmptyString end.

(** A line of the report made from a verdict document. *)
Definition line_of (document : json) (r : row) : Prop :=
  exists v, document = JObj v
    /\ dict_get "claim_id" v = Some (id r)
    /\ dict_get "verdict" v = Some (verdict r)
    /\ confidence r = dict_get_default "confidence" (JInt 0) v.

(** The last line of the claims file with a given claim id. *)
Definition last_line (lines : list Retriever.claim) (claim_id : string)
    : option Retriever.claim :=
  last (filter (fun c => Retriever.claim_id c = claim_id) lines).

Definition id_only (claim_id : string) : json :=
  JObj [("claim_id", JStr claim_id)].

Definition first_edition : Retriever.claim :=
  Retriever.mk_claim "1" "Monte Cristo" "Dantes" "An earlier line.".

Definition second_edition : Retriever.claim :=
  Retriever.mk_claim "1" "The Count of Monte Cristo" "Edmond Dantes" "A later line.".

(** A reasoning of 300 characters and the verdict document with it. *)
Definition long_reasoning : string :=
  Eval vm_compute in PyStr.join EmptyString (replicate 300 "a").

Definition long_verdict : json :=
  JObj [ ("claim_id", JStr "1"); ("verdict", JStr "supported");
         ("reasoning", JStr long_reasoning) ].

Definition long_row : row :=
  mk_row (JStr "1") EmptyString EmptyString 1 (JStr "supported") (JInt 0)
    (JStr (PyStr.take 197 long_reasoning ++ "...")).

Definition joined_row : row :=
  mk_row (JStr "1") "The Count of Monte Cristo" "Edmond Dantes" 1 (JStr "supported")
    (JFloat (Qmake 1 2)) (JStr "ok").

End Report.

(** ** run_all.py *)

Module RunAll.

(** The pipeline stages in order. *)
Definition STAGES : list (string * string) :=
  [ ("Ingestion", "agents/ingestion_agent.py");
    ("Embedding", "agents/embedding_agent.py");
    ("Claims", "agents/claim_parser.py");
    ("Retrieval", "agents/retriever_agent.py");
    ("Reasoning", "agents/reasoning_agent.py");
    ("Dossiers", "agents/dossier_writer.py");
    ("Results", "agents/results_aggregator.py") ].

(** [s.replace(old, new)] for a non-empty [old]. *)
Definition replace (s old new : string) : string :=
  PyStr.join new (PyStr.split s old).

(** The stage list after the swap that [--local] makes. *)
Definition swap_local (stages : list (string * string)) : list (string * string) :=
  (fun '(n, s) =>
     (n, if PyStr.contains "reasoning" s
         then replace s "reasoning_agent.py" "reasoning_agent_local.py"
         else s)) <$> stages.

(** [l.index(x)]; [None] is the [ValueError]. *)
Fixpoint index (x : string) (l : list string) : option nat :=
  match l with
  | [] => None
  | y :: rest => if String.eqb y x then Some O else S <$> index x rest
  end.

(** What [subprocess.run(args, check=True)] does: the child exits with
    a return code (a code other than 0 raises [CalledProcessError]), or
    the call raises another exception. *)
Inductive completed : Type :=
| Exited (returncode : Z)
| RunError (message : string).

(** The parsed command line. *)
Record arguments := mk_arguments {
  test_mode : bool;
  skip_reasoning : bool;
  local : bool;
  start_from : option string
}.

(** How a run of the pipeline ends: with "PIPELINE COMPLETE!", or with
    [sys.exit(1)] at a stage. *)
Inductive result : Type :=
| Complete
| Exit1 (stage : string).

Section Run.
(** [executable] is [sys.executable]; [script_exists] tells whether a
    script is there; [subprocess_run k args] is what the call of
    [subprocess.run] with [args] does when [k] calls have been made
    before. The trace is the list of the calls made. *)
Variable executable : string.
Variable script_exists : string -> bool.
Variable subprocess_run : nat -> list string -> completed.

(** [run_stage(name, script, test_mode)]; [str(script_path)] is the
    script as it is written in [STAGES]. *)
Definition run_stage (script : string) (test_mode : bool)
    (trace : list (list string)) : bool * list (list string) :=
  if negb (script_exists script) then (false, trace)
  else
    let args := [executable; script] ++ (if test_mode then ["--test-mode"] else []) in
    match subprocess_run (List.length trace) args with
    | Exited 0 => (true, trace ++ [args])
    | Exited _ => (false, trace ++ [args])
    | RunError _ => (false, trace ++ [args])
    end.

(** [for name, script in stages_to_run]. *)
Fixpoint run_stages (skip test : bool) (stages : list (string * string))
    (trace : list (list string)) : result * list (list string) :=
  match stages with
  | [] => (Complete, trace)
  | (name, script) :: rest =>
      if skip && String.eqb name "Reasoning" then run_stages skip test rest trace
      else
        let '(success, trace') := run_stage script test trace in
        if success then run_stages skip test rest trace'
        else (Exit1 name, trace')
  end.

(** The stage list [main] works with, and the index it starts from. An
    empty [--start-from] counts as none given; it is also no stage name. *)
Definition stages_of (a : arguments) : list (string * string) :=
  if local a then swap_local STAGES else STAGES.

Definition start_idx (a : arguments) : nat :=
  match start_from a with
  | Some s => default O (index s ((fun st => PyStr.lower st.1) <$> stages_of a))
  | None => O
  end.

(** [main()] after [parser.parse_args()]. *)
Definition main (a : arguments) : result * list (list string) :=
  run_stages (skip_reasoning a) (test_mode a) (drop (start_idx a) (stages_of a)) [].
End Run.

(** The script of a call of [subprocess.run]. *)
Definition script_of (args : list string) : string := nth 1 args EmptyString.

End RunAll.

(** ** agents/embedding_agent.py *)

Module Embedding.
Import Json.

Definition BATCH_SIZE : Z := 64.

(** [range(0, stop, step)] for [0 < step]. *)
Definition range_step (stop step : Z) : list Z :=
  (fun k => Z.of_nat k * step) <$> seq 0 (Z.to_nat ((stop + step - 1) / step)).

(** [c[k]] on a decoded line. *)
Definition getitem (k : string) (c : json) : string + json :=
  match c with
  | JObj d => match dict_get k d with Some v => inr v | None => inl "KeyError" end
  | _ => inl "TypeError"
  end.

(** A list comprehension over [f], ended by the first exception. *)
Fixpoint comprehension {A B} (f : A -> string + B) (l : list A) : string + list B :=
  match l with
  | [] => inr []
  | x :: rest =>
      match f x with
      | inl exc => inl exc
      | inr y =>
          match comprehension f rest with
          | inl exc => inl exc
          | inr ys => inr (y :: ys)
          end
      end
  end.

(** The five entries [create_metadata] keeps of a chunk. *)
Definition metadata_of (c : json) : string + dict :=
  match getitem "book" c with
  | inl exc => inl exc
  | inr book =>
  match getitem "chunk_idx" c with
  | inl exc => inl exc
  | inr chunk_idx =>
  match getitem "char_start" c with
  | inl exc => inl exc
  | inr char_start =>
  match getitem "char_end" c with
  | inl exc => inl exc
  | inr char_end =>
  match getitem "text" c with
  | inl exc => inl exc
  | inr text =>
      inr [ ("book", book); ("chunk_idx", chunk_idx); ("char_start", char_start);
            ("char_end", char_end); ("text", text) ]
  end end end end end.

(** [create_metadata(chunks)]. *)
Definition create_metadata (chunks : list json) : string + list dict :=
  comprehension metadata_of chunks.

(** What [main] leaves behind: nothing when [chunks/chunks.jsonl] is not
    there, nothing when an exception ends it, or the vectors of the
    index and the metadata list. *)
Inductive report (V : Type) : Type :=
| NoChunks
| Failed (exception : string)
| Written (index : list V) (metadata : list dict).
Arguments NoChunks {V}.
Arguments Failed {V}.
Arguments Written {V}.

Section Model.
(** [encode batch] is the rows of [model.encode(batch)], and
    [normalize] what [faiss.normalize_L2] makes of a row. The rows are
    taken to have one dimension, so that [np.vstack] raises on an empty
    list only. *)
Context {V : Type}.
Variable encode : list json -> list V.
Variable normalize : V -> V.

(** [create_embeddings(chunks, model)]: the rows of the array. *)
Definition create_embeddings (chunks : list json) : string + list V :=
  match comprehension (getitem "text") chunks with
  | inl exc => inl exc
  | inr texts =>
      let embeddings :=
        (fun i => encode (PyList.slice texts i (i + BATCH_SIZE)))
          <$> range_step (PyList.len texts) BATCH_SIZE in
      match embeddings with
      | [] => inl "ValueError"
      | _ => inr (concat embeddings)
      end
  end.

(** [build_faiss_index(embeddings)]: the vectors of the index, in the
    order in which [index.add] received them. *)
Definition build_faiss_index (embeddings : list V) : list V :=
  normalize <$> embeddings.

(** [main()], with [input_file] the decoded lines of
    [chunks/chunks.jsonl], if the file is there. *)
Definition main (input_file : option (list json)) : report V :=
  match input_file with
  | None => NoChunks
  | Some chunks =>
      match create_embeddings chunks with
      | inl exc => Failed exc
      | inr embeddings =>
          let index := build_faiss_index embeddings in
          match create_metadata chunks with
          | inl exc => Failed exc
          | inr metadata => Written index metadata
          end
      end
  end.
End Model.

(** Sample chunk lines. *)
Definition sample_chunk (book : string) (chunk_idx : Z) (text : string) : json :=
  JObj [ ("chunk_idx", JInt chunk_idx); ("text", JStr text);
         ("char_start", JInt 0); ("char_end", JInt (PyStr.len text));
         ("token_count", JInt 3); ("book", JStr book) ].

Definition sample_chunks : list json :=
  [ sample_chunk "The Count of Monte Cristo" 0 "He was imprisoned.";
    sample_chunk "The Count of Monte Cristo" 1 "The Chateau d'If." ].

(** An encoder for the samples: the length of the text. *)
Definition length_of (text : json) : Z :=
  match text with JStr s => PyStr.len s | _ => 0 end.

End Embedding.

(** ** Replies that end a call *)

Module Replies.
Import Json.

(** The call of the hosted agent, made when the requests [reqs] have
    been sent, is ended by a reply that decodes to the JSON object
    [reply]: within [MAX_RETRIES] attempts, after transient failures
    only. *)
Definition hosted_reply (json_loads : decoder)
    (client : nat -> Reasoning.api_outcome) (reqs : list string)
    (reply : dict) : Prop :=
  exists k response,
    (k < Reasoning.MAX_RETRIES)%nat
    /\ (forall j, (j < k)%nat ->
          Shape.transient (client (List.length reqs + j)%nat) = true)
    /\ client (List.length reqs + k)%nat = Reasoning.Responded response
    /\ json_loads (Reasoning.strip_fences (PyStr.strip response)) = inl (JObj reply).

(** The request of the local agent is answered with status 200 by a
    body whose [response] text decodes to the JSON object [reply]. *)
Definition local_reply (json_loads : decoder)
    (server : nat -> ReasoningLocal.http_outcome) (reqs : list string)
    (reply : dict) : Prop :=
  exists body result response,
    server (List.length reqs) = ReasoningLocal.Response 200 body
    /\ json_loads body = inl (JObj result)
    /\ dict_get_default "response" (JStr EmptyString) result = JStr response
    /\ json_loads (ReasoningLocal.extract_fenced (PyStr.strip response))
       = inl (JObj reply).

(** Replies that are JSON and not what the agent asks for: a number, and
    an object without any field. *)
Definition reply_number : string := "42".

Definition reply_empty_object : string := "{}".

End Replies.

(** * Properties *)

(** ** Python's sort *)

Module PyListFacts.

Section Sort.
Context {A K : Type} (before : K -> K -> bool) (key : A -> K).

Lemma insert_perm (x : A) (l : list A) :
  PyList.insert before key x l ≡ₚ x :: l.
Proof.
  induction l as [|y l IH]; simpl; [done|].
  destruct (before (key y) (key x)); [|done].
  rewrite IH. apply Permutation_swap.
Qed.

(** Sorting rearranges the list and does nothing else. *)
Lemma sort_perm (l : list A) : PyList.sort before key l ≡ₚ l.
Proof.
  induction l as [|x l IH]; simpl; [done|].
  by rewrite insert_perm, IH.
Qed.

Lemma elem_of_sort (x : A) (l : list A) :
  x ∈ PyList.sort before key l <-> x ∈ l.
Proof. by rewrite sort_perm. Qed.
End Sort.

End PyListFacts.

(** ** The aggregator *)

Module AggregatorFacts.
Import Json Aggregator Shape Samples.

Lemma make_row_mapped claims document r :
  make_row claims document = inr r -> mapped r.
Proof.
  unfold make_row. intros Hrow.
  destruct document as [| | | | | | |?|d]; try discriminate.
  destruct (dict_get "claim_id" d) as [cid|]; [|discriminate].
  destruct (lookup_claim claims cid) as [?|cd]; [discriminate|].
  destruct (dict_get "verdict" d) as [v|]; [|discriminate].
  destruct (predict v) as [?|p] eqn:Hp; [discriminate|].
  destruct (concise _) as [?|reasoning]; [discriminate|].
  injection Hrow as <-. unfold mapped; simpl.
  repeat split; intros ->; simpl in Hp; congruence.
Qed.

Lemma collect_mapped claims documents rows :
  collect claims documents = inr rows -> Forall mapped rows.
Proof.
  revert rows. induction documents as [|d rest IH]; simpl; intros rows Hc.
  - injection Hc as <-. constructor.
  - destruct (make_row claims d) as [?|r] eqn:Hr; [discriminate|].
    destruct (collect claims rest) as [?|rows']; [discriminate|].
    injection Hc as <-. constructor; eauto using make_row_mapped.
Qed.

Lemma int_keys_rows rows keyed :
  int_keys rows = inr keyed -> snd <$> keyed = rows.
Proof.
  revert keyed. induction rows as [|r rest IH]; simpl; intros keyed Hk.
  - by injection Hk as <-.
  - destruct (int_key (id r)); [discriminate|].
    destruct (int_keys rest) as [?|keyed']; [discriminate|].
    injection Hk as <-. simpl. f_equal. by apply IH.
Qed.

Lemma string_keys_rows rows keyed :
  mapM (fun r => (fun s => (s, r)) <$> string_id r) rows = Some keyed ->
  snd <$> keyed = rows.
Proof.
  rewrite mapM_Some. induction 1 as [|r [s r'] rows keyed' Hr _ IH]; [done|].
  simpl. destruct (string_id r); simplify_eq/=. by f_equal.
Qed.

(** The two sorts only reorder the entries. *)
Lemma sort_results_perm rows sorted :
  sort_results rows = inr sorted -> sorted ≡ₚ rows.
Proof.
  unfold sort_results. intros Hs.
  destruct (int_keys rows) as [[|exc]|keyed] eqn:Hk.
  - destruct (mapM _ rows) as [keyed|] eqn:Hm.
    + injection Hs as <-. apply string_keys_rows in Hm as <-.
      by rewrite PyListFacts.sort_perm.
    + destruct rows as [|? [|? ?]]; simplify_eq/=. done.
  - discriminate.
  - injection Hs as <-. apply int_keys_rows in Hk as <-.
    by rewrite PyListFacts.sort_perm.
Qed.

(** C9. Every line of the report the aggregator writes carries
    prediction 1 when its verdict is "supported" and prediction 0 when
    its verdict is "contradicted" or "undetermined". *)
Theorem report_prediction_follows_verdict verdict_files claims_file rows r :
  main verdict_files claims_file = Written rows ->
  r ∈ rows ->
  (verdict r = JStr "supported" -> prediction r = 1)
  /\ (verdict r = JStr "contradicted" \/ verdict r = JStr "undetermined" ->
      prediction r = 0).
Proof.
  unfold main. intros Hmain Hr.
  destruct verdict_files as [|d rest]; [discriminate|].
  destruct (collect _ (d :: rest)) as [?|results] eqn:Hc; [discriminate|].
  destruct (sort_results results) as [?|sorted] eqn:Hs; [discriminate|].
  injection Hmain as <-.
  apply collect_mapped in Hc. apply sort_results_perm in Hs.
  rewrite Hs in Hr. rewrite Forall_forall in Hc.
  destruct (Hc r Hr) as (H1 & H2 & H3).
  split; [done|]. intros [?|?]; auto.
Qed.

(** A report of three lines, one for each verdict, and its first line. *)
Lemma report_prediction_follows_verdict_witness :
  let files := [ sample_verdict "3" "undetermined"; sample_verdict "1" "supported";
                 sample_verdict "2" "contradicted" ] in
  let rows := [ sample_row "1" "supported" 1; sample_row "2" "contradicted" 0;
                sample_row "3" "undetermined" 0 ] in
  let r := sample_row "1" "supported" 1 in
  main files None = Written rows
  /\ r ∈ rows
  /\ (verdict r = JStr "supported" -> prediction r = 1)
  /\ (verdict r = JStr "contradicted" \/ verdict r = JStr "undetermined" ->
      prediction r = 0).
Proof.
  intros files rows r.
  assert (Hmain : main files None = Written rows) by (vm_compute; reflexivity).
  assert (Hr : r ∈ rows) by apply list_elem_of_here.
  split; [exact Hmain|]. split; [exact Hr|].
  exact (report_prediction_follows_verdict files None rows r Hmain Hr).
Defined.

End AggregatorFacts.

(** ** Dictionaries *)

Module JsonFacts.
Import Json.

Lemma dict_get_set_eq (k : string) (v : json) (d : dict) :
  dict_get k (dict_set k v d) = Some v.
Proof.
  induction d as [|[k' v'] d IH]; simpl.
  - by rewrite String.eqb_refl.
  - destruct (String.eqb k k') eqn:E; simpl; rewrite ?String.eqb_refl, ?E; auto.
Qed.

Lemma dict_get_set_ne (k k' : string) (v : json) (d : dict) :
  k <> k' -> dict_get k' (dict_set k v d) = dict_get k' d.
Proof.
  intros Hne. induction d as [|[k0 v0] d IH]; simpl.
  - destruct (String.eqb_spec k' k); congruence.
  - destruct (String.eqb_spec k k0) as [->|Hk0]; simpl.
    + destruct (String.eqb_spec k' k0); congruence.
    + destruct (String.eqb_spec k' k0); congruence.
Qed.

Lemma dict_has_set_eq (k : string) (v : json) (d : dict) :
  dict_has k (dict_set k v d) = true.
Proof. unfold dict_has. by rewrite dict_get_set_eq. Qed.

End JsonFacts.

(** ** The hosted reasoning agent *)

Module ReasoningFacts.
Import Json Stage Resolver Reasoning Shape Samples JsonFacts.

Lemma error_verdict_shaped claim_id message :
  error_shaped claim_id (create_error_verdict claim_id message).
Proof. by repeat split. Qed.

Lemma error_verdict_reasoning claim_id message :
  dict_get "reasoning" (create_error_verdict claim_id message) = Some (JStr message).
Proof. done. Qed.

Section Call.
Variable json_loads : decoder.
Variable client : nat -> api_outcome.

(** What a reply is turned into: an error verdict, or the decoded object
    with its claim_id overwritten. *)
Lemma read_reply_cases claim_id response :
  (exists message, read_reply json_loads claim_id response
                   = create_error_verdict claim_id message)
  \/ (exists reply,
        json_loads (strip_fences (PyStr.strip response)) = inl (JObj reply)
        /\ read_reply json_loads claim_id response
           = dict_set "claim_id" (JStr claim_id) reply).
Proof.
  unfold read_reply.
  destruct (json_loads _) as [[| | | | | | | |reply]|message]; eauto.
Qed.

(** Every way out of the retry loop: an error verdict, or the object
    decoded from one of the replies with its claim_id overwritten; and the
    requests sent are all for this claim. *)
Lemma attempts_cases n last_error claim_id reqs :
  let result := attempts json_loads client n last_error claim_id reqs in
  ((exists message, result.1 = create_error_verdict claim_id message)
   \/ (exists k response reply,
         client k = Responded response
         /\ json_loads (strip_fences (PyStr.strip response)) = inl (JObj reply)
         /\ result.1 = dict_set "claim_id" (JStr claim_id) reply))
  /\ exists sent, (sent <= n)%nat /\ result.2 = reqs ++ replicate sent claim_id.
Proof.
  revert last_error reqs. induction n as [|n IH]; intros last_error reqs; cbv zeta; simpl.
  - split; [eauto|]. exists O. by rewrite app_nil_r.
  - assert (Hmore : forall e,
      let result := attempts json_loads client n e claim_id (reqs ++ [claim_id]) in
      ((exists message, result.1 = create_error_verdict claim_id message)
       \/ (exists k response reply,
             client k = Responded response
             /\ json_loads (strip_fences (PyStr.strip response)) = inl (JObj reply)
             /\ result.1 = dict_set "claim_id" (JStr claim_id) reply))
      /\ exists sent, (sent <= S n)%nat /\ result.2 = reqs ++ replicate sent claim_id).
    { intros e. destruct (IH e (reqs ++ [claim_id])) as [Hv (sent & Hle & Hreq)].
      split; [exact Hv|]. exists (S sent). split; [lia|].
      simpl in *. rewrite Hreq. by rewrite <- app_assoc. }
    assert (Hone : exists sent, (sent <= S n)%nat
                   /\ reqs ++ [claim_id] = reqs ++ replicate sent claim_id).
    { exists 1%nat. split; [lia|done]. }
    destruct (client (List.length reqs)) as [response|m|m|[status|] m|m] eqn:Hc;
      simpl; try apply Hmore; try (split; [by eauto|exact Hone]).
    + split; [|exact Hone].
      destruct (read_reply_cases claim_id response) as [?|(reply & ? & ?)];
        [by left|right; eauto 6].
    + destruct ((500 <=? status) && (status <? 600)); [apply Hmore|].
      simpl. split; [by eauto|exact Hone].
Qed.

(** An undecodable reply ends the loop at once, whatever transient
    failures came before it. *)
Lemma attempts_undecodable n k last_error claim_id reqs response message :
  (k < n)%nat ->
  (forall j, (j < k)%nat -> transient (client (List.length reqs + j)) = true) ->
  client (List.length reqs + k) = Responded response ->
  json_loads (strip_fences (PyStr.strip response)) = inr message ->
  attempts json_loads client n last_error claim_id reqs
  = (create_error_verdict claim_id ("Failed to parse model response: " ++ message),
     reqs ++ replicate (S k) claim_id).
Proof.
  revert n last_error reqs.
  induction k as [|k IH]; intros n last_error reqs Hlt Htrans Hresp Hdec.
  - destruct n as [|n]; [lia|]. simpl.
    rewrite Nat.add_0_r in Hresp. rewrite Hresp.
    unfold read_reply. by rewrite Hdec.
  - destruct n as [|n]; [lia|].
    assert (Hnext : forall e,
      attempts json_loads client n e claim_id (reqs ++ [claim_id])
      = (create_error_verdict claim_id ("Failed to parse model response: " ++ message),
         reqs ++ replicate (S (S k)) claim_id)).
    { intros e. rewrite (IH n e (reqs ++ [claim_id])).
      - f_equal. by rewrite <- app_assoc.
      - lia.
      - intros j Hj. rewrite length_app. simpl.
        replace (List.length reqs + 1 + j)%nat with (List.length reqs + S j)%nat by lia.
        apply Htrans. lia.
      - rewrite length_app. simpl. rewrite <- Hresp. f_equal. lia.
      - exact Hdec. }
    pose proof (Htrans O ltac:(lia)) as H0. rewrite Nat.add_0_r in H0.
    simpl. destruct (client (List.length reqs)) as [?|?|?|[status|] ?|?];
      simpl in H0; try discriminate; try apply Hnext.
    rewrite H0. apply Hnext.
Qed.

(** A reply ends the loop at once, whatever it holds and whatever
    transient failures came before it. *)
Lemma attempts_responded n k last_error claim_id reqs response :
  (k < n)%nat ->
  (forall j, (j < k)%nat -> transient (client (List.length reqs + j)) = true) ->
  client (List.length reqs + k) = Responded response ->
  attempts json_loads client n last_error claim_id reqs
  = (read_reply json_loads claim_id response, reqs ++ replicate (S k) claim_id).
Proof.
  revert n last_error reqs.
  induction k as [|k IH]; intros n last_error reqs Hlt Htrans Hresp.
  - destruct n as [|n]; [lia|]. simpl.
    rewrite Nat.add_0_r in Hresp. by rewrite Hresp.
  - destruct n as [|n]; [lia|].
    assert (Hnext : forall e,
      attempts json_loads client n e claim_id (reqs ++ [claim_id])
      = (read_reply json_loads claim_id response,
         reqs ++ replicate (S (S k)) claim_id)).
    { intros e. rewrite (IH n e (reqs ++ [claim_id])).
      - f_equal. by rewrite <- app_assoc.
      - lia.
      - intros j Hj. rewrite length_app. simpl.
        replace (List.length reqs + 1 + j)%nat with (List.length reqs + S j)%nat by lia.
        apply Htrans. lia.
      - rewrite length_app. simpl. rewrite <- Hresp. f_equal. lia. }
    pose proof (Htrans O ltac:(lia)) as H0. rewrite Nat.add_0_r in H0.
    simpl. destruct (client (List.length reqs)) as [?|?|?|[status|] ?|?];
      simpl in H0; try discriminate; try apply Hnext.
    rewrite H0. apply Hnext.
Qed.

(** The two ways out of the retry loop, with the attempt that decides:
    an error verdict, or the object decoded from the reply that came
    after transient failures only, with its claim_id overwritten. *)
Lemma attempts_outcome n last_error claim_id reqs :
  let result := attempts json_loads client n last_error claim_id reqs in
  (exists message, result.1 = create_error_verdict claim_id message)
  \/ (exists k response reply,
        (k < n)%nat
        /\ (forall j, (j < k)%nat ->
              transient (client (List.length reqs + j)) = true)
        /\ client (List.length reqs + k) = Responded response
        /\ json_loads (strip_fences (PyStr.strip response)) = inl (JObj reply)
        /\ result.1 = dict_set "claim_id" (JStr claim_id) reply).
Proof.
  revert last_error reqs. induction n as [|n IH]; intros last_error reqs; cbv zeta.
  - left. by eexists.
  - assert (Hmore : forall e,
      transient (client (List.length reqs)) = true ->
      let result := attempts json_loads client n e claim_id (reqs ++ [claim_id]) in
      (exists message, result.1 = create_error_verdict claim_id message)
      \/ (exists k response reply,
            (k < S n)%nat
            /\ (forall j, (j < k)%nat ->
                  transient (client (List.length reqs + j)) = true)
            /\ client (List.length reqs + k) = Responded response
            /\ json_loads (strip_fences (PyStr.strip response)) = inl (JObj reply)
            /\ result.1 = dict_set "claim_id" (JStr claim_id) reply)).
    { intros e Hhere.
      destruct (IH e (reqs ++ [claim_id]))
        as [?|(k & response & reply & Hk & Htrans & Hresp & Hdec & Hres)]; [by left|].
      right. exists (S k), response, reply.
      rewrite length_app in Htrans, Hresp. simpl in Htrans, Hresp.
      split; [lia|]. split; [|split; [|done]].
      - intros [|j] Hj; [by rewrite Nat.add_0_r|].
        replace (List.length reqs + S j)%nat with (List.length reqs + 1 + j)%nat by lia.
        apply Htrans. lia.
      - rewrite <- Hresp. f_equal. lia. }
    cbn [attempts].
    destruct (client (List.length reqs)) as [response|m|m|[status|] m|m] eqn:Hc;
      try (by apply Hmore); try (left; by eexists).
    + destruct (read_reply_cases claim_id response) as [?|(reply & Hdec & Hres)];
        [by left|].
      right. exists O, response, reply. rewrite Nat.add_0_r.
      split; [lia|]. split; [intros j Hj; lia|done].
    + destruct ((500 <=? status) && (status <? 600)) eqn:Hstatus.
      * apply Hmore. exact Hstatus.
      * left. by eexists.
Qed.

End Call.

End ReasoningFacts.

(** ** The local reasoning agent *)

Module ReasoningLocalFacts.
Import Json Stage Resolver ReasoningLocal Shape Samples JsonFacts.

Lemma local_error_verdict_shaped claim_id message :
  error_shaped claim_id (create_error_verdict claim_id message).
Proof. by repeat split. Qed.

Lemma get_set_default_ne (k k' : string) (x : json) (d : dict) :
  k <> k' -> dict_get k' (set_default k x d) = dict_get k' d.
Proof.
  intros Hne. unfold set_default.
  destruct (dict_has k d); [done|]. by apply dict_get_set_ne.
Qed.

Lemma get_set_default_eq (k : string) (x : json) (d : dict) :
  dict_get k (set_default k x d) = Some (dict_get_default k x d).
Proof.
  unfold set_default, dict_has, dict_get_default.
  destruct (dict_get k d) as [v|] eqn:Hk; simpl; [done|].
  apply dict_get_set_eq.
Qed.

(** The four fields are present after the backfill, each with the
    reply's value or else its default; other fields are untouched. *)
Lemma backfill_fields (d : dict) :
  dict_get "supporting_spans" (backfill d)
  = Some (dict_get_default "supporting_spans" (JArr []) d)
  /\ dict_get "contradicting_spans" (backfill d)
     = Some (dict_get_default "contradicting_spans" (JArr []) d)
  /\ dict_get "confidence" (backfill d)
     = Some (dict_get_default "confidence" (JFloat (Qmake 1 2)) d)
  /\ dict_get "reasoning" (backfill d)
     = Some (dict_get_default "reasoning" (JStr "Local model inference") d).
Proof.
  unfold backfill. repeat split.
  - rewrite !get_set_default_ne by done. by rewrite get_set_default_eq.
  - rewrite !get_set_default_ne by done. rewrite get_set_default_eq.
    unfold dict_get_default. by rewrite !get_set_default_ne by done.
  - rewrite !get_set_default_ne by done. rewrite get_set_default_eq.
    unfold dict_get_default. by rewrite !get_set_default_ne by done.
  - rewrite get_set_default_eq.
    unfold dict_get_default. by rewrite !get_set_default_ne by done.
Qed.

Lemma backfill_other (k : string) (d : dict) :
  k <> "supporting_spans" -> k <> "contradicting_spans" ->
  k <> "confidence" -> k <> "reasoning" ->
  dict_get k (backfill d) = dict_get k d.
Proof.
  intros. unfold backfill. by rewrite !get_set_default_ne by done.
Qed.

Section Call.
Variable json_loads : decoder.
Variable server : nat -> http_outcome.

Lemma read_reply_local_cases claim_id response_text :
  (exists message, read_reply json_loads claim_id response_text
                   = create_error_verdict claim_id message)
  \/ (exists reply,
        json_loads response_text = inl (JObj reply)
        /\ read_reply json_loads claim_id response_text
           = backfill (dict_set "claim_id" (JStr claim_id) reply)).
Proof.
  unfold read_reply.
  destruct (json_loads _) as [[| | | | | | | |reply]|message]; eauto.
Qed.

(** Every way out of [call_ollama]: an error verdict, or the decoded
    object with its claim_id overwritten and the four fields backfilled;
    one request is sent. *)
Lemma call_ollama_cases claim_data reqs :
  let claim_id := Retriever.bundle_claim_id claim_data in
  let result := call_ollama json_loads server claim_data reqs in
  ((exists message, result.1 = create_error_verdict claim_id message)
   \/ (exists body result' response reply,
         server (List.length reqs) = Response 200 body
         /\ json_loads body = inl (JObj result')
         /\ dict_get_default "response" (JStr EmptyString) result' = JStr response
         /\ json_loads (extract_fenced (PyStr.strip response)) = inl (JObj reply)
         /\ result.1 = backfill (dict_set "claim_id" (JStr claim_id) reply)))
  /\ result.2 = reqs ++ [claim_id].
Proof.
  cbv zeta. unfold call_ollama. simpl. split; [|done].
  destruct (server (List.length reqs)) as [status body| | |m] eqn:Hs; eauto.
  destruct (status =? 200) eqn:Hst; simpl; [|by eauto].
  apply Z.eqb_eq in Hst as ->.
  unfold read_body.
  destruct (json_loads body) as [[| | | | | | | |result]|message] eqn:Hb; eauto.
  destruct (dict_get_default "response" (JStr EmptyString) result)
    as [| | | | | |response| |] eqn:Hr; eauto.
  destruct (read_reply_local_cases claim_data.(Retriever.bundle_claim_id)
              (extract_fenced (PyStr.strip response))) as [?|(reply & ? & ?)];
    [by left|].
  right. by exists body, result, response, reply.
Qed.

End Call.

End ReasoningLocalFacts.

(** ** The verdict returned for one claim *)

Module VerdictFacts.
Import Json Stage Resolver Shape Samples Replies JsonFacts.
Import ReasoningFacts ReasoningLocalFacts.

(** C1, as the code has it. For every behaviour of the backend and every
    reply text, the verdict either agent returns carries the claim_id of
    the request, whatever the reply says. When the call is ended by a
    reply that decodes to a JSON object, the verdict and the confidence
    returned are the reply's own, whatever they are: nothing checks them
    (with the local agent a missing confidence becomes 0.5). In every
    other case, a failed call or a reply that does not decode to a JSON
    object, the verdict returned is an error verdict: "undetermined",
    confidence 0.0. *)
Theorem verdict_carries_request_claim_id
    (json_loads : decoder) (client : nat -> Reasoning.api_outcome)
    (server : nat -> ReasoningLocal.http_outcome)
    (claim_data : Retriever.bundle) (reqs : list string) :
  let claim_id := Retriever.bundle_claim_id claim_data in
  let hosted := (Reasoning.call_claude_with_retry json_loads client claim_data reqs).1 in
  let loc := (ReasoningLocal.call_ollama json_loads server claim_data reqs).1 in
  (dict_get "claim_id" hosted = Some (JStr claim_id)
   /\ dict_get "claim_id" loc = Some (JStr claim_id))
  /\ (forall reply, hosted_reply json_loads client reqs reply ->
        dict_get "verdict" hosted = dict_get "verdict" reply
        /\ dict_get "confidence" hosted = dict_get "confidence" reply)
  /\ ((forall reply, ~ hosted_reply json_loads client reqs reply) ->
      error_shaped claim_id hosted)
  /\ (forall reply, local_reply json_loads server reqs reply ->
        dict_get "verdict" loc = dict_get "verdict" reply
        /\ dict_get "confidence" loc
           = Some (dict_get_default "confidence" (JFloat (Qmake 1 2)) reply))
  /\ ((forall reply, ~ local_reply json_loads server reqs reply) ->
      error_shaped claim_id loc).
Proof.
  cbv zeta.
  pose proof (attempts_outcome json_loads client Reasoning.MAX_RETRIES None
                (Retriever.bundle_claim_id claim_data) reqs) as Hhosted.
  cbv zeta in Hhosted.
  destruct (call_ollama_cases json_loads server claim_data reqs) as [Hlocal _].
  fold (Reasoning.call_claude_with_retry json_loads client claim_data reqs) in Hhosted.
  split; [split|split; [|split; [|split]]].
  - destruct Hhosted as [(message & ->)|(k & response & reply & _ & _ & _ & _ & ->)];
      [done|apply dict_get_set_eq].
  - destruct Hlocal as [(message & ->)|(body & result & response & reply
                                         & _ & _ & _ & _ & ->)]; [done|].
    rewrite backfill_other by done. apply dict_get_set_eq.
  - intros reply (k & response & Hk & Htrans & Hresp & Hdec).
    unfold Reasoning.call_claude_with_retry.
    rewrite (attempts_responded json_loads client _ k None _ reqs response) by done.
    simpl. unfold Reasoning.read_reply. rewrite Hdec.
    by rewrite !dict_get_set_ne by done.
  - intros Hnone.
    destruct Hhosted as [(message & ->)|(k & response & reply
                                          & Hk & Htrans & Hresp & Hdec & _)];
      [apply error_verdict_shaped|].
    destruct (Hnone reply). by exists k, response.
  - intros reply (body & result & response & Hs & Hb & Hr & Hdec).
    unfold ReasoningLocal.call_ollama. simpl. rewrite Hs. simpl.
    unfold ReasoningLocal.read_body. rewrite Hb, Hr.
    unfold ReasoningLocal.read_reply. rewrite Hdec.
    set (d := dict_set "claim_id" _ reply).
    destruct (backfill_fields d) as (_ & _ & Hconf & _).
    rewrite Hconf, backfill_other by done.
    unfold dict_get_default, d. by rewrite !dict_get_set_ne by done.
  - intros Hnone.
    destruct Hlocal as [(message & ->)|(body & result & response & reply
                                         & Hs & Hb & Hr & Hdec & _)];
      [apply local_error_verdict_shaped|].
    destruct (Hnone reply). by exists body, result, response.
Qed.

(** The reply [{"verdict": "maybe", "confidence": 7}] to the first
    request: the verdict returned has the reply's verdict and
    confidence. *)
Lemma verdict_carries_request_claim_id_witness :
  let client := fun _ : nat => Reasoning.Responded reply_maybe in
  let reply := [("verdict", JStr "maybe"); ("confidence", JInt 7)] in
  let hosted :=
    (Reasoning.call_claude_with_retry Samples.json_loads client sample_evidence []).1 in
  hosted_reply Samples.json_loads client [] reply
  /\ dict_get "verdict" hosted = dict_get "verdict" reply
  /\ dict_get "confidence" hosted = dict_get "confidence" reply.
Proof.
  intros client reply hosted.
  assert (Hreply : hosted_reply Samples.json_loads client [] reply).
  { exists O, reply_maybe. split; [unfold Reasoning.MAX_RETRIES; lia|].
    split; [intros j Hj; lia|]. split; [reflexivity|]. vm_compute. reflexivity. }
  split; [exact Hreply|].
  exact (proj1 (proj2 (verdict_carries_request_claim_id Samples.json_loads client
                         (fun _ => ReasoningLocal.Timeout) sample_evidence []))
           reply Hreply).
Defined.

(** C1, refuted as stated. On the reply
    [{"verdict": "maybe", "confidence": 7}] the hosted agent returns a
    verdict whose verdict field is "maybe" and whose confidence is 7. *)
Lemma verdict_outside_enum_returned :
  let v := (Reasoning.call_claude_with_retry Samples.json_loads
              (fun _ => Reasoning.Responded reply_maybe) sample_evidence []).1 in
  dict_get "verdict" v = Some (JStr "maybe")
  /\ verdict_in_enum v = false
  /\ dict_get "confidence" v = Some (JInt 7)
  /\ confidence_in_unit v = false.
Proof. vm_compute. done. Qed.

(** C7, as the code has it. A reply from the backend ends the call of
    the hosted agent at once, whatever transient failures came before
    it: no further request is sent for the claim. What is returned
    depends on the text of the reply. When it does not decode as JSON,
    it is the error verdict ("undetermined", confidence 0.0, empty span
    lists) with the reasoning "Failed to parse model response: ...",
    which contains "parse". When it decodes to a JSON value that is not
    an object, it is the error verdict with the reasoning "Unexpected
    error: ...", which does not contain "parse". When it decodes to a
    JSON object, whatever fields it has or lacks, it is that object
    with its claim_id set, and no error verdict. *)
Theorem malformed_reply_not_retried
    (json_loads : decoder) (client : nat -> Reasoning.api_outcome)
    (claim_data : Retriever.bundle) (reqs : list string)
    (k : nat) (response : string) :
  (k < Reasoning.MAX_RETRIES)%nat ->
  (forall j, (j < k)%nat -> transient (client (List.length reqs + j)%nat) = true) ->
  client (List.length reqs + k)%nat = Reasoning.Responded response ->
  let claim_id := Retriever.bundle_claim_id claim_data in
  let response_text := Reasoning.strip_fences (PyStr.strip response) in
  let result := Reasoning.call_claude_with_retry json_loads client claim_data reqs in
  result.2 = reqs ++ replicate (S k) claim_id
  /\ (forall message, json_loads response_text = inr message ->
        error_shaped claim_id result.1
        /\ dict_get "reasoning" result.1
           = Some (JStr ("Failed to parse model response: " ++ message))
        /\ PyStr.contains "parse" ("Failed to parse model response: " ++ message)
           = true)
  /\ (forall other, json_loads response_text = inl other ->
        (forall reply, other <> JObj reply) ->
        error_shaped claim_id result.1
        /\ dict_get "reasoning" result.1
           = Some (JStr ("Unexpected error: " ++ setitem_error other))
        /\ PyStr.contains "parse" ("Unexpected error: " ++ setitem_error other)
           = false)
  /\ (forall reply, json_loads response_text = inl (JObj reply) ->
        result.1 = dict_set "claim_id" (JStr claim_id) reply).
Proof.
  intros Hk Htrans Hresp. cbv zeta.
  unfold Reasoning.call_claude_with_retry.
  rewrite (attempts_responded json_loads client _ k None _ reqs response) by done.
  cbn [fst snd]. unfold Reasoning.read_reply.
  split; [done|]. split; [|split].
  - intros message ->. split; [by repeat split|]. split; reflexivity.
  - intros other -> Hother.
    destruct other as [| | | | | | | |reply];
      try (split; [by repeat split|split; reflexivity]).
    by destruct (Hother reply).
  - by intros reply ->.
Qed.

(** A rate-limited first attempt followed by a reply in plain text. *)
Lemma malformed_reply_not_retried_witness :
  let client := fun n : nat =>
    match n with
    | O => Reasoning.RateLimitError "rate_limit_error"
    | _ => Reasoning.Responded reply_text
    end in
  let result :=
    Reasoning.call_claude_with_retry Samples.json_loads client sample_evidence [] in
  result.2 = ["test_001"; "test_001"]
  /\ error_shaped "test_001" result.1
  /\ dict_get "reasoning" result.1
     = Some (JStr ("Failed to parse model response: " ++ expecting_value reply_text))
  /\ PyStr.contains "parse"
       ("Failed to parse model response: " ++ expecting_value reply_text) = true.
Proof.
  intros client result.
  destruct (malformed_reply_not_retried Samples.json_loads client sample_evidence []
              1 reply_text) as (Hsent & Hundecodable & _).
  - unfold Reasoning.MAX_RETRIES. lia.
  - intros j Hj. assert (j = O) as -> by lia. reflexivity.
  - reflexivity.
  - split; [exact Hsent|].
    apply (Hundecodable (expecting_value reply_text)). vm_compute. reflexivity.
Defined.

(** C7, refuted as stated. The replies [42] and [{}] are JSON and not
    the structure asked for. On [42] the hosted agent returns, without
    a retry, an error verdict whose reasoning does not contain "parse";
    on [{}] it returns no error verdict at all, but the object with the
    claim_id and nothing else: no verdict, no confidence. *)
Lemma non_object_reply_reasoning_without_parse :
  let on_number :=
    Reasoning.call_claude_with_retry Samples.json_loads
      (fun _ => Reasoning.Responded reply_number) sample_evidence [] in
  let on_empty_object :=
    Reasoning.call_claude_with_retry Samples.json_loads
      (fun _ => Reasoning.Responded reply_empty_object) sample_evidence [] in
  on_number.2 = ["test_001"]
  /\ dict_get "verdict" on_number.1 = Some (JStr "undetermined")
  /\ dict_get "reasoning" on_number.1
     = Some (JStr "Unexpected error: 'int' object does not support item assignment")
  /\ PyStr.contains "parse"
       "Unexpected error: 'int' object does not support item assignment" = false
  /\ on_empty_object.1 = [("claim_id", JStr "test_001")]
  /\ dict_get "verdict" on_empty_object.1 = None
  /\ dict_get "confidence" on_empty_object.1 = None.
Proof. vm_compute. done. Qed.

(** C8, where the hosted agent falls short of it. On the reply
    [{"verdict": "supported"}] the hosted agent returns the decoded
    object with the claim_id and nothing else: none of the four optional
    fields is filled in. *)
Theorem hosted_reply_not_backfilled :
  let v := (Reasoning.call_claude_with_retry Samples.json_loads
              (fun _ => Reasoning.Responded reply_bare) sample_evidence []).1 in
  v = [("verdict", JStr "supported"); ("claim_id", JStr "test_001")]
  /\ dict_has "supporting_spans" v = false
  /\ dict_has "contradicting_spans" v = false
  /\ dict_has "confidence" v = false
  /\ dict_has "reasoning" v = false.
Proof. vm_compute. done. Qed.

(** The local agent, on any reply that decodes to a JSON object, returns
    it with the four optional fields present: the reply's value where it
    has one, the default otherwise. *)
Lemma local_reply_backfilled
    (json_loads : decoder) (server : nat -> ReasoningLocal.http_outcome)
    (claim_data : Retriever.bundle) (reqs : list string)
    (body response : string) (result reply : dict) :
  server (List.length reqs) = ReasoningLocal.Response 200 body ->
  json_loads body = inl (JObj result) ->
  dict_get_default "response" (JStr EmptyString) result = JStr response ->
  json_loads (ReasoningLocal.extract_fenced (PyStr.strip response)) = inl (JObj reply) ->
  let v := (ReasoningLocal.call_ollama json_loads server claim_data reqs).1 in
  dict_get "verdict" v = dict_get "verdict" reply
  /\ dict_get "supporting_spans" v
     = Some (dict_get_default "supporting_spans" (JArr []) reply)
  /\ dict_get "contradicting_spans" v
     = Some (dict_get_default "contradicting_spans" (JArr []) reply)
  /\ dict_get "confidence" v
     = Some (dict_get_default "confidence" (JFloat (Qmake 1 2)) reply)
  /\ dict_get "reasoning" v
     = Some (dict_get_default "reasoning" (JStr "Local model inference") reply).
Proof.
  intros Hs Hb Hr Hdec. cbv zeta. unfold ReasoningLocal.call_ollama. simpl.
  rewrite Hs. simpl. unfold ReasoningLocal.read_body. rewrite Hb, Hr.
  unfold ReasoningLocal.read_reply. rewrite Hdec.
  set (d := dict_set "claim_id" _ reply).
  destruct (backfill_fields d) as (H1 & H2 & H3 & H4).
  rewrite H1, H2, H3, H4, backfill_other by done.
  unfold dict_get_default, d. by rewrite !dict_get_set_ne by done.
Qed.

(** The local agent makes a single request for a claim, and on a reply
    that does not decode as JSON it returns its error verdict, whose
    reasoning names the parse error. *)
Lemma local_undecodable_reply
    (json_loads : decoder) (server : nat -> ReasoningLocal.http_outcome)
    (claim_data : Retriever.bundle) (reqs : list string)
    (body response message : string) (result : dict) :
  server (List.length reqs) = ReasoningLocal.Response 200 body ->
  json_loads body = inl (JObj result) ->
  dict_get_default "response" (JStr EmptyString) result = JStr response ->
  json_loads (ReasoningLocal.extract_fenced (PyStr.strip response)) = inr message ->
  ReasoningLocal.call_ollama json_loads server claim_data reqs
  = (ReasoningLocal.create_error_verdict (Retriever.bundle_claim_id claim_data)
       ("JSON parse error: " ++ message),
     reqs ++ [Retriever.bundle_claim_id claim_data]).
Proof.
  intros Hs Hb Hr Hdec. unfold ReasoningLocal.call_ollama. rewrite Hs. simpl.
  unfold ReasoningLocal.read_body. rewrite Hb, Hr.
  unfold ReasoningLocal.read_reply. by rewrite Hdec.
Qed.

End VerdictFacts.

(** ** Resumable runs *)

Module ResolverFacts.
Import Json Stage Resolver Shape Samples JsonFacts.
Import ReasoningFacts ReasoningLocalFacts.

Lemma elem_of_remaining_files f files store :
  (f ∈ remaining_files files store) <-> ((stem f ∉ dom store) /\ (f ∈ files)).
Proof. unfold remaining_files. by rewrite list_elem_of_filter. Qed.


Section Loop.
Variable resolve : Retriever.bundle -> list string -> dict * list string.
Variable update_stats : dict -> option string.
Variable report : dict -> option string.
Variable report_every : Z.

(** The requests a call adds are requests for its own claim. *)
Hypothesis resolve_requests : forall claim_data reqs,
  exists sent,
    (resolve claim_data reqs).2
    = reqs ++ replicate sent (Retriever.bundle_claim_id claim_data).

(** The loop leaves alone the verdict of a claim that is not among the
    files it is given, and sends no request for it. *)
Lemma process_keeps files i total w claim_id v :
  verdicts w !! claim_id = Some v ->
  (forall f, f ∈ files -> claim_id_of f <> claim_id) ->
  let after := (process resolve update_stats report report_every files i total w).2 in
  verdicts after !! claim_id = Some v
  /\ exists new, requests after = requests w ++ new /\ claim_id ∉ new.
Proof.
  cbv zeta. revert i w.
  induction files as [|f rest IH]; intros i w Hv Hother; simpl.
  - split; [done|]. exists []. split; [by rewrite app_nil_r|]. apply not_elem_of_nil.
  - assert (Hf : claim_id_of f <> claim_id) by (apply Hother; left).
    destruct (resolve_requests (data f) (requests w)) as [sent Hsent].
    destruct (resolve (data f) (requests w)) as [verdict reqs] eqn:Hres.
    simpl in Hsent. subst reqs.
    assert (Hfresh : claim_id ∉ replicate sent (Retriever.bundle_claim_id (data f))).
    { intros Hin. apply elem_of_replicate in Hin as [Heq _]. by apply Hf. }
    set (w' := mk_world (<[_ := _]> _) _).
    assert (Hrest :
      let after := (process resolve update_stats report report_every rest (i + 1) total w').2 in
      verdicts after !! claim_id = Some v
      /\ exists new, requests after = requests w ++ new /\ claim_id ∉ new).
    { destruct (IH (i + 1) w') as [Hkeep (new & Hnew & Hnot)].
      - unfold w'. simpl. by rewrite lookup_insert_ne.
      - intros g Hg. apply Hother. by right.
      - split; [done|]. exists (replicate sent (Retriever.bundle_claim_id (data f)) ++ new).
        split.
        + rewrite Hnew. unfold w'. simpl. by rewrite app_assoc.
        + intros Hin. apply elem_of_app in Hin as [?|?]; auto. }
    assert (Hstop : forall store,
      store !! claim_id = Some v ->
      verdicts (mk_world store
                  (requests w ++ replicate sent (Retriever.bundle_claim_id (data f))))
        !! claim_id = Some v
      /\ exists new,
           requests (mk_world store
                       (requests w ++ replicate sent (Retriever.bundle_claim_id (data f))))
           = requests w ++ new /\ claim_id ∉ new).
    { intros store Hs. split; [done|]. by eexists. }
    destruct (update_stats verdict); cbn [snd]; [by apply Hstop|].
    destruct (_ || _).
    + destruct (report verdict); cbn [snd]; [|done].
      apply Hstop. by rewrite lookup_insert_ne.
    + done.
Qed.

End Loop.

Lemma claude_requests json_loads client claim_data reqs :
  exists sent,
    (Reasoning.call_claude_with_retry json_loads client claim_data reqs).2
    = reqs ++ replicate sent (Retriever.bundle_claim_id claim_data).
Proof.
  destruct (attempts_cases json_loads client Reasoning.MAX_RETRIES None
              (Retriever.bundle_claim_id claim_data) reqs) as [_ (sent & _ & Hs)].
  by exists sent.
Qed.

Lemma ollama_requests json_loads server claim_data reqs :
  exists sent,
    (ReasoningLocal.call_ollama json_loads server claim_data reqs).2
    = reqs ++ replicate sent (Retriever.bundle_claim_id claim_data).
Proof. by exists 1%nat. Qed.

(** A file that still has to be processed is not a file of a claim whose
    verdict is stored, when the files of that claim are named after it. *)
Lemma remaining_is_other files (store : gmap string dict) claim_id v :
  store !! claim_id = Some v ->
  (forall f, f ∈ files -> claim_id_of f = claim_id -> stem f = claim_id) ->
  forall f, f ∈ remaining_files files store -> claim_id_of f <> claim_id.
Proof.
  intros Hv Hname f Hf Heq.
  apply elem_of_remaining_files in Hf as [Hnot Hin].
  apply Hnot, elem_of_dom. rewrite (Hname f Hin Heq). by eexists.
Qed.

(** A stored verdict survives a run of the hosted agent, and the run
    sends no request for its claim. *)
Lemma hosted_run_keeps json_loads api_key client files w claim_id v :
  verdicts w !! claim_id = Some v ->
  (forall f, f ∈ files -> claim_id_of f = claim_id -> stem f = claim_id) ->
  let after := (Reasoning.main json_loads api_key client files w).2 in
  verdicts after !! claim_id = Some v
  /\ exists new, requests after = requests w ++ new /\ claim_id ∉ new.
Proof.
  intros Hv Hname. cbv zeta. unfold Reasoning.main.
  assert (Hidle : verdicts w !! claim_id = Some v
                  /\ exists new, requests w = requests w ++ new /\ claim_id ∉ new).
  { split; [done|]. exists []. split; [by rewrite app_nil_r|apply not_elem_of_nil]. }
  destruct api_key; simpl; [|done].
  destruct files as [|f0 rest]; [done|].
  pose proof (process_keeps (Reasoning.call_claude_with_retry json_loads client)
                (Reasoning.update_stats) report_error 10
                (claude_requests json_loads client)
                (remaining_files (f0 :: rest) (verdicts w)) 0
                (PyList.len (remaining_files (f0 :: rest) (verdicts w))) w claim_id v Hv
                (remaining_is_other _ _ _ _ Hv Hname)) as Hkeep.
  cbv zeta in Hkeep.
  destruct (process _ _ _ _ _ _ _ _) as [[| |] after]; simpl in *; try done.
  by destruct (bool_decide _).
Qed.

(** The same for the local agent. *)
Lemma local_run_keeps json_loads ollama_ok server files w claim_id v :
  verdicts w !! claim_id = Some v ->
  (forall f, f ∈ files -> claim_id_of f = claim_id -> stem f = claim_id) ->
  let after := (ReasoningLocal.main json_loads ollama_ok server files w).2 in
  verdicts after !! claim_id = Some v
  /\ exists new, requests after = requests w ++ new /\ claim_id ∉ new.
Proof.
  intros Hv Hname. cbv zeta. unfold ReasoningLocal.main.
  assert (Hidle : verdicts w !! claim_id = Some v
                  /\ exists new, requests w = requests w ++ new /\ claim_id ∉ new).
  { split; [done|]. exists []. split; [by rewrite app_nil_r|apply not_elem_of_nil]. }
  destruct ollama_ok; simpl; [|done].
  destruct files as [|f0 rest]; [done|].
  apply (process_keeps (ReasoningLocal.call_ollama json_loads server)
           (ReasoningLocal.update_stats) report_error 5
           (ollama_requests json_loads server)); [done|].
  by apply (remaining_is_other _ _ _ v).
Qed.

End ResolverFacts.

Module RestartFacts.
Import Json Stage Resolver Shape Samples JsonFacts.
Import ReasoningFacts ReasoningLocalFacts ResolverFacts.






End RestartFacts.

(** ** Stability of the sort *)

Module StableSort.

Section Stable.
Context {A K : Type} (before : K -> K -> bool) (key : A -> K) (pos : A -> nat).

Hypothesis before_trans : forall a b c,
  before a b = true -> before b c = true -> before a c = true.
Hypothesis before_cotrans : forall a b c,
  before a c = true -> before a b = true \/ before b c = true.

Local Abbreviation ahead := (Ranking.ahead before key pos).

Lemma insert_ahead (x : A) (l : list A) :
  StronglySorted ahead l ->
  Forall (fun z => (pos x < pos z)%nat) l ->
  StronglySorted ahead (PyList.insert before key x l).
Proof.
  induction 1 as [|y rest Hsorted IH Hy]; intros Hpos; simpl.
  - repeat constructor.
  - inversion_clear Hpos as [|? ? Hxy Hrest].
    destruct (before (key y) (key x)) eqn:Hyx.
    + constructor; [by apply IH|].
      rewrite (PyListFacts.insert_perm before key x rest).
      constructor; [by left|done].
    + constructor; [by constructor|].
      constructor; [by right|].
      rewrite Forall_forall in Hy, Hrest. apply Forall_forall. intros z Hz.
      right. split; [|by apply Hrest].
      destruct (before (key z) (key x)) eqn:Hzx; [|done].
      destruct (before_cotrans _ (key y) _ Hzx) as [Hzy|]; [|congruence].
      destruct (Hy z Hz) as [Hyz|[Hnzy _]]; [|congruence].
      rewrite (before_trans _ _ _ Hyz Hzx) in Hyx. discriminate.
Qed.

(** Sorting a list whose positions increase ranks every entry ahead of
    the entries after it. *)
Lemma sort_ahead (l : list A) :
  StronglySorted (fun a b => (pos a < pos b)%nat) l ->
  StronglySorted ahead (PyList.sort before key l).
Proof.
  induction 1 as [|x rest Hsorted IH Hx]; simpl; [constructor|].
  apply insert_ahead; [done|].
  by rewrite (PyListFacts.sort_perm before key rest).
Qed.

End Stable.

Lemma strongly_sorted_lookup {A} (R : A -> A -> Prop) (l : list A) i j a b :
  StronglySorted R l -> (i < j)%nat -> l !! i = Some a -> l !! j = Some b -> R a b.
Proof.
  intros Hs. revert i j. induction Hs as [|x rest Hs IH Hx]; intros i j Hij Hi Hj.
  - by rewrite lookup_nil in Hi.
  - destruct j as [|j]; [lia|]. destruct i as [|i]; simpl in *.
    + injection Hi as ->. rewrite Forall_forall in Hx.
      by apply Hx, list_elem_of_lookup_2 with j.
    + apply (IH i j); [lia|done|done].
Qed.

End StableSort.

(** ** The evidence retriever *)

Module RetrieverFacts.
Import Retriever Ranking.

Lemma score_lt_iff (x y : Q) : score_lt x y = true <-> Qlt x y.
Proof.
  unfold score_lt. rewrite negb_true_iff, <- not_true_iff_false, Qle_bool_iff.
  split; [apply Qnot_le_lt|apply Qlt_not_le].
Qed.

Lemma score_lt_false_iff (x y : Q) : score_lt x y = false <-> Qle y x.
Proof.
  unfold score_lt. by rewrite negb_false_iff, Qle_bool_iff.
Qed.

Lemma higher_trans (a b c : Q) :
  score_lt b a = true -> score_lt c b = true -> score_lt c a = true.
Proof. rewrite !score_lt_iff. lra. Qed.

Lemma higher_cotrans (a b c : Q) :
  score_lt c a = true -> score_lt b a = true \/ score_lt c b = true.
Proof.
  rewrite !score_lt_iff. intros Hca.
  destruct (Qlt_le_dec b a) as [?|?]; [by left|right; lra].
Qed.

Lemma insert_fmap {A B K} (before : K -> K -> bool) (key : B -> K) (f : A -> B)
    (x : A) (l : list A) :
  PyList.insert before key (f x) (f <$> l)
  = f <$> PyList.insert before (key ∘ f) x l.
Proof.
  induction l as [|y l IH]; csimpl; [done|].
  destruct (before (key (f y)) (key (f x))); csimpl; by rewrite ?IH.
Qed.

(** Sorting commutes with a change of representation that keeps the
    keys. *)
Lemma sort_fmap {A B K} (before : K -> K -> bool) (key : B -> K) (f : A -> B)
    (l : list A) :
  PyList.sort before key (f <$> l) = f <$> PyList.sort before (key ∘ f) l.
Proof.
  induction l as [|x l IH]; csimpl; [done|].
  by rewrite IH, insert_fmap.
Qed.

(** The tagged entries are the entries the loop builds. *)
Lemma candidates_entries book_name_lower metadata hits pos :
  option_map (fun cs : list candidate => entry <$> cs)
    (candidates book_name_lower metadata hits pos)
  = build_results book_name_lower metadata hits.
Proof.
  revert pos. induction hits as [|[sc idx] rest IH]; intros pos; simpl; [done|].
  destruct (idx =? -1); [apply IH|].
  destruct (py_index metadata idx) as [m|]; [|done].
  rewrite <- (IH (S pos)).
  by destruct (candidates book_name_lower metadata rest (S pos)).
Qed.

(** Each tag is the hit the entry was built from, and the tags follow the
    order of the hits. *)
Lemma candidates_tags book_name_lower metadata hits pos cs :
  candidates book_name_lower metadata hits pos = Some cs ->
  StronglySorted (fun a b => (position a < position b)%nat) cs
  /\ Forall (fun c => (pos <= position c)%nat
                      /\ exists idx, hits !! (position c - pos)%nat = Some (raw c, idx)) cs.
Proof.
  revert pos cs. induction hits as [|[sc idx] rest IH]; intros pos cs; simpl.
  - intros [= <-]. split; constructor.
  - assert (Hshift : forall cs',
      Forall (fun c => (S pos <= position c)%nat
                       /\ exists idx', rest !! (position c - S pos)%nat = Some (raw c, idx')) cs' ->
      Forall (fun c => (pos <= position c)%nat
                       /\ exists idx', ((sc, idx) :: rest) !! (position c - pos)%nat
                                       = Some (raw c, idx')) cs').
    { intros cs' Hall. eapply Forall_impl; [exact Hall|].
      simpl. intros c [Hle [idx' Hhit]]. split; [lia|].
      exists idx'. by replace (position c - pos)%nat with (S (position c - S pos)) by lia. }
    destruct (idx =? -1).
    + intros Hcs. destruct (IH _ _ Hcs) as [Hs Hf]. split; [done|]. by apply Hshift.
    + destruct (py_index metadata idx) as [m|]; [|done].
      destruct (candidates book_name_lower metadata rest (S pos)) as [cs'|] eqn:Hcs';
        [|done].
      intros [= <-]. destruct (IH _ _ Hcs') as [Hs Hf]. split.
      * constructor; [done|]. eapply Forall_impl; [exact Hf|].
        simpl. intros c [Hle _]. lia.
      * constructor; [|by apply Hshift].
        simpl. split; [lia|]. exists idx. by rewrite Nat.sub_diag.
Qed.

(** C5. Let the search return its hits in descending order of
    similarity. Then the ranking [retrieve_evidence] returns is the
    ranking of the hits by boosted score, and any two entries of it with
    equal boosted score stand in the order of their similarity before
    the boost, the higher first, and with equal similarity in the order
    in which the search returned them. *)
Theorem boosted_ties_keep_search_order
    (c : claim) (index : faiss_index) (metadata : list meta)
    (cs : list candidate) (i j : nat) (a b : candidate) :
  let hits := search index (query_text c) (TOP_K * 2) in
  descending hits ->
  candidates (normalize_book (book_name c)) metadata hits 0 = Some cs ->
  let ranked := firstn FINAL_K (sort_desc boosted cs) in
  retrieve_evidence c index metadata = Some (entry <$> ranked)
  /\ ((i < j)%nat -> ranked !! i = Some a -> ranked !! j = Some b ->
      Qeq (boosted a) (boosted b) ->
      Qlt (raw b) (raw a)
      \/ (Qeq (raw a) (raw b) /\ (position a < position b)%nat)).
Proof.
  intros hits Hdesc Hcs ranked. split.
  - unfold retrieve_evidence. fold hits.
    rewrite <- candidates_entries with (pos := O), Hcs. simpl.
    unfold ranked, sort_desc. f_equal.
    rewrite (sort_fmap _ score entry cs). by rewrite <- fmap_take.
  - intros Hij Ha Hb Htie.
    destruct (candidates_tags _ _ _ _ _ Hcs) as [Hpos Htags].
    pose proof (StableSort.sort_ahead (fun x y => score_lt y x) boosted position
                  (fun x y z => higher_trans x y z)
                  (fun x y z => higher_cotrans x y z) cs Hpos) as Hsorted.
    unfold ranked in Ha, Hb.
    apply lookup_take_Some in Ha as [Ha _]. apply lookup_take_Some in Hb as [Hb _].
    pose proof (StableSort.strongly_sorted_lookup _ _ i j a b Hsorted Hij Ha Hb)
      as [Hlt|[_ Hord]].
    { apply score_lt_iff in Hlt. lra. }
    assert (Hin : forall x k, sort_desc boosted cs !! k = Some x -> x ∈ cs).
    { intros x k Hx. apply list_elem_of_lookup_2 in Hx.
      unfold sort_desc in Hx. by rewrite PyListFacts.elem_of_sort in Hx. }
    rewrite Forall_forall in Htags.
    destruct (Htags a (Hin a i Ha)) as [_ [ia Hhit_a]].
    destruct (Htags b (Hin b j Hb)) as [_ [ib Hhit_b]].
    rewrite Nat.sub_0_r in Hhit_a, Hhit_b.
    pose proof (Hdesc _ _ _ _ Hord Hhit_a Hhit_b) as Hle. simpl in Hle.
    destruct (Qlt_le_dec (raw b) (raw a)) as [?|?]; [by left|].
    right. split; [lra|done].
Qed.

(** Three hits that all end at the boosted score 0.7: they stay in the
    order of the search, the hit with similarity 0.7 first, then the two
    with similarity 0.5 in the order they were found. *)
Lemma boosted_ties_keep_search_order_witness :
  let a := Samples.sample_candidate 1 (Qmake 1 2)
             (Retriever.mk_meta "The Count of Monte Cristo" 0 0 52
                "He was imprisoned for fourteen years.") true in
  let b := Samples.sample_candidate 2 (Qmake 1 2)
             (Retriever.mk_meta "the_count_of_monte_cristo" 1 40 90
                "The Chateau d'If stood on a rock.") true in
  retrieve_evidence Samples.sample_claim Samples.sample_index Samples.sample_metadata
  = Some (entry <$> Samples.sample_candidates)
  /\ (Qlt (raw b) (raw a) \/ (Qeq (raw a) (raw b) /\ (position a < position b)%nat)).
Proof.
  intros a b.
  assert (Hdesc : descending Samples.sample_hits).
  { intros i j s t Hij Hi Hj.
    destruct i as [|[|[|[|i]]]]; try discriminate Hi;
      destruct j as [|[|[|[|j]]]]; try discriminate Hj; try lia;
      injection Hi as <-; injection Hj as <-; vm_compute; discriminate. }
  assert (Hcs : candidates (normalize_book (book_name Samples.sample_claim))
                  Samples.sample_metadata Samples.sample_hits 0
                = Some Samples.sample_candidates) by (vm_compute; reflexivity).
  destruct (boosted_ties_keep_search_order Samples.sample_claim Samples.sample_index
              Samples.sample_metadata Samples.sample_candidates 1 2 a b Hdesc Hcs)
    as [Hrank Hties].
  split; [exact Hrank|].
  apply Hties; [lia|vm_compute; reflexivity|vm_compute; reflexivity|vm_compute; reflexivity].
Defined.




End RetrieverFacts.

(** ** Python's [str.find] *)

Module PyStrFacts.

Lemma find_aux_found (sub s : string) (pos i : nat) :
  PyStr.find_aux sub s pos = Some i ->
  (pos <= i)%nat
  /\ PyStr.startswith (PyStr.drop (i - pos) s) sub = true
  /\ forall k, (pos <= k < i)%nat ->
       PyStr.startswith (PyStr.drop (k - pos) s) sub = false.
Proof.
  unfold PyStr.startswith.
  revert pos. induction s as [|c s IH]; intros pos; cbn [PyStr.find_aux].
  - destruct (String.prefix sub EmptyString) eqn:Hp; [|done].
    intros [= <-]. rewrite Nat.sub_diag. split; [lia|]. split; [done|]. lia.
  - destruct (String.prefix sub (String c s)) eqn:Hp.
    + intros [= <-]. rewrite Nat.sub_diag. split; [lia|]. split; [done|]. lia.
    + intros Hfind. destruct (IH _ Hfind) as (Hle & Hocc & Hmin).
      split; [lia|]. split.
      * replace (i - pos)%nat with (S (i - S pos)) by lia. done.
      * intros k Hk. destruct (decide (k = pos)) as [->|Hne].
        -- by rewrite Nat.sub_diag.
        -- replace (k - pos)%nat with (S (k - S pos)) by lia. apply Hmin. lia.
Qed.

(** [s.find(sub, start)], when it is not [-1], is the lowest position
    from [start] on at which [sub] occurs in [s]. *)
Lemma find_found (s sub : string) (start : nat) :
  PyStr.find s sub start <> -1 ->
  exists i,
    PyStr.find s sub start = Z.of_nat i
    /\ (start <= i)%nat
    /\ PyStr.startswith (PyStr.drop i s) sub = true
    /\ forall k, (start <= k < i)%nat -> PyStr.startswith (PyStr.drop k s) sub = false.
Proof.
  assert (Hdrop : forall a b t, PyStr.drop a (PyStr.drop b t) = PyStr.drop (b + a) t).
  { intros a b. induction b as [|b IHb]; intros t; [done|].
    destruct t; simpl; [by destruct a|apply IHb]. }
  unfold PyStr.find. destruct (String.length s <? start)%nat; [done|].
  destruct (PyStr.find_aux sub (PyStr.drop start s) start) as [i|] eqn:Hf; [|done].
  intros _. destruct (find_aux_found _ _ _ _ Hf) as (Hle & Hocc & Hmin).
  exists i. split; [done|]. split; [done|]. split.
  - rewrite Hdrop in Hocc. by replace (start + (i - start))%nat with i in Hocc by lia.
  - intros k Hk. specialize (Hmin k Hk). rewrite Hdrop in Hmin.
    by replace (start + (k - start))%nat with k in Hmin by lia.
Qed.


Lemma length_drop (n : nat) (t : string) :
  String.length (PyStr.drop n t) = (String.length t - n)%nat.
Proof.
  revert t. induction n as [|n IH]; intros t; simpl; [lia|].
  destruct t; simpl; [done|apply IH].
Qed.




End PyStrFacts.

(** ** The segmenter *)

Module IngestionFacts.
Import Ingestion Offsets.

Lemma last_char_end_snoc chunks c : last_char_end (chunks ++ [c]) = char_end c.
Proof. unfold last_char_end. by rewrite last_snoc. Qed.


Section Loop.
Context `{Encoding}.

(** The loop only appends chunks, each placed by the rule of
    [located]. *)
Lemma chunk_loop_located fuel source chunk_size overlap chunks cs :
  chunk_loop fuel source (encode source) chunk_size overlap
    (window_start chunk_size overlap (List.length chunks))
    (Z.of_nat (List.length chunks)) chunks = Some cs ->
  all_located source chunk_size overlap chunks ->
  all_located source chunk_size overlap cs.
Proof.
  revert chunks. induction fuel as [|fuel IH]; intros chunks; [done|].
  cbn [chunk_loop].
  destruct (window_start chunk_size overlap (List.length chunks)
            <? PyList.len (encode source)); [|by intros [= <-]].
  set (n := List.length chunks).
  set (token_idx := window_start chunk_size overlap n).
  set (end_idx := Z.min (token_idx + chunk_size) (PyList.len (encode source))).
  set (new := mk_chunk _ _ _ _ _).
  intros Hloop Hall.
  assert (Hnew : all_located source chunk_size overlap (chunks ++ [new])).
  { intros i c Hc. destruct (decide (i < n)%nat) as [Hlt|Hge].
    - rewrite lookup_app_l in Hc by done.
      rewrite take_app_le by (fold n; lia). by apply Hall.
    - rewrite lookup_app_r in Hc by (fold n; lia).
      destruct (i - List.length chunks)%nat as [|k] eqn:Hk; [|by destruct k].
      injection Hc as <-. assert (i = n) as -> by (unfold n; lia).
      rewrite take_app_length' by done.
      unfold located, new, window, overlap_text, search_from. cbn [chunk_idx text
        token_count char_end char_start]. fold token_idx end_idx.
      repeat split.
      destruct n as [|n'] eqn:Hn; [done|].
      replace (Z.of_nat (S n') =? 0) with false by (symmetry; apply Z.eqb_neq; lia).
      done. }
  destruct (end_idx >=? PyList.len (encode source)); [by injection Hloop as <-|].
  apply (IH (chunks ++ [new])); [|done].
  rewrite length_app. cbn [List.length]. fold n.
  replace (window_start chunk_size overlap (n + 1))
    with (token_idx + (chunk_size - overlap))
    by (unfold token_idx, window_start; lia).
  replace (Z.of_nat (n + 1)) with (Z.of_nat n + 1) by lia. done.
Qed.

(** With a positive stride the loop ends before its fuel does. *)
Lemma chunk_loop_ends fuel source tokens chunk_size overlap token_idx idx chunks :
  overlap < chunk_size ->
  (Z.to_nat (PyList.len tokens - token_idx) < fuel)%nat ->
  is_Some (chunk_loop fuel source tokens chunk_size overlap token_idx idx chunks).
Proof.
  intros Hstride. revert token_idx idx chunks.
  induction fuel as [|fuel IH]; intros token_idx idx chunks Hfuel; [lia|].
  cbn [chunk_loop].
  destruct (token_idx <? PyList.len tokens) eqn:Hlt; [|done].
  apply Z.ltb_lt in Hlt.
  destruct (_ >=? _); [done|]. apply IH. lia.
Qed.

End Loop.

(** The segmenter always returns, given an overlap smaller than the
    chunk size. *)
Lemma chunk_text_returns `{Encoding} source chunk_size overlap :
  overlap < chunk_size -> is_Some (chunk_text source chunk_size overlap).
Proof.
  intros Hstride. unfold chunk_text. apply chunk_loop_ends; [done|].
  unfold PyList.len. lia.
Qed.





(** C3, where the code falls short of it. For the same text the six
    chunks end at character 1999 of 2499: no chunk covers any of the last
    500 positions of the text. *)
Theorem repeated_text_left_uncovered :
  @chunk_text word_encoding (words 500) 100 20 = Some Samples.test_chunks
  /\ PyStr.len (words 500) = 2499
  /\ (fun c => (char_start c, char_end c)) <$> Samples.test_chunks
     = [(0, 499); (299, 799); (599, 1099); (899, 1399); (1199, 1699); (1499, 1999)]
  /\ forallb (fun p => negb (covered Samples.test_chunks p)) (seqZ 1999 500) = true.
Proof. vm_compute. done. Qed.

End IngestionFacts.

(** ** Slices *)

Module SliceFacts.

Lemma slice_inside {A} (l : list A) (a b : Z) :
  0 <= a -> a <= b -> b <= PyList.len l ->
  PyList.slice l a b = firstn (Z.to_nat (b - a)) (skipn (Z.to_nat a) l).
Proof.
  intros Ha Hab Hb. unfold PyList.slice, PyList.clamp, PyList.len in *.
  destruct (Z.ltb_spec a 0); [lia|]. destruct (Z.ltb_spec b 0); [lia|].
  by rewrite !Z.min_l by lia.
Qed.

Lemma slice_len {A} (l : list A) (a b : Z) :
  0 <= a -> a <= b -> b <= PyList.len l ->
  PyList.len (PyList.slice l a b) = b - a.
Proof.
  intros Ha Hab Hb. rewrite slice_inside by done.
  unfold PyList.len in *. rewrite length_take, length_drop. lia.
Qed.

Lemma slice_whole {A} (l : list A) : PyList.slice l 0 (PyList.len l) = l.
Proof.
  rewrite slice_inside by (unfold PyList.len; lia).
  unfold PyList.len. simpl. rewrite Z.sub_0_r, Nat2Z.id. apply firstn_all.
Qed.

Lemma slice_lookup {A} (l : list A) (a b : Z) (k : nat) :
  0 <= a -> a + Z.of_nat k < b -> b <= PyList.len l ->
  PyList.slice l a b !! k = l !! (Z.to_nat a + k)%nat.
Proof.
  intros Ha Hk Hb. rewrite slice_inside by lia.
  rewrite lookup_take_lt by lia. apply lookup_drop.
Qed.

End SliceFacts.

(** ** The segmenter: windows of tokens *)

Module SegmenterFacts.
Import Ingestion Offsets.

Section Shape.
Context `{Encoding}.
Variables (source : string) (chunk_size overlap : Z).
Hypothesis overlap_nonneg : 0 <= overlap.
Hypothesis stride_pos : overlap < chunk_size.

Local Abbreviation ws := (window_start chunk_size overlap).
Local Abbreviation total := (PyList.len (encode source)).

Lemma window_start_next (i : nat) : ws (S i) = ws i + (chunk_size - overlap).
Proof. unfold window_start. lia. Qed.

Lemma window_start_nonneg (i : nat) : 0 <= ws i.
Proof. unfold window_start. nia. Qed.

(** Which windows the loop has gone through when it ends: every window
    but the last stops short of the last token, every window starts
    inside the token list, and the last one reaches its end. *)
Lemma chunk_loop_shape fuel chunks cs :
  chunk_loop fuel source (encode source) chunk_size overlap
    (ws (List.length chunks)) (Z.of_nat (List.length chunks)) chunks = Some cs ->
  (forall i, (i < List.length chunks)%nat -> ws i + chunk_size < total) ->
  (forall i, (S i < List.length cs)%nat -> ws i + chunk_size < total)
  /\ (forall i, (i < List.length cs)%nat -> ws i < total)
  /\ (cs = [] -> total = 0)
  /\ (forall i, S i = List.length cs -> total <= ws i + chunk_size).
Proof using overlap_nonneg stride_pos.
  revert chunks. induction fuel as [|fuel IH]; intros chunks; [done|].
  cbn [chunk_loop]. set (n := List.length chunks). intros Hloop Hfull.
  destruct (Z.ltb_spec (ws n) total) as [Hin|Hout].
  - set (new := mk_chunk _ _ _ _ _) in Hloop.
    destruct (Z.min (ws n + chunk_size) total >=? total) eqn:Hbreak.
    + injection Hloop as <-. rewrite length_app. cbn [List.length]. fold n.
      apply Z.geb_le in Hbreak.
      repeat split.
      * intros i Hi. apply Hfull. lia.
      * intros i Hi. destruct (decide (i = n)) as [->|]; [done|].
        specialize (Hfull i ltac:(lia)). lia.
      * by destruct chunks.
      * intros i Hi. assert (i = n) as -> by lia. lia.
    + apply (IH (chunks ++ [new])).
      * rewrite length_app. cbn [List.length]. fold n.
        replace (n + 1)%nat with (S n) by lia. rewrite window_start_next.
        replace (Z.of_nat (S n)) with (Z.of_nat n + 1) by lia. exact Hloop.
      * rewrite length_app. cbn [List.length]. fold n. intros i Hi.
        destruct (decide (i = n)) as [->|]; [|apply Hfull; lia].
        rewrite Z.geb_leb in Hbreak. apply Z.leb_gt in Hbreak. lia.
  - injection Hloop as <-. fold n. repeat split.
    + intros i Hi. apply Hfull. lia.
    + intros i Hi. specialize (Hfull i Hi). lia.
    + intros ->. unfold n, window_start in Hout. simpl in Hout.
      unfold PyList.len in *. lia.
    + intros i Hi. pose proof (window_start_next i) as Hnext.
      replace (S i) with n in Hnext by lia. lia.
Qed.

End Shape.

(** Each chunk and its window, for an overlap that is not negative and
    smaller than the chunk size. *)
Lemma chunk_text_windows `{Encoding}
    (source : string) (chunk_size overlap : Z) (cs : list chunk) :
  0 <= overlap -> overlap < chunk_size ->
  chunk_text source chunk_size overlap = Some cs ->
  (cs = [] -> PyList.len (encode source) = 0)
  /\ forall i c, cs !! i = Some c ->
       let start := window_start chunk_size overlap i in
       let total := PyList.len (encode source) in
       chunk_idx c = Z.of_nat i
       /\ text c = decode (window source chunk_size overlap i)
       /\ 0 <= start < total
       /\ token_count c = Z.min chunk_size (total - start)
       /\ ((S i < List.length cs)%nat -> start + chunk_size < total)
       /\ (S i = List.length cs -> total <= start + chunk_size).
Proof.
  intros Hov Hstride Hcs.
  assert (Hall : all_located source chunk_size overlap cs).
  { apply (IngestionFacts.chunk_loop_located (S (List.length (encode source)))
             source chunk_size overlap []);
      [|by intros i c Hc; rewrite lookup_nil in Hc].
    unfold window_start. cbn [List.length]. rewrite Z.mul_0_l. exact Hcs. }
  destruct (chunk_loop_shape source chunk_size overlap Hov Hstride
              (S (List.length (encode source))) [] cs) as (Hfull & Hin & Hnil & Hlast).
  { unfold window_start. cbn [List.length]. rewrite Z.mul_0_l. exact Hcs. }
  { intros i Hi. simpl in Hi. lia. }
  split; [exact Hnil|].
  intros i c Hc start total.
  destruct (Hall i c Hc) as (Hidx & Htext & Hcount & _ & _).
  pose proof (lookup_lt_Some _ _ _ Hc) as Hlt.
  pose proof (window_start_nonneg chunk_size overlap Hstride i) as Hnn.
  specialize (Hin i Hlt). fold start in Hnn, Hin. fold total in Hin.
  repeat split; try done.
  - rewrite Hcount. unfold window. cbv zeta. fold start total.
    rewrite SliceFacts.slice_len; fold total; lia.
  - intros Hnext. by apply Hfull.
  - intros Heq. by apply Hlast.
Qed.

(** The chunks are numbered from 0 in order; each holds at least one
    token and at most [chunk_size]; every chunk but the last holds
    exactly [chunk_size] tokens, so that the next one, which starts
    [chunk_size - overlap] tokens later, repeats its last [overlap]
    tokens; and the last chunk ends with the last token of the text. *)
Theorem chunk_token_counts `{Encoding}
    (source : string) (chunk_size overlap : Z) (cs : list chunk)
    (i : nat) (c : chunk) :
  0 <= overlap -> overlap < chunk_size ->
  chunk_text source chunk_size overlap = Some cs ->
  cs !! i = Some c ->
  chunk_idx c = Z.of_nat i
  /\ 1 <= token_count c <= chunk_size
  /\ ((S i < List.length cs)%nat -> token_count c = chunk_size)
  /\ (S i = List.length cs ->
      window_start chunk_size overlap i + token_count c = PyList.len (encode source)).
Proof.
  intros Hov Hstride Hcs Hc.
  destruct (chunk_text_windows source chunk_size overlap cs Hov Hstride Hcs) as [_ Hw].
  destruct (Hw i c Hc) as (Hidx & _ & Hin & Hcount & Hfull & Hlast).
  cbv zeta in *. repeat split; try done; lia.
Qed.

Lemma chunk_token_counts_witness :
  let c := mk_chunk 3 4 19 " word word word" 3 in
  @chunk_text word_encoding (words 12) 5 2 = Some Samples.small_chunks
  /\ Samples.small_chunks !! 3%nat = Some c
  /\ chunk_idx c = 3
  /\ 1 <= token_count c <= 5
  /\ ((4 < List.length Samples.small_chunks)%nat -> token_count c = 5)
  /\ (4%nat = List.length Samples.small_chunks ->
      window_start 5 2 3 + token_count c
      = PyList.len (@encode word_encoding (words 12))).
Proof.
  intros c.
  assert (Hcs : @chunk_text word_encoding (words 12) 5 2 = Some Samples.small_chunks)
    by (vm_compute; reflexivity).
  assert (Hc : Samples.small_chunks !! 3%nat = Some c) by reflexivity.
  split; [exact Hcs|]. split; [exact Hc|].
  apply (@chunk_token_counts word_encoding (words 12) 5 2 Samples.small_chunks 3 c);
    [lia|lia|exact Hcs|exact Hc].
Defined.

(** No token is lost: every token of the text is one of the tokens that
    some chunk's text is decoded from. *)
Theorem every_token_in_some_chunk `{Encoding}
    (source : string) (chunk_size overlap : Z) (cs : list chunk) (t : nat) :
  0 <= overlap -> overlap < chunk_size ->
  chunk_text source chunk_size overlap = Some cs ->
  (t < List.length (encode source))%nat ->
  exists i c k,
    cs !! i = Some c
    /\ text c = decode (window source chunk_size overlap i)
    /\ window_start chunk_size overlap i + Z.of_nat k = Z.of_nat t
    /\ Z.of_nat k < token_count c
    /\ window source chunk_size overlap i !! k = encode source !! t.
Proof.
  intros Hov Hstride Hcs Ht.
  destruct (chunk_text_windows source chunk_size overlap cs Hov Hstride Hcs)
    as [Hnil Hw].
  set (stride := chunk_size - overlap).
  set (total := PyList.len (encode source)) in *.
  assert (Htotal : Z.of_nat t < total) by (unfold total, PyList.len; lia).
  destruct cs as [|c0 rest] eqn:Hshape; [specialize (Hnil eq_refl); lia|].
  rewrite <- Hshape in *. clear Hnil.
  set (m := List.length cs).
  assert (Hm : (0 < m)%nat) by (unfold m; rewrite Hshape; simpl; lia).
  set (q := Z.to_nat (Z.of_nat t / stride)).
  assert (Hq : Z.of_nat q * stride <= Z.of_nat t < Z.of_nat q * stride + stride).
  { unfold q. rewrite Z2Nat.id by (apply Z.div_pos; lia).
    pose proof (Z.div_mod (Z.of_nat t) stride ltac:(lia)).
    pose proof (Z.mod_pos_bound (Z.of_nat t) stride ltac:(lia)). lia. }
  set (i := Nat.min q (m - 1)).
  destruct (lookup_lt_is_Some_2 cs i ltac:(unfold i, m; lia)) as [c Hc].
  destruct (Hw i c Hc) as (_ & Htext & Hin & Hcount & Hfull & Hlast).
  cbv zeta in *. fold total in Hin, Hcount, Hfull, Hlast.
  set (start := window_start chunk_size overlap i) in *.
  assert (Hstart : start = Z.of_nat i * stride) by done.
  assert (Hle : start <= Z.of_nat t).
  { rewrite Hstart. unfold i. nia. }
  assert (Hlt : Z.of_nat t < start + token_count c).
  { destruct (decide (q <= m - 1)%nat) as [Hsmall|Hbig].
    - assert (i = q) as Hiq by (unfold i; lia). rewrite Hcount, Hstart, Hiq. lia.
    - assert (S i = m) as Him by (unfold i; lia). specialize (Hlast Him). lia. }
  exists i, c, (Z.to_nat (Z.of_nat t - start)).
  rewrite Z2Nat.id by lia.
  split; [done|]. split; [done|]. split; [lia|]. split; [lia|].
  unfold window. cbv zeta. fold start total.
  rewrite SliceFacts.slice_lookup; fold total; try lia.
  f_equal. lia.
Qed.

Lemma every_token_in_some_chunk_witness :
  exists i c k,
    Samples.small_chunks !! i = Some c
    /\ text c = @decode word_encoding (@window word_encoding (words 12) 5 2 i)
    /\ window_start 5 2 i + Z.of_nat k = Z.of_nat 11
    /\ Z.of_nat k < token_count c
    /\ @window word_encoding (words 12) 5 2 i !! k
       = @encode word_encoding (words 12) !! 11%nat.
Proof.
  apply (@every_token_in_some_chunk word_encoding (words 12) 5 2 Samples.small_chunks 11).
  - lia.
  - lia.
  - vm_compute. reflexivity.
  - vm_compute. lia.
Defined.

(** A text of at most [chunk_size] tokens, and at least one, gives a
    single chunk: it starts at character 0 and its text is all the tokens
    decoded. *)
Theorem short_text_single_chunk `{Encoding}
    (source : string) (chunk_size overlap : Z) :
  0 < PyList.len (encode source) ->
  PyList.len (encode source) <= chunk_size ->
  chunk_text source chunk_size overlap
  = Some [mk_chunk 0 0 (PyStr.len (decode (encode source)))
            (decode (encode source)) (PyList.len (encode source))].
Proof.
  intros Hpos Hshort. unfold chunk_text. cbn [chunk_loop].
  destruct (Z.ltb_spec 0 (PyList.len (encode source))) as [_|]; [|lia].
  replace (Z.min (0 + chunk_size) (PyList.len (encode source)))
    with (PyList.len (encode source)) by lia.
  rewrite SliceFacts.slice_whole. cbn [Z.eqb app].
  destruct (Z.geb_spec (PyList.len (encode source)) (PyList.len (encode source)));
    [done|lia].
Qed.

Lemma short_text_single_chunk_witness :
  @chunk_text word_encoding "This is a short text." 100 10
  = Some [mk_chunk 0 0 21 "This is a short text." 5].
Proof.
  apply (@short_text_single_chunk word_encoding "This is a short text." 100 10).
  - vm_compute. reflexivity.
  - vm_compute. discriminate.
Defined.

(** The loop does not end when the overlap is not smaller than the chunk
    size and the text has more tokens than one chunk holds: whatever the
    number of iterations allowed, it is still running. *)
Theorem no_stride_never_returns `{Encoding}
    (source : string) (chunk_size overlap : Z) (fuel : nat) :
  chunk_size <= overlap ->
  0 < PyList.len (encode source) ->
  chunk_size < PyList.len (encode source) ->
  chunk_loop fuel source (encode source) chunk_size overlap 0 0 [] = None.
Proof.
  intros Hstride Hpos Hlong.
  assert (Hgen : forall token_idx idx chunks, token_idx <= 0 ->
    chunk_loop fuel source (encode source) chunk_size overlap token_idx idx chunks = None).
  { induction fuel as [|fuel' IH]; intros token_idx idx chunks Hidx; [done|].
    cbn [chunk_loop].
    destruct (Z.ltb_spec token_idx (PyList.len (encode source))); [|lia].
    destruct (Z.geb_spec (Z.min (token_idx + chunk_size) (PyList.len (encode source)))
                (PyList.len (encode source))); [lia|].
    apply IH. lia. }
  by apply Hgen.
Qed.

Lemma no_stride_never_returns_witness :
  @chunk_loop word_encoding 1000 (words 12) (@encode word_encoding (words 12)) 5 5 0 0 []
  = None.
Proof.
  apply (@no_stride_never_returns word_encoding (words 12) 5 5 1000).
  - lia.
  - vm_compute. reflexivity.
  - vm_compute. reflexivity.
Defined.

(** Twelve words in chunks of five tokens with an overlap of two: the
    segmenter returns. *)
Lemma chunk_text_returns_witness :
  is_Some (@chunk_text word_encoding (words 12) 5 2).
Proof.
  apply (@IngestionFacts.chunk_text_returns word_encoding (words 12) 5 2). lia.
Defined.

End SegmenterFacts.

(** ** The clean-up of a novel's text *)

Module NovelFacts.
Import Ingestion Novel.

Lemma append_cons (x : ascii) (a b : string) :
  (String x a ++ b)%string = String x (a ++ b)%string.
Proof. reflexivity. Qed.

Lemma append_assoc (a b c : string) : ((a ++ b) ++ c = a ++ (b ++ c))%string.
Proof.
  induction a as [|x a IH]; [done|]. by rewrite !append_cons, IH.
Qed.

Lemma append_nil_r (a : string) : (a ++ EmptyString)%string = a.
Proof.
  induction a as [|x a IH]; [done|]. by rewrite append_cons, IH.
Qed.

Lemma no_space_append (a b : string) :
  no_space (a ++ b)%string = no_space a && no_space b.
Proof.
  induction a as [|x a IH]; [done|].
  rewrite append_cons. simpl. rewrite IH. by rewrite andb_assoc.
Qed.

(** The runs [text.split()] returns are words. *)
Lemma split_ws_go_words (s cur : string) :
  no_space cur = true -> Forall (fun w => is_word w = true) (split_ws_go s cur).
Proof.
  revert cur. induction s as [|c s IH]; intros cur Hcur; simpl.
  - destruct (String.eqb cur EmptyString) eqn:E; constructor; [|done].
    unfold is_word. by rewrite Hcur, E.
  - destruct (PyStr.is_space c) eqn:Hc.
    + apply Forall_app. split; [|by apply IH].
      destruct (String.eqb cur EmptyString) eqn:E; constructor; [|done].
      unfold is_word. by rewrite Hcur, E.
    + apply IH. rewrite no_space_append, Hcur. simpl. by rewrite Hc.
Qed.

Lemma split_ws_go_word (w rest cur : string) :
  no_space w = true ->
  split_ws_go (w ++ rest)%string cur = split_ws_go rest (cur ++ w)%string.
Proof.
  revert cur. induction w as [|c w IH]; intros cur Hw.
  - by rewrite append_nil_r.
  - simpl in Hw. apply andb_prop in Hw as [Hc Hw].
    apply negb_true_iff in Hc. rewrite append_cons. cbn [split_ws_go].
    rewrite Hc, IH by done.
    by rewrite append_assoc.
Qed.

(** Splitting words joined by single spaces gives the words back. *)
Lemma split_ws_join (ws : list string) :
  Forall (fun w => is_word w = true) ws -> split_ws (PyStr.join " " ws) = ws.
Proof.
  unfold split_ws. induction 1 as [|w ws Hw Hws IH]; [done|].
  unfold is_word in Hw. apply andb_prop in Hw as [Hns Hne].
  apply negb_true_iff in Hne.
  destruct ws as [|w' ws'].
  - cbn [PyStr.join]. rewrite <- (append_nil_r w) at 1.
    rewrite split_ws_go_word by done.
    change (EmptyString ++ w)%string with w. cbn [split_ws_go]. by rewrite Hne.
  - change (PyStr.join " " (w :: w' :: ws'))
      with (w ++ String " " (PyStr.join " " (w' :: ws')))%string.
    rewrite split_ws_go_word by done.
    change (EmptyString ++ w)%string with w. cbn [split_ws_go].
    replace (PyStr.is_space " ") with true by done.
    rewrite Hne. cbn [app]. by rewrite IH.
Qed.

(** The cleaned text is a sequence of words separated by single spaces,
    with the words of the raw text in their order; cleaning a cleaned
    text changes nothing. *)
Theorem clean_is_idempotent (raw : string) :
  Forall (fun w => is_word w = true) (split_ws raw)
  /\ clean raw = PyStr.join " " (split_ws raw)
  /\ split_ws (clean raw) = split_ws raw
  /\ clean (clean raw) = clean raw.
Proof.
  assert (Hwords : Forall (fun w => is_word w = true) (split_ws raw))
    by (by apply split_ws_go_words).
  assert (Hsplit : split_ws (clean raw) = split_ws raw)
    by (by apply split_ws_join).
  repeat split; try done. unfold clean at 1. by rewrite Hsplit.
Qed.

Lemma split_ws_go_all_space (s : string) :
  all_space s = true -> split_ws_go s EmptyString = [].
Proof.
  induction s as [|c s IH]; simpl; [done|].
  intros Hs. apply andb_prop in Hs as [Hc Hs]. rewrite Hc. simpl. by apply IH.
Qed.

(** A novel that holds nothing but whitespace is cleaned to the empty
    text and, with an encoding that has no token for the empty text,
    gives no chunk. *)
Theorem blank_novel_gives_no_chunk `{Encoding} (file_stem raw : string) :
  all_space raw = true ->
  encode EmptyString = [] ->
  clean raw = EmptyString /\ process_novel file_stem raw = Some [].
Proof.
  intros Hraw Hempty.
  assert (Hclean : clean raw = EmptyString).
  { unfold clean, split_ws. by rewrite split_ws_go_all_space. }
  split; [done|].
  unfold process_novel, chunk_text. rewrite Hclean, Hempty. done.
Qed.

Lemma blank_novel_gives_no_chunk_witness :
  let raw := String (ascii_of_nat 10) "  " in
  clean raw = EmptyString
  /\ @process_novel word_encoding "blank" raw = Some [].
Proof.
  intros raw.
  apply (@blank_novel_gives_no_chunk word_encoding "blank" raw); reflexivity.
Defined.

End NovelFacts.

(** ** A sort puts the keys in order *)

Module SortedFacts.

Section Sorted.
Context {A K : Type} (before : K -> K -> bool) (key : A -> K).

Hypothesis before_asym : forall a b, before a b = true -> before b a = false.
Hypothesis before_cotrans : forall a b c,
  before a c = true -> before a b = true \/ before b c = true.

Local Abbreviation in_order := (fun x y : A => before (key y) (key x) = false).

Lemma insert_in_order (x : A) (l : list A) :
  StronglySorted in_order l -> StronglySorted in_order (PyList.insert before key x l).
Proof using before_asym before_cotrans.
  induction 1 as [|y rest Hsorted IH Hy]; simpl; [repeat constructor|].
  destruct (before (key y) (key x)) eqn:Hyx.
  - constructor; [done|].
    rewrite (PyListFacts.insert_perm before key x rest).
    constructor; [by apply before_asym|done].
  - constructor; [by constructor|]. constructor; [done|].
    rewrite Forall_forall in Hy. apply Forall_forall. intros z Hz.
    destruct (before (key z) (key x)) eqn:Hzx; [|done].
    destruct (before_cotrans _ (key y) _ Hzx) as [Hzy|?]; [|congruence].
    rewrite (Hy z Hz) in Hzy. discriminate.
Qed.

(** In a sorted list no entry goes strictly before an entry that stands
    ahead of it. *)
Lemma sort_in_order (l : list A) : StronglySorted in_order (PyList.sort before key l).
Proof using before_asym before_cotrans.
  induction l as [|x l IH]; simpl; [constructor|]. by apply insert_in_order.
Qed.

End Sorted.

End SortedFacts.

(** ** The evidence retriever: what it returns *)

Module EvidenceFacts.
Import Retriever Ranking Built.

Lemma higher_asym (a b : Q) : score_lt b a = true -> score_lt a b = false.
Proof.
  rewrite RetrieverFacts.score_lt_iff, RetrieverFacts.score_lt_false_iff. lra.
Qed.

(** The entries are built from the hits that are not padding, one for
    one and in their order. *)
Lemma build_results_built book_name_lower metadata hits results :
  build_results book_name_lower metadata hits = Some results ->
  Forall2 (built_from book_name_lower metadata) (List.filter is_hit hits) results.
Proof.
  revert results. induction hits as [|[sc idx] rest IH]; intros results; simpl.
  - intros [= <-]. constructor.
  - unfold is_hit at 1. simpl. destruct (idx =? -1); simpl; [by apply IH|].
    destruct (py_index metadata idx) as [m|] eqn:Hm; [|done].
    destruct (build_results book_name_lower metadata rest) as [results'|]; [|done].
    intros [= <-]. constructor; [|by apply IH].
    exists m. by repeat split.
Qed.

(** The entries [retrieve_evidence] returns: at most [FINAL_K] of them,
    in descending order of score, taken from the head of a rearrangement
    of all the entries built from the hits that are not padding; an entry
    left out scores no higher than any entry returned. *)
Theorem evidence_capped_and_ordered
    (c : claim) (index : faiss_index) (metadata : list meta) (ev : list evidence) :
  retrieve_evidence c index metadata = Some ev ->
  (List.length ev <= FINAL_K)%nat
  /\ (forall i j a b, (i < j)%nat -> ev !! i = Some a -> ev !! j = Some b ->
        Qle (score b) (score a))
  /\ exists results rest,
       Forall2 (built_from (normalize_book (book_name c)) metadata)
         (List.filter is_hit (search index (query_text c) (TOP_K * 2))) results
       /\ ev ++ rest ≡ₚ results
       /\ forall a b, a ∈ ev -> b ∈ rest -> Qle (score b) (score a).
Proof.
  unfold retrieve_evidence.
  destruct (build_results _ _ _) as [results|] eqn:Hbuild; [|done].
  intros [= <-].
  pose proof (SortedFacts.sort_in_order (fun a b => score_lt b a) score
                (fun a b => higher_asym a b)
                (fun a b c => RetrieverFacts.higher_cotrans a b c) results) as Hsorted.
  fold (sort_desc score results) in Hsorted.
  assert (Hord : forall i j a b, (i < j)%nat ->
            sort_desc score results !! i = Some a ->
            sort_desc score results !! j = Some b -> Qle (score b) (score a)).
  { intros i j a b Hij Ha Hb.
    pose proof (StableSort.strongly_sorted_lookup _ _ i j a b Hsorted Hij Ha Hb) as Hab.
    simpl in Hab. by apply RetrieverFacts.score_lt_false_iff in Hab. }
  split; [rewrite length_take; lia|]. split.
  - intros i j a b Hij Ha Hb.
    apply lookup_take_Some in Ha as [Ha _]. apply lookup_take_Some in Hb as [Hb _].
    by apply (Hord i j).
  - exists results, (skipn FINAL_K (sort_desc score results)).
    split; [by apply build_results_built|]. split.
    + rewrite take_drop. apply PyListFacts.sort_perm.
    + intros a b Ha Hb.
      apply list_elem_of_lookup in Ha as [i Ha]. apply list_elem_of_lookup in Hb as [j Hb].
      apply lookup_take_Some in Ha as [Ha Hi]. rewrite lookup_drop in Hb.
      apply (Hord i (FINAL_K + j)%nat); [lia|done|done].
Qed.

Lemma evidence_capped_and_ordered_witness :
  let ev := entry <$> Samples.sample_candidates in
  (List.length ev <= FINAL_K)%nat
  /\ (forall i j a b, (i < j)%nat -> ev !! i = Some a -> ev !! j = Some b ->
        Qle (score b) (score a))
  /\ exists results rest,
       Forall2 (built_from (normalize_book (book_name Samples.sample_claim))
                  Samples.sample_metadata)
         (List.filter is_hit
            (search Samples.sample_index (query_text Samples.sample_claim) (TOP_K * 2)))
         results
       /\ ev ++ rest ≡ₚ results
       /\ forall a b, a ∈ ev -> b ∈ rest -> Qle (score b) (score a).
Proof.
  intros ev.
  apply (evidence_capped_and_ordered Samples.sample_claim Samples.sample_index
           Samples.sample_metadata ev).
  vm_compute. reflexivity.
Defined.

Lemma prefix_refl (s : string) : String.prefix s s = true.
Proof.
  induction s as [|c s IH]; simpl; [done|]. by destruct (ascii_dec c c).
Qed.

Lemma contains_refl (s : string) : PyStr.contains s s = true.
Proof.
  unfold PyStr.contains. destruct s as [|c s]; [done|].
  cbn [PyStr.find_aux]. by rewrite prefix_refl.
Qed.

Lemma contains_empty (s : string) : PyStr.contains EmptyString s = true.
Proof. by destruct s. Qed.

(** Every returned entry is built from one of the hits. *)
Lemma evidence_built c index metadata ev e :
  retrieve_evidence c index metadata = Some ev -> e ∈ ev ->
  exists h, built_from (normalize_book (book_name c)) metadata h e.
Proof.
  unfold retrieve_evidence.
  destruct (build_results _ _ _) as [results|] eqn:Hbuild; [|done].
  intros [= <-] He.
  apply list_elem_of_lookup in He as [i He].
  apply lookup_take_Some in He as [He _].
  apply list_elem_of_lookup_2 in He. unfold sort_desc in He.
  rewrite PyListFacts.elem_of_sort in He.
  apply list_elem_of_lookup in He as [k He].
  destruct (Forall2_lookup_r _ _ _ _ _ (build_results_built _ _ _ _ Hbuild) He)
    as (h & _ & Hh).
  by exists h.
Qed.

(** An entry is flagged as coming from the claim's book when the two
    book names are the same once letter case, spaces and underscores are
    set aside, and also, whatever its book, when nothing is left of the
    claim's book name after that. *)
Theorem matching_book_name_is_flagged
    (c : claim) (index : faiss_index) (metadata : list meta)
    (ev : list evidence) (e : evidence) :
  retrieve_evidence c index metadata = Some ev ->
  e ∈ ev ->
  normalize_book (book e) = normalize_book (book_name c)
  \/ normalize_book (book_name c) = EmptyString ->
  is_same_book e = true.
Proof.
  intros Hev He Hname.
  destruct (evidence_built c index metadata ev e Hev He)
    as (h & m & _ & _ & Hbook & _ & _ & _ & Hflag & _).
  rewrite Hflag, <- Hbook. destruct Hname as [->| ->].
  - by rewrite contains_refl.
  - by rewrite contains_empty.
Qed.

Lemma matching_book_name_is_flagged_witness :
  is_same_book
    (mk_evidence 1 "the_count_of_monte_cristo" 40 90 "The Chateau d'If stood on a rock."
       (Qplus (Qmake 1 2) (Qmake 1 5)) true) = true.
Proof.
  apply (matching_book_name_is_flagged Samples.sample_claim Samples.sample_index
           Samples.sample_metadata (entry <$> Samples.sample_candidates)).
  - vm_compute. reflexivity.
  - apply list_elem_of_lookup_2 with 2%nat. reflexivity.
  - left. vm_compute. reflexivity.
Defined.

Lemma candidates_boost book_name_lower metadata hits pos cs :
  candidates book_name_lower metadata hits pos = Some cs ->
  Forall (fun x => boosted x
                   = Qplus (raw x)
                       (if is_same_book (entry x) then Qmake 1 5 else Qmake 0 1)) cs.
Proof.
  revert pos cs. induction hits as [|[sc idx] rest IH]; intros pos cs; simpl.
  - intros [= <-]. constructor.
  - destruct (idx =? -1); [apply IH|].
    destruct (py_index metadata idx) as [m|]; [|done].
    destruct (candidates book_name_lower metadata rest (S pos)) as [cs'|] eqn:Hcs';
      [|done].
    intros [= <-]. constructor; [done|]. by apply (IH (S pos)).
Qed.

(** Of two hits with equal similarity of which only one is from the
    claim's book, that one is ranked first. *)
Theorem same_book_ranks_first
    (c : claim) (index : faiss_index) (metadata : list meta)
    (cs : list candidate) (i j : nat) (a b : candidate) :
  candidates (normalize_book (book_name c)) metadata
    (search index (query_text c) (TOP_K * 2)) 0 = Some cs ->
  sort_desc boosted cs !! i = Some a ->
  sort_desc boosted cs !! j = Some b ->
  Qeq (raw a) (raw b) ->
  is_same_book (entry a) = true ->
  is_same_book (entry b) = false ->
  (i < j)%nat.
Proof.
  intros Hcs Ha Hb Hraw Hsame Hother.
  pose proof (candidates_boost _ _ _ _ _ Hcs) as Hboost.
  rewrite Forall_forall in Hboost.
  assert (Hin : forall x k, sort_desc boosted cs !! k = Some x -> x ∈ cs).
  { intros x k Hx. apply list_elem_of_lookup_2 in Hx.
    unfold sort_desc in Hx. by rewrite PyListFacts.elem_of_sort in Hx. }
  pose proof (Hboost a (Hin a i Ha)) as Hba. rewrite Hsame in Hba.
  pose proof (Hboost b (Hin b j Hb)) as Hbb. rewrite Hother in Hbb.
  destruct (decide (i < j)%nat) as [|Hge]; [done|exfalso].
  assert (j < i)%nat as Hji.
  { destruct (decide (i = j)) as [->|]; [|lia].
    rewrite Ha in Hb. injection Hb as ->. congruence. }
  pose proof (SortedFacts.sort_in_order (fun x y => score_lt y x) boosted
                (fun x y => higher_asym x y)
                (fun x y z => RetrieverFacts.higher_cotrans x y z) cs) as Hsorted.
  pose proof (StableSort.strongly_sorted_lookup _ _ j i b a Hsorted Hji Hb Ha) as Hord.
  simpl in Hord. apply RetrieverFacts.score_lt_false_iff in Hord.
  rewrite Hba, Hbb in Hord. unfold Qle, Qeq in *. simpl in *. nia.
Qed.

Lemma same_book_ranks_first_witness : (0 < 1)%nat.
Proof.
  apply (same_book_ranks_first Samples.sample_claim MoreSamples.tie_index
           Samples.sample_metadata [MoreSamples.tie_other; MoreSamples.tie_same]
           0 1 MoreSamples.tie_same MoreSamples.tie_other).
  - vm_compute. reflexivity.
  - vm_compute. reflexivity.
  - vm_compute. reflexivity.
  - reflexivity.
  - reflexivity.
  - reflexivity.
Defined.

Lemma process_claims_writes index metadata claims out out' :
  process_claims index metadata claims out = (Stage.Finished, out') ->
  (forall c, c ∈ claims ->
     exists b, out' !! claim_id c = Some b
               /\ bundle_claim_id b = claim_id c
               /\ retrieve_evidence
                    (mk_claim (bundle_claim_id b) (bundle_book_name b)
                       (bundle_character b) (bundle_claim_text b)) index metadata
                  = Some (bundle_evidence b))
  /\ (forall k, (forall c, c ∈ claims -> claim_id c <> k) -> out' !! k = out !! k)
  /\ (forall k b, out !! k = Some b -> (forall c, c ∈ claims -> claim_id c <> k) \/
        is_Some (out' !! k)).
Proof.
  revert out. induction claims as [|c rest IH]; intros out; simpl.
  - intros [= <-]. split; [intros c Hc; by apply elem_of_nil in Hc|].
    split; [done|]. intros k b Hk. right. by eexists.
  - destruct (retrieve_evidence c index metadata) as [ev|] eqn:Hev; [|done].
    intros Hrest. destruct (IH _ Hrest) as (Hall & Hkeep & _).
    split; [|split].
    + intros c' Hc'. apply elem_of_cons in Hc' as [->|Hin]; [|by apply Hall].
      destruct (decide (Exists (fun c' => claim_id c' = claim_id c) rest)) as [Hex|Hno].
      * apply Exists_exists in Hex as (c'' & Hin & Heq).
        destruct (Hall c'' Hin) as (b & Hb & Hid & Hret). exists b.
        rewrite <- Heq. by repeat split.
      * exists (mk_bundle (claim_id c) (book_name c) (character c) (claim_text c) ev).
        rewrite Hkeep.
        -- rewrite lookup_insert_eq. repeat split. simpl. by destruct c.
        -- intros c'' Hin Heq. apply Hno, Exists_exists. by exists c''.
    + intros k Hk. rewrite Hkeep by (intros c' Hc'; apply Hk; by right).
      apply lookup_insert_ne. apply Hk. by left.
    + intros k b Hk.
      destruct (decide (Exists (fun c' => claim_id c' = k) (c :: rest))) as [Hex|Hno].
      * right. apply Exists_exists in Hex as (c' & Hin & <-).
        apply elem_of_cons in Hin as [->|Hin].
        -- destruct (decide (Exists (fun c' => claim_id c' = claim_id c) rest))
             as [Hex|Hno].
           ++ apply Exists_exists in Hex as (c'' & Hin & Heq).
              destruct (Hall c'' Hin) as (b' & Hb' & _). rewrite <- Heq. by eexists.
           ++ rewrite Hkeep; [rewrite lookup_insert_eq; by eexists|].
              intros c'' Hin Heq. apply Hno, Exists_exists. by exists c''.
        -- destruct (Hall c' Hin) as (b' & Hb' & _). by eexists.
      * left. intros c' Hc' Heq. apply Hno, Exists_exists. by exists c'.
Qed.

(** When the retrieval stage runs to its end, every claim has its
    evidence file, holding the claim's id and the at most [FINAL_K]
    entries retrieved for the claim recorded in it; evidence files of
    other claims are left as they were. *)
Theorem retrieval_writes_every_claim
    (fs : inputs) (out out' : gmap string bundle) :
  main fs out = (Stage.Finished, out') ->
  exists claims index metadata,
    claims_file fs = Some claims
    /\ index_file fs = Some index
    /\ meta_file fs = Some metadata
    /\ (forall c, c ∈ claims ->
         exists b, out' !! claim_id c = Some b
                   /\ bundle_claim_id b = claim_id c
                   /\ (List.length (bundle_evidence b) <= FINAL_K)%nat
                   /\ retrieve_evidence
                        (mk_claim (bundle_claim_id b) (bundle_book_name b)
                           (bundle_character b) (bundle_claim_text b)) index metadata
                      = Some (bundle_evidence b))
    /\ (forall k, (forall c, c ∈ claims -> claim_id c <> k) -> out' !! k = out !! k).
Proof.
  unfold main, load_index_and_metadata.
  destruct (claims_file fs) as [claims|]; [|done].
  destruct (index_file fs) as [index|]; [|done].
  destruct (meta_file fs) as [metadata|]; [|done].
  intros Hrun. destruct (process_claims_writes _ _ _ _ _ Hrun) as (Hall & Hkeep & _).
  exists claims, index, metadata. repeat split; try done.
  intros c Hc. destruct (Hall c Hc) as (b & Hb & Hid & Hret).
  exists b. repeat split; try done.
  unfold retrieve_evidence in Hret. destruct (build_results _ _ _); [|done].
  injection Hret as <-. rewrite length_take. lia.
Qed.

Lemma retrieval_writes_every_claim_witness :
  let fs := mk_inputs (Some [Samples.sample_claim]) (Some Samples.sample_index)
              (Some Samples.sample_metadata) in
  let out' := (main fs ∅).2 in
  exists claims index metadata,
    claims_file fs = Some claims
    /\ index_file fs = Some index
    /\ meta_file fs = Some metadata
    /\ (forall c, c ∈ claims ->
         exists b, out' !! claim_id c = Some b
                   /\ bundle_claim_id b = claim_id c
                   /\ (List.length (bundle_evidence b) <= FINAL_K)%nat
                   /\ retrieve_evidence
                        (mk_claim (bundle_claim_id b) (bundle_book_name b)
                           (bundle_character b) (bundle_claim_text b)) index metadata
                      = Some (bundle_evidence b))
    /\ (forall k, (forall c, c ∈ claims -> claim_id c <> k) ->
         out' !! k = (∅ : gmap string bundle) !! k).
Proof.
  intros fs out'.
  apply (retrieval_writes_every_claim fs ∅ out').
  vm_compute. reflexivity.
Defined.

Lemma build_results_outside book_name_lower metadata hits sc idx :
  (sc, idx) ∈ hits -> PyList.len metadata <= idx ->
  build_results book_name_lower metadata hits = None.
Proof.
  intros Hin Hidx. induction hits as [|[sc' idx'] rest IH]; [by apply elem_of_nil in Hin|].
  simpl. apply elem_of_cons in Hin as [[= <- <-]|Hin].
  - destruct (Z.eqb_spec idx (-1)); [unfold PyList.len in *; lia|].
    unfold py_index. destruct (Z.ltb_spec idx (PyList.len metadata)); [lia|].
    rewrite andb_false_r. destruct (Z.ltb_spec idx 0); [unfold PyList.len in *; lia|].
    by rewrite andb_false_r.
  - rewrite (IH Hin). destruct (idx' =? -1); [done|].
    by destruct (py_index metadata idx').
Qed.

Lemma process_claims_app index metadata pre post out out1 :
  process_claims index metadata pre out = (Stage.Finished, out1) ->
  process_claims index metadata (pre ++ post) out
  = process_claims index metadata post out1.
Proof.
  revert out. induction pre as [|c pre IH]; intros out; simpl.
  - by intros [= <-].
  - destruct (retrieve_evidence c index metadata); [|done]. apply IH.
Qed.

(** A search that returns a position the metadata list does not have
    (an index with more vectors than the metadata has entries) ends the
    stage with an [IndexError] at the first claim it happens for: the
    evidence of the claims before it is written, nothing is written for
    that claim or the claims after it. *)
Theorem position_outside_metadata_stops_stage
    (index : faiss_index) (metadata : list meta) (pre post : list claim)
    (c : claim) (sc : Q) (idx : Z) (out out1 : gmap string bundle) :
  main (mk_inputs (Some pre) (Some index) (Some metadata)) out = (Stage.Finished, out1) ->
  (sc, idx) ∈ search index (query_text c) (TOP_K * 2) ->
  PyList.len metadata <= idx ->
  main (mk_inputs (Some (pre ++ c :: post)) (Some index) (Some metadata)) out
  = (Stage.Raised "IndexError", out1).
Proof.
  unfold main, load_index_and_metadata. simpl. intros Hpre Hhit Hidx.
  rewrite (process_claims_app _ _ _ _ _ _ Hpre). simpl.
  unfold retrieve_evidence. by rewrite (build_results_outside _ _ _ sc idx Hhit Hidx).
Qed.

Lemma position_outside_metadata_stops_stage_witness :
  exists out1,
    main (mk_inputs (Some [Samples.sample_claim]) (Some MoreSamples.stale_index)
            (Some Samples.sample_metadata)) ∅ = (Stage.Finished, out1)
    /\ is_Some (out1 !! "test_001")
    /\ out1 !! "test_002" = None
    /\ main (mk_inputs (Some ([Samples.sample_claim]
                               ++ MoreSamples.second_claim :: [Samples.sample_claim]))
               (Some MoreSamples.stale_index) (Some Samples.sample_metadata)) ∅
       = (Stage.Raised "IndexError", out1).
Proof.
  eexists. split; [vm_compute; reflexivity|].
  split; [vm_compute; eauto|]. split; [vm_compute; reflexivity|].
  apply (position_outside_metadata_stops_stage MoreSamples.stale_index
           Samples.sample_metadata [Samples.sample_claim] [Samples.sample_claim]
           MoreSamples.second_claim (Qmake 9 10) 3 ∅).
  - vm_compute. reflexivity.
  - vm_compute. apply list_elem_of_here.
  - vm_compute. discriminate.
Defined.

End EvidenceFacts.

(** ** The hosted agent: the retry loop *)

Module RetryFacts.
Import Json Stage Resolver Reasoning Shape Outcome.

Section Retry.
Variable json_loads : decoder.
Variable client : nat -> api_outcome.

(** After [k] transient failures the loop stands where it would stand
    with [k] attempts fewer, [k] requests more, and the last failure
    remembered. *)
Lemma attempts_after_transient k n last_error claim_id reqs :
  (k <= n)%nat ->
  (forall j, (j < k)%nat -> transient (client (List.length reqs + j)) = true) ->
  attempts json_loads client n last_error claim_id reqs
  = attempts json_loads client (n - k)
      (last_error_after client (List.length reqs) k last_error) claim_id
      (reqs ++ replicate k claim_id).
Proof.
  revert n last_error reqs.
  induction k as [|k IH]; intros n last_error reqs Hle Htrans.
  - simpl. by rewrite Nat.sub_0_r, app_nil_r.
  - destruct n as [|n]; [lia|].
    assert (Hnext : forall m,
      failure_message (client (List.length reqs)) = m ->
      attempts json_loads client n (Some m) claim_id (reqs ++ [claim_id])
      = attempts json_loads client (S n - S k)
          (last_error_after client (List.length reqs) (S k) last_error) claim_id
          (reqs ++ replicate (S k) claim_id)).
    { intros m Hm. rewrite (IH n (Some m) (reqs ++ [claim_id])).
      - simpl. rewrite <- app_assoc. simpl. f_equal.
        destruct k as [|k']; simpl.
        + by rewrite <- Hm, Nat.add_0_r.
        + rewrite length_app. simpl. do 3 f_equal. lia.
      - lia.
      - intros j Hj. rewrite length_app. simpl.
        replace (List.length reqs + 1 + j)%nat with (List.length reqs + S j)%nat by lia.
        apply Htrans. lia. }
    pose proof (Htrans O ltac:(lia)) as H0. rewrite Nat.add_0_r in H0.
    cbn [attempts].
    destruct (client (List.length reqs)) as [?|m|m|[status|] m|m];
      simpl in H0; try discriminate; try (by apply Hnext).
    rewrite H0. by apply Hnext.
Qed.

(** One call sends at least one request and at most [MAX_RETRIES], all
    of them for its own claim. *)
Lemma attempts_sent n last_error claim_id reqs :
  exists sent, (1 <= sent <= S n)%nat
    /\ (attempts json_loads client (S n) last_error claim_id reqs).2
       = reqs ++ replicate sent claim_id.
Proof.
  revert last_error reqs. induction n as [|n IH]; intros last_error reqs.
  - assert (Hone : exists sent, (1 <= sent <= 1)%nat
                   /\ reqs ++ [claim_id] = reqs ++ replicate sent claim_id)
      by (exists 1%nat; split; [lia|done]).
    cbn [attempts].
    destruct (client (List.length reqs)) as [?|?|?|[status|] ?|?]; simpl; try done.
    by destruct (_ && _).
  - assert (Hone : exists sent, (1 <= sent <= S (S n))%nat
                   /\ reqs ++ [claim_id] = reqs ++ replicate sent claim_id)
      by (exists 1%nat; split; [lia|done]).
    assert (Hmore : forall e, exists sent, (1 <= sent <= S (S n))%nat
      /\ (attempts json_loads client (S n) e claim_id (reqs ++ [claim_id])).2
         = reqs ++ replicate sent claim_id).
    { intros e. destruct (IH e (reqs ++ [claim_id])) as (sent & Hb & Hs).
      exists (S sent). split; [lia|]. rewrite Hs. by rewrite <- app_assoc. }
    remember (S n) as m eqn:Hm. cbn [attempts].
    destruct (client (List.length reqs)) as [?|?|?|[status|] ?|?]; try done.
    destruct (_ && _); done.
Qed.

End Retry.

(** Every call of the hosted agent sends at least one request and at
    most [MAX_RETRIES] requests to the backend, all for the claim it is
    called with. *)
Theorem call_sends_one_to_five_requests
    (json_loads : decoder) (client : nat -> api_outcome)
    (claim_data : Retriever.bundle) (reqs : list string) :
  exists sent,
    (1 <= sent <= MAX_RETRIES)%nat
    /\ (call_claude_with_retry json_loads client claim_data reqs).2
       = reqs ++ replicate sent (Retriever.bundle_claim_id claim_data).
Proof. apply attempts_sent. Qed.

(** When every attempt fails with a transient error, the call gives up
    after [MAX_RETRIES] requests and returns the error verdict whose
    reasoning names the retries and the last error. *)
Theorem retries_exhausted
    (json_loads : decoder) (client : nat -> api_outcome)
    (claim_data : Retriever.bundle) (reqs : list string) :
  (forall j, (j < MAX_RETRIES)%nat ->
     transient (client (List.length reqs + j)%nat) = true) ->
  let claim_id := Retriever.bundle_claim_id claim_data in
  let reasoning :=
    ("Max retries exceeded: "
     ++ failure_message (client (List.length reqs + (MAX_RETRIES - 1))%nat))%string in
  call_claude_with_retry json_loads client claim_data reqs
  = (create_error_verdict claim_id reasoning, reqs ++ replicate MAX_RETRIES claim_id)
  /\ PyStr.contains "retries" (PyStr.lower reasoning) = true.
Proof.
  intros Htrans. cbv zeta. unfold call_claude_with_retry.
  rewrite (attempts_after_transient json_loads client MAX_RETRIES MAX_RETRIES)
    by done.
  split; [by rewrite Nat.sub_diag|reflexivity].
Qed.

Lemma retries_exhausted_witness :
  let client := fun _ : nat => RateLimitError "rate_limit_error" in
  Reasoning.call_claude_with_retry Samples.json_loads client Samples.sample_evidence []
  = (create_error_verdict "test_001" "Max retries exceeded: rate_limit_error",
     replicate 5 "test_001")
  /\ PyStr.contains "retries"
       (PyStr.lower "Max retries exceeded: rate_limit_error") = true.
Proof.
  intros client.
  apply (retries_exhausted Samples.json_loads client Samples.sample_evidence []).
  intros j _. reflexivity.
Defined.

(** A reply that decodes to a JSON object ends the call, after whatever
    transient failures came before it: the call returns the object with
    its claim_id overwritten and has sent one request per attempt. *)
Theorem reply_after_transient_failures
    (json_loads : decoder) (client : nat -> api_outcome)
    (claim_data : Retriever.bundle) (reqs : list string)
    (k : nat) (response : string) (reply : dict) :
  (k < MAX_RETRIES)%nat ->
  (forall j, (j < k)%nat -> transient (client (List.length reqs + j)%nat) = true) ->
  client (List.length reqs + k)%nat = Responded response ->
  json_loads (strip_fences (PyStr.strip response)) = inl (JObj reply) ->
  let claim_id := Retriever.bundle_claim_id claim_data in
  call_claude_with_retry json_loads client claim_data reqs
  = (dict_set "claim_id" (JStr claim_id) reply, reqs ++ replicate (S k) claim_id).
Proof.
  intros Hk Htrans Hresp Hdec. cbv zeta. unfold call_claude_with_retry.
  rewrite (attempts_after_transient json_loads client k MAX_RETRIES) by (done || lia).
  destruct (MAX_RETRIES - k)%nat as [|n] eqn:Hn; [lia|].
  cbn [attempts]. rewrite length_app, length_replicate, Hresp.
  unfold read_reply. rewrite Hdec. f_equal.
  rewrite <- app_assoc. f_equal. by rewrite <- replicate_S_end.
Qed.

Lemma reply_after_transient_failures_witness :
  let client := fun n : nat =>
    match n with
    | O => APIError (Some 503) "overloaded"
    | _ => Responded Samples.reply_bare
    end in
  Reasoning.call_claude_with_retry Samples.json_loads client Samples.sample_evidence []
  = ([("verdict", JStr "supported"); ("claim_id", JStr "test_001")],
     ["test_001"; "test_001"]).
Proof.
  intros client.
  apply (reply_after_transient_failures Samples.json_loads client Samples.sample_evidence
           [] 1 Samples.reply_bare [("verdict", JStr "supported")]).
  - unfold MAX_RETRIES. lia.
  - intros j Hj. assert (j = O) as -> by lia. reflexivity.
  - reflexivity.
  - vm_compute. reflexivity.
Defined.

(** An API error that is not a server error, or any other exception,
    ends the call at once with an error verdict; no further attempt is
    made. *)
Theorem fatal_error_not_retried
    (json_loads : decoder) (client : nat -> api_outcome)
    (claim_data : Retriever.bundle) (reqs : list string)
    (k : nat) (reasoning : string) :
  (k < MAX_RETRIES)%nat ->
  (forall j, (j < k)%nat -> transient (client (List.length reqs + j)%nat) = true) ->
  fatal_reasoning (client (List.length reqs + k)%nat) = Some reasoning ->
  let claim_id := Retriever.bundle_claim_id claim_data in
  call_claude_with_retry json_loads client claim_data reqs
  = (create_error_verdict claim_id reasoning, reqs ++ replicate (S k) claim_id).
Proof.
  intros Hk Htrans Hfatal. cbv zeta. unfold call_claude_with_retry.
  rewrite (attempts_after_transient json_loads client k MAX_RETRIES) by (done || lia).
  destruct (MAX_RETRIES - k)%nat as [|n] eqn:Hn; [lia|].
  cbn [attempts]. rewrite length_app, length_replicate.
  assert (Hreqs : (reqs ++ replicate k (Retriever.bundle_claim_id claim_data))
                  ++ [Retriever.bundle_claim_id claim_data]
                  = reqs ++ replicate (S k) (Retriever.bundle_claim_id claim_data)).
  { rewrite <- app_assoc. f_equal. by rewrite <- replicate_S_end. }
  rewrite Hreqs.
  destruct (client (List.length reqs + k)%nat) as [?|?|?|[status|] m|m];
    simpl in Hfatal; try discriminate.
  - destruct ((500 <=? status) && (status <? 600)); [discriminate|].
    by injection Hfatal as <-.
  - by injection Hfatal as <-.
  - by injection Hfatal as <-.
Qed.

Lemma fatal_error_not_retried_witness :
  let client := fun _ : nat => APIError (Some 400) "invalid_request_error" in
  Reasoning.call_claude_with_retry Samples.json_loads client Samples.sample_evidence []
  = (create_error_verdict "test_001" "API error: invalid_request_error", ["test_001"]).
Proof.
  intros client.
  apply (fatal_error_not_retried Samples.json_loads client Samples.sample_evidence []
           0 "API error: invalid_request_error").
  - unfold MAX_RETRIES. lia.
  - intros j Hj. lia.
  - reflexivity.
Defined.

End RetryFacts.

(** ** The loop over the remaining evidence files *)

Module LoopFacts.
Import Json Stage Resolver.

Section Loop.
Variable resolve : Retriever.bundle -> list string -> dict * list string.
Variable update_stats : dict -> option string.
Variable report : dict -> option string.
Variable report_every : Z.

Local Abbreviation run := (process resolve update_stats report report_every).

(** The loop removes no verdict file. *)
Lemma process_dom files i total w :
  dom (verdicts w) ⊆ dom (verdicts (run files i total w).2).
Proof.
  revert i w. induction files as [|f rest IH]; intros i w; simpl; [done|].
  destruct (resolve (data f) (requests w)) as [verdict reqs].
  destruct (update_stats verdict); [done|].
  set (w' := mk_world (<[_ := _]> _) _).
  assert (Hw' : dom (verdicts w) ⊆ dom (verdicts w')).
  { unfold w'. cbn [verdicts]. rewrite dom_insert. set_solver. }
  destruct (_ || _); [destruct (report verdict); [done|]|];
    (etrans; [exact Hw'|apply IH]).
Qed.

(** A loop that comes to its end has stored a verdict for each of its
    files. *)
Lemma process_finished_covers files i total w w' :
  run files i total w = (Finished, w') ->
  forall f, f ∈ files -> is_Some (verdicts w' !! claim_id_of f).
Proof.
  revert i w. induction files as [|f rest IH]; intros i w Hrun g Hg.
  - by apply elem_of_nil in Hg.
  - simpl in Hrun.
    destruct (resolve (data f) (requests w)) as [verdict reqs].
    destruct (update_stats verdict); [done|].
    set (w1 := mk_world (<[_ := _]> _) _) in Hrun.
    assert (Hnext : run rest (i + 1) total w1 = (Finished, w')).
    { destruct (_ || _); [destruct (report verdict); [done|]|]; done. }
    apply elem_of_cons in Hg as [->|Hg]; [|by eapply IH].
    apply elem_of_dom.
    pose proof (process_dom rest (i + 1) total w1) as Hdom.
    rewrite Hnext in Hdom. apply Hdom. unfold w1. cbn [verdicts snd].
    rewrite dom_insert. unfold claim_id_of. set_solver.
Qed.

(** A verdict file found after the loop was there before it, or holds
    what the call returned for one of the files, and the statistics
    update went through on it. *)
Lemma process_stored files i total w k v :
  verdicts (run files i total w).2 !! k = Some v ->
  verdicts w !! k = Some v
  \/ exists f reqs, f ∈ files /\ k = claim_id_of f
       /\ v = (resolve (data f) reqs).1 /\ update_stats v = None.
Proof.
  revert i w. induction files as [|f rest IH]; intros i w; simpl; [by left|].
  destruct (resolve (data f) (requests w)) as [verdict reqs] eqn:Hres.
  destruct (update_stats verdict) eqn:Hstats; [by left|].
  set (w1 := mk_world (<[_ := _]> _) _).
  assert (Hw1 : verdicts w1 !! k = Some v ->
    verdicts w !! k = Some v
    \/ exists f0 reqs0, f0 ∈ f :: rest /\ k = claim_id_of f0
         /\ v = (resolve (data f0) reqs0).1 /\ update_stats v = None).
  { unfold w1. cbn [verdicts].
    destruct (decide (Retriever.bundle_claim_id (data f) = k)) as [Hk|Hk].
    - rewrite Hk, lookup_insert_eq. intros [= <-]. right.
      exists f, (requests w). rewrite Hres. repeat split; try done. left.
    - rewrite lookup_insert_ne by done. by left. }
  assert (Hrest : verdicts (run rest (i + 1) total w1).2 !! k = Some v ->
    verdicts w !! k = Some v
    \/ exists f0 reqs0, f0 ∈ f :: rest /\ k = claim_id_of f0
         /\ v = (resolve (data f0) reqs0).1 /\ update_stats v = None).
  { intros Hv. destruct (IH _ _ Hv) as [Hold|(f0 & reqs0 & Hin & Hrest)].
    - by apply Hw1.
    - right. exists f0, reqs0. split; [by right|done]. }
  destruct (_ || _); [destruct (report verdict); [exact Hw1|]|]; exact Hrest.
Qed.

(** When each call sends one request, the loop has sent one request for
    each file it came to, in the order of the files, and for all of
    them when it comes to its end. *)
Lemma process_requests_single files i total w :
  (forall claim_data reqs,
     (resolve claim_data reqs).2 = reqs ++ [Retriever.bundle_claim_id claim_data]) ->
  exists n, (n <= List.length files)%nat
    /\ requests (run files i total w).2
       = requests w ++ take n (claim_id_of <$> files)
    /\ ((run files i total w).1 = Finished -> n = List.length files).
Proof.
  intros Hone. revert i w.
  induction files as [|f rest IH]; intros i w; simpl.
  - exists O. by rewrite app_nil_r.
  - pose proof (Hone (data f) (requests w)) as Hsent.
    destruct (resolve (data f) (requests w)) as [verdict reqs]. simpl in Hsent.
    assert (Hhere : forall w1 exc, requests w1 = reqs ->
      exists n, (n <= S (List.length rest))%nat
        /\ requests w1 = requests w ++ take n (claim_id_of f :: (claim_id_of <$> rest))
        /\ (Raised exc = Finished -> n = S (List.length rest))).
    { intros w1 exc Hw1. exists 1%nat. rewrite Hw1, Hsent. repeat split; [lia|done]. }
    destruct (update_stats verdict); [by apply Hhere|].
    set (w1 := mk_world (<[_ := _]> _) _).
    assert (Hrest : exists n, (n <= S (List.length rest))%nat
      /\ requests (run rest (i + 1) total w1).2
         = requests w ++ take n (claim_id_of f :: (claim_id_of <$> rest))
      /\ ((run rest (i + 1) total w1).1 = Finished -> n = S (List.length rest))).
    { destruct (IH (i + 1) w1) as (n & Hn & Hreqs & Hfin).
      exists (S n). split; [lia|]. split; [|intros ?; f_equal; by apply Hfin].
      rewrite Hreqs. unfold w1. cbn [requests take]. rewrite Hsent.
      by rewrite <- app_assoc. }
    destruct (_ || _); [destruct (report verdict); [by apply Hhere|]|]; exact Hrest.
Qed.

End Loop.

(** The files still to be processed after the run of an agent, when the
    run has stored a verdict for each file that was to be processed. *)
Lemma nothing_remains files (w w' : world) :
  (forall f, f ∈ files -> stem f = claim_id_of f) ->
  dom (verdicts w) ⊆ dom (verdicts w') ->
  (forall f, f ∈ remaining_files files (verdicts w) ->
     is_Some (verdicts w' !! claim_id_of f)) ->
  (forall f, f ∈ files -> is_Some (verdicts w' !! claim_id_of f))
  /\ remaining_files files (verdicts w') = [].
Proof.
  intros Hname Hdom Hcov.
  assert (Hall : forall f, f ∈ files -> is_Some (verdicts w' !! claim_id_of f)).
  { intros f Hf. destruct (decide (stem f ∈ dom (verdicts w))) as [Hin|Hnot].
    - apply elem_of_dom, Hdom. by rewrite <- (Hname f Hf).
    - apply Hcov. unfold remaining_files. rewrite list_elem_of_filter. done. }
  split; [done|].
  apply elem_of_nil_inv. intros f Hf.
  unfold remaining_files in Hf. rewrite list_elem_of_filter in Hf.
  destruct Hf as [Hnot Hin]. apply Hnot, elem_of_dom.
  rewrite (Hname f Hin). by apply Hall.
Qed.

(** A run of either agent that comes to its end leaves a verdict file
    for every evidence file, when the evidence files are named after
    their claims; no file remains for the next run. *)
Theorem finished_run_leaves_nothing_to_do
    (json_loads : decoder) (api_key ollama_ok : bool)
    (client : nat -> Reasoning.api_outcome)
    (server : nat -> ReasoningLocal.http_outcome)
    (files : list evidence_file) (w w' : world) :
  (forall f, f ∈ files -> stem f = claim_id_of f) ->
  Reasoning.main json_loads api_key client files w = (Finished, w')
  \/ ReasoningLocal.main json_loads ollama_ok server files w = (Finished, w') ->
  (forall f, f ∈ files -> is_Some (verdicts w' !! claim_id_of f))
  /\ remaining_files files (verdicts w') = [].
Proof.
  intros Hname [Hrun|Hrun].
  - unfold Reasoning.main in Hrun.
    destruct api_key; [|done]. simpl in Hrun.
    destruct files as [|f0 rest]; [done|].
    set (files := f0 :: rest) in *.
    destruct (process _ _ _ _ (remaining_files files (verdicts w)) _ _ w)
      as [e w1] eqn:Hloop.
    destruct e; try done.
    assert (w1 = w') as ->.
    { destruct (bool_decide _); [by injection Hrun|done]. }
    apply (nothing_remains files w w' Hname).
    + pose proof (process_dom (Reasoning.call_claude_with_retry json_loads client)
                    (Reasoning.update_stats) report_error 10
                    (remaining_files files (verdicts w)) 0
                    (PyList.len (remaining_files files (verdicts w))) w) as Hdom.
      by rewrite Hloop in Hdom.
    + by eapply process_finished_covers.
  - unfold ReasoningLocal.main in Hrun.
    destruct ollama_ok; [|done]. simpl in Hrun.
    destruct files as [|f0 rest]; [done|].
    set (files := f0 :: rest) in *.
    apply (nothing_remains files w w' Hname).
    + pose proof (process_dom (ReasoningLocal.call_ollama json_loads server)
                    (ReasoningLocal.update_stats) report_error 5
                    (remaining_files files (verdicts w)) 0
                    (PyList.len (remaining_files files (verdicts w))) w) as Hdom.
      by rewrite Hrun in Hdom.
    + by eapply process_finished_covers.
Qed.

Lemma finished_run_leaves_nothing_to_do_witness :
  let w' := (Reasoning.main Samples.json_loads true
               (fun _ => Reasoning.Responded Samples.reply_bare)
               RunSamples.two_files (mk_world ∅ [])).2 in
  (forall f, f ∈ RunSamples.two_files -> is_Some (verdicts w' !! claim_id_of f))
  /\ remaining_files RunSamples.two_files (verdicts w') = [].
Proof.
  intros w'.
  apply (finished_run_leaves_nothing_to_do Samples.json_loads true true
           (fun _ => Reasoning.Responded Samples.reply_bare)
           (fun _ => ReasoningLocal.Timeout)
           RunSamples.two_files (mk_world ∅ []) w').
  - intros f Hf. unfold RunSamples.two_files in Hf.
    apply elem_of_cons in Hf as [->|Hf]; [reflexivity|].
    apply list_elem_of_singleton in Hf as ->. reflexivity.
  - left. vm_compute. reflexivity.
Defined.

(** The local agent writes no verdict file whose verdict field is set to
    anything but one of the three values: a verdict file found after a
    run was there before it, or has no verdict field, or has one of the
    three values in it. *)
Theorem local_run_stores_no_other_verdict
    (json_loads : decoder) (ollama_ok : bool)
    (server : nat -> ReasoningLocal.http_outcome)
    (files : list evidence_file) (w : world) (claim_id : string) (v : dict) :
  verdicts (ReasoningLocal.main json_loads ollama_ok server files w).2 !! claim_id
  = Some v ->
  verdicts w !! claim_id = Some v
  \/ dict_get "verdict" v = None
  \/ Shape.verdict_in_enum v = true.
Proof.
  unfold ReasoningLocal.main.
  destruct ollama_ok; simpl; [|by left].
  destruct files as [|f0 rest]; [by left|].
  intros Hv. apply process_stored in Hv as [Hold|(f & reqs & _ & _ & _ & Hstats)];
    [by left|right].
  unfold ReasoningLocal.update_stats, dict_get_default in Hstats.
  unfold Shape.verdict_in_enum.
  destruct (dict_get "verdict" v) as [j|]; [|by left].
  right. simpl in Hstats. destruct j; try done. by destruct (_ || _).
Qed.

Lemma local_run_stores_no_other_verdict_witness :
  let w := mk_world ∅ [] in
  let v := ReasoningLocal.backfill
             [("verdict", JStr "supported"); ("claim_id", JStr "test_001")] in
  verdicts w !! "test_001" = Some v
  \/ dict_get "verdict" v = None
  \/ Shape.verdict_in_enum v = true.
Proof.
  intros w v.
  apply (local_run_stores_no_other_verdict Samples.json_loads true
           (fun _ => ReasoningLocal.Response 200 RunSamples.body_bare)
           [mk_file "test_001" Samples.sample_evidence] w "test_001" v).
  vm_compute. reflexivity.
Defined.

(** The local agent never repeats a request: a run sends one request
    for each remaining file it comes to, in the order of the listing,
    and for every remaining file when it comes to its end. *)
Theorem local_run_one_request_per_file
    (json_loads : decoder) (ollama_ok : bool)
    (server : nat -> ReasoningLocal.http_outcome)
    (files : list evidence_file) (w : world) :
  let remaining := remaining_files files (verdicts w) in
  let run := ReasoningLocal.main json_loads ollama_ok server files w in
  exists n, (n <= List.length remaining)%nat
    /\ requests run.2 = requests w ++ take n (claim_id_of <$> remaining)
    /\ (run.1 = Finished -> n = List.length remaining).
Proof.
  cbv zeta. unfold ReasoningLocal.main.
  destruct ollama_ok; simpl;
    [|exists O; simpl; rewrite app_nil_r; repeat split; [lia|done]].
  destruct files as [|f0 rest].
  - exists O. simpl. by rewrite app_nil_r.
  - destruct (process_requests_single
                (ReasoningLocal.call_ollama json_loads server)
                ReasoningLocal.update_stats report_error 5
                (remaining_files (f0 :: rest) (verdicts w)) 0
                (PyList.len (remaining_files (f0 :: rest) (verdicts w))) w)
      as (n & Hn & Hreqs & Hfin); [done|].
    by exists n.
Qed.

End LoopFacts.

(** ** The hosted agent: replies without a verdict field *)

Module HostedRunFacts.
Import Json Stage Resolver Reasoning.

(** A reply of the hosted backend that decodes to an object without a
    verdict field, and whose reasoning mentions neither an error nor
    retries, ends the run with a KeyError in the statistics update: the
    request is spent and no verdict file is written. *)
Theorem reply_without_verdict_stops_run
    (json_loads : decoder) (client : nat -> api_outcome)
    (files rest : list evidence_file) (f : evidence_file) (w : world)
    (response reasoning : string) (reply : dict) :
  remaining_files files (verdicts w) = f :: rest ->
  client (List.length (requests w)) = Responded response ->
  json_loads (strip_fences (PyStr.strip response)) = inl (JObj reply) ->
  dict_get "verdict" reply = None ->
  dict_get_default "reasoning" (JStr EmptyString) reply = JStr reasoning ->
  PyStr.contains "error" (PyStr.lower reasoning) = false ->
  PyStr.contains "retries" (PyStr.lower reasoning) = false ->
  main json_loads true client files w
  = (Raised "KeyError", mk_world (verdicts w) (requests w ++ [claim_id_of f])).
Proof.
  intros Hrem Hresp Hdec Hverdict Hreasoning Herror Hretries.
  unfold main. simpl.
  destruct files as [|f0 files']; [done|].
  rewrite Hrem. cbn [process].
  unfold call_claude_with_retry, MAX_RETRIES. cbn [attempts].
  rewrite Hresp. unfold read_reply. rewrite Hdec.
  unfold update_stats, dict_get_default in *.
  rewrite !JsonFacts.dict_get_set_ne by done.
  rewrite Hreasoning, Herror, Hretries, Hverdict. reflexivity.
Qed.

Lemma reply_without_verdict_stops_run_witness :
  main Samples.json_loads true (fun _ => Responded RunSamples.reply_no_verdict)
       RunSamples.two_files (mk_world ∅ [])
  = (Raised "KeyError", mk_world ∅ ["test_001"]).
Proof.
  apply (reply_without_verdict_stops_run Samples.json_loads
           (fun _ => Responded RunSamples.reply_no_verdict)
           RunSamples.two_files
           [mk_file "test_002" RunSamples.second_evidence]
           (mk_file "test_001" Samples.sample_evidence)
           (mk_world ∅ []) RunSamples.reply_no_verdict EmptyString
           [("confidence", JInt 7)]);
    vm_compute; reflexivity.
Defined.

(** A verdict file without a verdict field keeps every later run of the
    hosted agent from coming to its end: the file is not written again,
    and the summary over the verdict files raises. *)
Theorem verdict_file_without_verdict_breaks_later_runs
    (json_loads : decoder) (api_key : bool) (client : nat -> api_outcome)
    (files : list evidence_file) (w : world) (claim_id : string) (v : dict) :
  verdicts w !! claim_id = Some v ->
  dict_has "verdict" v = false ->
  (forall f, f ∈ files -> claim_id_of f = claim_id -> stem f = claim_id) ->
  (main json_loads api_key client files w).1 <> Finished.
Proof.
  intros Hv Hno Hname Hfin.
  destruct (ResolverFacts.hosted_run_keeps json_loads api_key client files w
              claim_id v Hv Hname) as [Hkeep _].
  unfold main in *.
  destruct api_key; simpl in *; [|done].
  destruct files as [|f0 rest]; [done|].
  destruct (process _ _ _ _ _ _ _ _) as [[| |] w1]; simpl in *; try done.
  case_bool_decide as Hall; [|done]. simpl in *.
  specialize (Hall claim_id v Hkeep). simpl in Hall. congruence.
Qed.

Lemma verdict_file_without_verdict_breaks_later_runs_witness :
  (main Samples.json_loads true (fun _ => Responded Samples.reply_bare)
        RunSamples.two_files
        (mk_world {[ "test_001" := [("claim_id", JStr "test_001")] ]} [])).1
  <> Finished.
Proof.
  apply (verdict_file_without_verdict_breaks_later_runs Samples.json_loads true
           (fun _ => Responded Samples.reply_bare) RunSamples.two_files
           (mk_world {[ "test_001" := [("claim_id", JStr "test_001")] ]} [])
           "test_001" [("claim_id", JStr "test_001")]).
  - vm_compute. reflexivity.
  - reflexivity.
  - intros f Hf Hid. unfold RunSamples.two_files in Hf.
    apply elem_of_cons in Hf as [->|Hf]; [reflexivity|].
    apply list_elem_of_singleton in Hf as ->. discriminate Hid.
Defined.

End HostedRunFacts.

(** ** The report of the aggregator *)

Module ReportFacts.
Import Json Aggregator Report.

Lemma make_row_line claims document r :
  make_row claims document = inr r -> line_of document r.
Proof.
  unfold make_row. intros Hrow.
  destruct document as [| | | | | | |?|d]; try discriminate.
  destruct (dict_get "claim_id" d) as [cid|] eqn:Hcid; [|discriminate].
  destruct (lookup_claim claims cid) as [?|cd]; [discriminate|].
  destruct (dict_get "verdict" d) as [v|] eqn:Hv; [|discriminate].
  destruct (predict v) as [?|p]; [discriminate|].
  destruct (concise _) as [?|reasoning]; [discriminate|].
  injection Hrow as <-. by exists d.
Qed.

Lemma collect_rows claims documents rows :
  collect claims documents = inr rows ->
  Forall2 (fun d r => make_row claims d = inr r) documents rows.
Proof.
  revert rows. induction documents as [|d rest IH]; simpl; intros rows Hc.
  - injection Hc as <-. constructor.
  - destruct (make_row claims d) as [?|r] eqn:Hr; [discriminate|].
    destruct (collect claims rest) as [?|rows']; [discriminate|].
    injection Hc as <-. constructor; [done|by apply IH].
Qed.

(** One document that gives no line leaves [collect] without a result. *)
Lemma collect_fails claims documents d exc :
  d ∈ documents -> make_row claims d = inl exc ->
  exists exc', collect claims documents = inl exc'.
Proof.
  intros Hd Hrow. induction documents as [|d0 rest IH]; [by apply elem_of_nil in Hd|].
  simpl. apply elem_of_cons in Hd as [<-|Hd].
  - rewrite Hrow. by eexists.
  - destruct (make_row claims d0); [by eexists|].
    destruct (IH Hd) as [exc' ->]. by eexists.
Qed.

(** What [main] has done when it has written a report. *)
Lemma main_written verdict_files claims_file rows :
  main verdict_files claims_file = Written rows ->
  exists results,
    collect (load_claims claims_file) verdict_files = inr results
    /\ sort_results results = inr rows.
Proof.
  unfold main. intros Hmain.
  destruct verdict_files as [|d rest]; [discriminate|].
  destruct (collect _ (d :: rest)) as [?|results]; [discriminate|].
  destruct (sort_results results) as [?|sorted] eqn:Hsort; [discriminate|].
  injection Hmain as <-. by exists results.
Qed.

(** The report has one line for each verdict file, with the claim id,
    the verdict and the confidence of that file: its lines are, up to
    their order, the lines made from the verdict files one by one. *)
Theorem report_has_one_line_per_verdict_file verdict_files claims_file rows :
  main verdict_files claims_file = Written rows ->
  List.length rows = List.length verdict_files
  /\ exists results, rows ≡ₚ results /\ Forall2 line_of verdict_files results.
Proof.
  intros Hmain. apply main_written in Hmain as (results & Hc & Hs).
  apply AggregatorFacts.sort_results_perm in Hs. apply collect_rows in Hc.
  split.
  - rewrite Hs. symmetry. by eapply Forall2_length.
  - exists results. split; [done|].
    eapply Forall2_impl; [exact Hc|]. intros d r. apply make_row_line.
Qed.

Lemma report_has_one_line_per_verdict_file_witness :
  let files := [ Samples.sample_verdict "3" "undetermined";
                 Samples.sample_verdict "1" "supported" ] in
  let rows := [ Samples.sample_row "1" "supported" 1;
                Samples.sample_row "3" "undetermined" 0 ] in
  List.length rows = List.length files
  /\ exists results, rows ≡ₚ results /\ Forall2 line_of files results.
Proof.
  intros files rows.
  apply (report_has_one_line_per_verdict_file files None rows).
  vm_compute. reflexivity.
Defined.

(** One verdict file without a claim id or without a verdict field
    leaves the aggregator without a report: no line is written for any
    claim. *)
Theorem incomplete_verdict_file_fails_report
    verdict_files claims_file (v : dict) :
  JObj v ∈ verdict_files ->
  dict_get "claim_id" v = None \/ dict_get "verdict" v = None ->
  exists exc, main verdict_files claims_file = Failed exc.
Proof.
  intros Hin Hmissing.
  assert (Hrow : exists exc, make_row (load_claims claims_file) (JObj v) = inl exc).
  { unfold make_row. destruct Hmissing as [->| Hv]; [by eexists|].
    destruct (dict_get "claim_id" v); [|by eexists].
    destruct (lookup_claim _ _); [by eexists|]. rewrite Hv. by eexists. }
  destruct Hrow as [exc Hrow].
  destruct (collect_fails _ _ _ _ Hin Hrow) as [exc' Hc].
  unfold main. destruct verdict_files as [|d rest]; [by apply elem_of_nil in Hin|].
  rewrite Hc. by eexists.
Qed.

Lemma incomplete_verdict_file_fails_report_witness :
  exists exc,
    main [Samples.sample_verdict "1" "supported"; id_only "2"] None = Failed exc.
Proof.
  apply (incomplete_verdict_file_fails_report
           [Samples.sample_verdict "1" "supported"; id_only "2"] None
           [("claim_id", JStr "2")]).
  - apply list_elem_of_further, list_elem_of_here.
  - right. reflexivity.
Defined.

Lemma length_append (a b : string) :
  String.length (a ++ b) = (String.length a + String.length b)%nat.
Proof. induction a as [|c a IH]; simpl; [done|]. by rewrite <- IH. Qed.

Lemma length_take_le (n : nat) (s : string) :
  (String.length (PyStr.take n s) <= n)%nat.
Proof.
  revert s. induction n as [|n IH]; intros [|c s]; simpl; try lia.
  specialize (IH s). lia.
Qed.

Lemma concise_short reasoning s :
  concise reasoning = inr (JStr s) -> (String.length s <= 200)%nat.
Proof.
  unfold concise. destruct reasoning as [| | | | | | t | l | d]; try discriminate.
  - destruct (200 <? String.length t)%nat eqn:Hlen; intros Heq.
    + assert (s = PyStr.take 197 t ++ "...")%string as -> by congruence.
      rewrite length_append. pose proof (length_take_le 197 t) as Htake.
      change (String.length "...") with 3%nat. lia.
    + assert (s = t) as -> by congruence. apply Nat.ltb_ge in Hlen. lia.
  - by destruct (_ <? _)%nat.
  - by destruct (_ <? _)%nat.
Qed.

(** No rationale in the report is longer than 200 characters. *)
Theorem rationale_at_most_200_characters verdict_files claims_file rows r s :
  main verdict_files claims_file = Written rows ->
  r ∈ rows ->
  rationale r = JStr s ->
  (String.length s <= 200)%nat.
Proof.
  intros Hmain Hr Hs. apply main_written in Hmain as (results & Hc & Hsort).
  apply AggregatorFacts.sort_results_perm in Hsort. rewrite Hsort in Hr.
  apply collect_rows in Hc.
  apply list_elem_of_lookup in Hr as [i Hi].
  destruct (Forall2_lookup_r _ _ _ _ _ Hc Hi) as (d & _ & Hrow).
  unfold make_row in Hrow.
  destruct d as [| | | | | | |?|d]; try discriminate.
  destruct (dict_get "claim_id" d) as [cid|]; [|discriminate].
  destruct (lookup_claim _ cid) as [?|cd]; [discriminate|].
  destruct (dict_get "verdict" d) as [v|]; [|discriminate].
  destruct (predict v) as [?|p]; [discriminate|].
  destruct (concise _) as [?|reasoning] eqn:Hconcise; [discriminate|].
  injection Hrow as <-. simpl in Hs. subst reasoning.
  by eapply concise_short.
Qed.

Lemma rationale_at_most_200_characters_witness :
  main [long_verdict] None = Written [long_row]
  /\ (String.length (PyStr.take 197 long_reasoning ++ "...") <= 200)%nat.
Proof.
  assert (Hmain : main [long_verdict] None = Written [long_row])
    by (vm_compute; reflexivity).
  split; [exact Hmain|].
  apply (rationale_at_most_200_characters [long_verdict] None [long_row] long_row
           (PyStr.take 197 long_reasoning ++ "...") Hmain).
  - apply list_elem_of_here.
  - reflexivity.
Defined.






Lemma string_ltb_asym (a b : string) :
  String.ltb a b = true -> String.ltb b a = false.
Proof.
  unfold String.ltb. rewrite (String.compare_antisym a b).
  by destruct (String.compare b a).
Qed.

Lemma string_ltb_trans (a b c : string) :
  String.ltb a b = true -> String.ltb b c = true -> String.ltb a c = true.
Proof.
  unfold String.ltb. intros Hab Hbc.
  assert (Hlt : OrderedTypeEx.String_as_OT.lt a c).
  { apply OrderedTypeEx.String_as_OT.lt_trans with b;
      apply OrderedTypeEx.String_as_OT.cmp_lt;
      unfold OrderedTypeEx.String_as_OT.cmp;
      [by destruct (String.compare a b)|by destruct (String.compare b c)]. }
  apply OrderedTypeEx.String_as_OT.cmp_lt in Hlt.
  unfold OrderedTypeEx.String_as_OT.cmp in Hlt. by rewrite Hlt.
Qed.

Lemma string_ltb_cotrans (a b c : string) :
  String.ltb a c = true -> String.ltb a b = true \/ String.ltb b c = true.
Proof.
  intros Hac. destruct (String.compare a b) eqn:Hab.
  - apply String.compare_eq_iff in Hab as <-. by right.
  - left. unfold String.ltb. by rewrite Hab.
  - right. apply string_ltb_trans with a; [|done].
    unfold String.ltb. rewrite (String.compare_antisym b a), Hab. done.
Qed.

Lemma int_keys_text rows r :
  (forall r', r' ∈ rows -> exists s, id r' = JStr s) ->
  r ∈ rows -> int_of_string (text_id r) = None ->
  int_keys rows = inl IntValueError.
Proof.
  induction rows as [|r0 rest IH]; intros Htext Hr Hnone;
    [by apply elem_of_nil in Hr|].
  simpl. destruct (Htext r0) as [s0 Hs0]; [left|].
  rewrite Hs0. simpl.
  destruct (int_of_string s0) as [n|] eqn:Hn; [|done].
  assert (Hrest : r ∈ rest).
  { apply elem_of_cons in Hr as [->|Hr]; [|done].
    unfold text_id in Hnone. rewrite Hs0 in Hnone. congruence. }
  assert (Htext' : forall r', r' ∈ rest -> exists s, id r' = JStr s).
  { intros r' Hr'. apply Htext. by right. }
  by rewrite (IH Htext' Hrest Hnone).
Qed.

Lemma string_keys_text rows :
  (forall r, r ∈ rows -> exists s, id r = JStr s) ->
  mapM (fun r => (fun s => (s, r)) <$> string_id r) rows
  = Some ((fun r => (text_id r, r)) <$> rows).
Proof.
  intros Htext. apply mapM_Some. apply Forall2_fmap_r, Forall_Forall2_diag.
  apply Forall_forall. intros r Hr. destruct (Htext r Hr) as [s Hs].
  unfold string_id, text_id. simpl. destruct (id r); try discriminate Hs.
  reflexivity.
Qed.

(** When every id is a string and one of them does not read as an
    integer, the lines of the report stand in the order of the texts of
    their ids. *)
Theorem report_falls_back_to_text_order verdict_files claims_file rows r :
  main verdict_files claims_file = Written rows ->
  (forall r', r' ∈ rows -> exists s, id r' = JStr s) ->
  r ∈ rows -> int_of_string (text_id r) = None ->
  forall i j r1 r2, (i < j)%nat ->
    rows !! i = Some r1 -> rows !! j = Some r2 ->
    String.ltb (text_id r2) (text_id r1) = false.
Proof.
  intros Hmain Htext Hr Hnone i j r1 r2 Hij Hi Hj.
  apply main_written in Hmain as (results & _ & Hsort).
  pose proof (AggregatorFacts.sort_results_perm _ _ Hsort) as Hperm.
  assert (Htext' : forall r', r' ∈ results -> exists s, id r' = JStr s).
  { intros r' Hr'. apply Htext. by rewrite Hperm. }
  unfold sort_results in Hsort.
  rewrite (int_keys_text results r Htext') in Hsort; [|by rewrite <- Hperm|done].
  rewrite (string_keys_text results Htext') in Hsort. injection Hsort as <-.
  apply list_lookup_fmap_Some_1 in Hi as (kr1 & -> & Hi).
  apply list_lookup_fmap_Some_1 in Hj as (kr2 & -> & Hj).
  set (keyed := (fun r0 => (text_id r0, r0)) <$> results) in *.
  pose proof (SortedFacts.sort_in_order String.ltb fst string_ltb_asym
                string_ltb_cotrans keyed) as Hsorted.
  pose proof (StableSort.strongly_sorted_lookup _ _ _ _ _ _ Hsorted Hij Hi Hj) as Hle.
  simpl in Hle.
  assert (Hkey : forall kr, kr ∈ PyList.sort String.ltb fst keyed ->
                            kr.1 = text_id kr.2).
  { intros kr Hkr. apply (proj1 (PyListFacts.elem_of_sort String.ltb fst _ _)) in Hkr.
    unfold keyed in Hkr. apply list_elem_of_fmap in Hkr as (r0 & -> & _). done. }
  rewrite <- (Hkey kr1), <- (Hkey kr2); [done| |]; by eapply list_elem_of_lookup_2.
Qed.

Lemma report_falls_back_to_text_order_witness :
  let files := [ Samples.sample_verdict "b" "undetermined";
                 Samples.sample_verdict "10" "supported";
                 Samples.sample_verdict "9" "contradicted" ] in
  let rows := [ Samples.sample_row "10" "supported" 1;
                Samples.sample_row "9" "contradicted" 0;
                Samples.sample_row "b" "undetermined" 0 ] in
  main files None = Written rows
  /\ String.ltb (text_id (Samples.sample_row "9" "contradicted" 0))
                (text_id (Samples.sample_row "10" "supported" 1)) = false.
Proof.
  intros files rows.
  assert (Hmain : main files None = Written rows) by (vm_compute; reflexivity).
  split; [exact Hmain|].
  apply (report_falls_back_to_text_order files None rows
           (Samples.sample_row "b" "undetermined" 0) Hmain)
    with (i := 0%nat) (j := 1%nat).
  - intros r Hr. unfold rows in Hr.
    repeat (apply elem_of_cons in Hr as [->|Hr]; [by eexists|]).
    by apply elem_of_nil in Hr.
  - unfold rows. apply list_elem_of_further, list_elem_of_further, list_elem_of_here.
  - reflexivity.
  - lia.
  - reflexivity.
  - reflexivity.
Defined.

Lemma load_claims_lookup lines claim_id :
  load_claims (Some lines) !! claim_id = last_line lines claim_id.
Proof.
  unfold load_claims, last_line.
  induction lines as [|c lines IH] using rev_ind; [done|].
  rewrite foldl_snoc, filter_app.
  destruct (decide (Retriever.claim_id c = claim_id)) as [Hc|Hc].
  - rewrite Hc, lookup_insert_eq.
    rewrite (filter_cons_True _ c []) by done. by rewrite filter_nil, last_snoc.
  - rewrite lookup_insert_ne by done.
    rewrite (filter_cons_False _ c []) by done. by rewrite filter_nil, app_nil_r.
Qed.

(** The book name and the character of a line come from the last line
    of the claims file with the line's claim id; both are empty when
    there is no such line or no claims file. *)
Theorem report_joins_last_claims_line
    verdict_files claims_file rows r (claim_id : string) :
  main verdict_files claims_file = Written rows ->
  r ∈ rows ->
  id r = JStr claim_id ->
  let claim := last_line (default [] claims_file) claim_id in
  book_name r = from_option Retriever.book_name EmptyString claim
  /\ character r = from_option Retriever.character EmptyString claim.
Proof.
  intros Hmain Hr Hid. cbv zeta.
  apply main_written in Hmain as (results & Hc & Hsort).
  apply AggregatorFacts.sort_results_perm in Hsort. rewrite Hsort in Hr.
  apply collect_rows in Hc.
  apply list_elem_of_lookup in Hr as [i Hi].
  destruct (Forall2_lookup_r _ _ _ _ _ Hc Hi) as (d & _ & Hrow).
  assert (Hclaims : load_claims claims_file !! claim_id
                    = last_line (default [] claims_file) claim_id).
  { destruct claims_file as [lines|]; [apply load_claims_lookup|].
    unfold load_claims, last_line. rewrite lookup_empty.
    cbn [default]. by rewrite filter_nil. }
  unfold make_row in Hrow.
  destruct d as [| | | | | | |?|d]; try discriminate.
  destruct (dict_get "claim_id" d) as [cid|]; [|discriminate].
  destruct (lookup_claim _ cid) as [?|cd] eqn:Hlookup; [discriminate|].
  destruct (dict_get "verdict" d) as [v|]; [|discriminate].
  destruct (predict v) as [?|p]; [discriminate|].
  destruct (concise _) as [?|reasoning]; [discriminate|].
  injection Hrow as <-. simpl in *. subst cid. simpl in Hlookup.
  injection Hlookup as <-. by rewrite Hclaims.
Qed.

Lemma report_joins_last_claims_line_witness :
  let lines := [first_edition; second_edition] in
  main [Samples.sample_verdict "1" "supported"] (Some lines) = Written [joined_row]
  /\ book_name joined_row = "The Count of Monte Cristo"
  /\ character joined_row = "Edmond Dantes".
Proof.
  intros lines.
  assert (Hmain : main [Samples.sample_verdict "1" "supported"] (Some lines)
                  = Written [joined_row]) by (vm_compute; reflexivity).
  split; [exact Hmain|].
  apply (report_joins_last_claims_line [Samples.sample_verdict "1" "supported"]
           (Some lines) [joined_row] joined_row "1" Hmain).
  - apply list_elem_of_here.
  - reflexivity.
Defined.

End ReportFacts.

(** ** The orchestrator *)

Module RunAllFacts.
Import RunAll.

Section Run.
Variable executable : string.
Variable script_exists : string -> bool.
Variable subprocess_run : nat -> list string -> completed.

Local Abbreviation stage := (run_stage executable script_exists subprocess_run).
Local Abbreviation loop := (run_stages executable script_exists subprocess_run).

(** A stage makes at most one call, for its own script, and succeeds
    only when the call is made and exits with code 0. *)
Lemma run_stage_cases script test trace :
  ((stage script test trace).2 = trace /\ (stage script test trace).1 = false)
  \/ exists args,
       (stage script test trace).2 = trace ++ [args]
       /\ script_of args = script
       /\ ((stage script test trace).1 = true ->
           subprocess_run (List.length trace) args = Exited 0).
Proof.
  unfold run_stage. destruct (script_exists script); simpl; [|by left].
  right. eexists. split; [|split].
  - by destruct (subprocess_run _ _) as [[| |]|].
  - by destruct test.
  - by destruct (subprocess_run _ _) as [[| |]|].
Qed.

(** The calls the loop makes come after those made before it; each is
    for the script of a stage of the list that is not skipped; and each
    but the last has exited with code 0, as has the last when the
    pipeline is complete. *)
Lemma run_stages_trace skip test stages trace :
  exists new,
    (loop skip test stages trace).2 = trace ++ new
    /\ (forall args, args ∈ new ->
          exists name, (name, script_of args) ∈ stages
            /\ skip && String.eqb name "Reasoning" = false)
    /\ (forall i args, new !! i = Some args ->
          (S i < List.length new)%nat \/ (loop skip test stages trace).1 = Complete ->
          subprocess_run (List.length trace + i) args = Exited 0).
Proof.
  revert trace. induction stages as [|[name script] rest IH]; intros trace.
  - exists []. simpl. rewrite app_nil_r. split; [done|]. split.
    + intros args Hin. by apply elem_of_nil in Hin.
    + intros i args Hi. by rewrite lookup_nil in Hi.
  - simpl. destruct (skip && String.eqb name "Reasoning") eqn:Hskip.
    { destruct (IH trace) as (new & Htrace & Hscripts & Hok).
      exists new. split; [done|]. split; [|done].
      intros args Hin. destruct (Hscripts args Hin) as (n & Hn & Hs).
      exists n. split; [by right|done]. }
    destruct (run_stage_cases script test trace)
      as [[Htrace Hfail]|(args & Htrace & Hscript & Hsuccess)];
      destruct (stage script test trace) as [success trace1]; simpl in *; subst.
    + exists []. rewrite app_nil_r. split; [done|]. split.
      * intros args Hin. by apply elem_of_nil in Hin.
      * intros i args Hi. by rewrite lookup_nil in Hi.
    + destruct success.
      * destruct (IH (trace ++ [args])) as (new & Hnew & Hscripts & Hok).
        exists (args :: new). split; [by rewrite Hnew, <- app_assoc|]. split.
        -- intros args' Hin. apply elem_of_cons in Hin as [->|Hin].
           ++ exists name. split; [left|done].
           ++ destruct (Hscripts args' Hin) as (n & Hn & Hs).
              exists n. split; [by right|done].
        -- intros [|i] args' Hi Hlast; simpl in Hi.
           ++ injection Hi as <-. rewrite Nat.add_0_r. by apply Hsuccess.
           ++ rewrite length_app in Hok. simpl in Hok.
              replace (List.length trace + S i)%nat
                with (List.length trace + 1 + i)%nat by lia.
              apply Hok; [done|]. destruct Hlast as [Hlt|Hc]; [left|by right].
              simpl in Hlt. lia.
      * exists [args]. split; [done|]. split.
        -- intros args' Hin. apply list_elem_of_singleton in Hin as ->.
           exists name. split; [left|done].
        -- intros [|i] args' Hi [Hlt|Hc]; simpl in *; try done; lia.
Qed.

End Run.

(** No stage is started after a stage has failed: every call the
    orchestrator makes, but the last one, has exited with code 0, and
    the last one too when the pipeline ends as complete. *)
Theorem nothing_runs_after_a_failed_stage
    (executable : string) (script_exists : string -> bool)
    (subprocess_run : nat -> list string -> completed) (a : arguments)
    (i : nat) (args : list string) :
  let run := main executable script_exists subprocess_run a in
  run.2 !! i = Some args ->
  (S i < List.length run.2)%nat \/ run.1 = Complete ->
  subprocess_run i args = Exited 0.
Proof.
  cbv zeta. unfold main. intros Hi Hlast.
  destruct (run_stages_trace executable script_exists subprocess_run
              (skip_reasoning a) (test_mode a)
              (drop (start_idx a) (stages_of a)) []) as (new & Htrace & _ & Hok).
  rewrite Htrace in Hi, Hlast. simpl in *.
  by apply (Hok i args).
Qed.

Lemma nothing_runs_after_a_failed_stage_witness :
  let subprocess_run := fun (k : nat) (_ : list string) =>
    if (k <? 3)%nat then Exited 0 else Exited 1 in
  subprocess_run 2%nat ["python"; "agents/claim_parser.py"] = Exited 0.
Proof.
  intros subprocess_run.
  apply (nothing_runs_after_a_failed_stage "python" (fun _ => true) subprocess_run
           (mk_arguments false false false None) 2
           ["python"; "agents/claim_parser.py"]).
  - reflexivity.
  - left. vm_compute. lia.
Defined.

(** A run starts at most one reasoning agent: the hosted one unless
    [--local] is given, the local one only then, and none when
    [--skip-reasoning] is given. *)
Theorem one_reasoning_agent_per_run
    (executable : string) (script_exists : string -> bool)
    (subprocess_run : nat -> list string -> completed) (a : arguments)
    (args : list string) :
  args ∈ (main executable script_exists subprocess_run a).2 ->
  (local a = true -> script_of args <> "agents/reasoning_agent.py")
  /\ (local a = false -> script_of args <> "agents/reasoning_agent_local.py")
  /\ (skip_reasoning a = true ->
      script_of args <> "agents/reasoning_agent.py"
      /\ script_of args <> "agents/reasoning_agent_local.py").
Proof.
  unfold main. intros Hin.
  destruct (run_stages_trace executable script_exists subprocess_run
              (skip_reasoning a) (test_mode a)
              (drop (start_idx a) (stages_of a)) []) as (new & Htrace & Hscripts & _).
  rewrite Htrace in Hin. simpl in Hin.
  destruct (Hscripts args Hin) as (name & Hstage & Hskip).
  apply (subseteq_drop (start_idx a) (stages_of a)) in Hstage.
  remember (script_of args) as script eqn:Hscript. clear Hscript Hin Htrace Hscripts.
  destruct a as [test skip [|] from]; unfold stages_of in Hstage; cbn [local] in Hstage;
    cbn [local skip_reasoning] in *.
  - let stages := eval vm_compute in (swap_local STAGES) in
    change (swap_local STAGES) with stages in Hstage.
    repeat (apply elem_of_cons in Hstage as [Hstage|Hstage];
            [injection Hstage as -> ->; split; [done|split; [done|]];
             first [done | intros ->; simpl in Hskip; discriminate]|]).
    by apply elem_of_nil in Hstage.
  - unfold STAGES in Hstage.
    repeat (apply elem_of_cons in Hstage as [Hstage|Hstage];
            [injection Hstage as -> ->; split; [done|split; [done|]];
             first [done | intros ->; simpl in Hskip; discriminate]|]).
    by apply elem_of_nil in Hstage.
Qed.

Lemma one_reasoning_agent_per_run_witness :
  let args := ["python"; "agents/reasoning_agent_local.py"] in
  let a := mk_arguments false false true (Some "reasoning") in
  (local a = true -> script_of args <> "agents/reasoning_agent.py")
  /\ (local a = false -> script_of args <> "agents/reasoning_agent_local.py")
  /\ (skip_reasoning a = true ->
      script_of args <> "agents/reasoning_agent.py"
      /\ script_of args <> "agents/reasoning_agent_local.py").
Proof.
  intros args a.
  apply (one_reasoning_agent_per_run "python" (fun _ => true) (fun _ _ => Exited 0)
           a args).
  vm_compute. apply list_elem_of_here.
Defined.

End RunAllFacts.

(** ** The embedding agent *)

Module EmbeddingFacts.
Import Json Embedding.

Lemma take_slice {A} (l : list A) (a : nat) (w : Z) :
  0 < w ->
  take a l ++ PyList.slice l (Z.of_nat a) (Z.of_nat a + w) = take (a + Z.to_nat w) l.
Proof.
  intros Hw. unfold PyList.slice, PyList.clamp.
  destruct (Z.ltb_spec (Z.of_nat a) 0); [lia|].
  destruct (Z.ltb_spec (Z.of_nat a + w) 0); [lia|].
  destruct (decide (a <= List.length l)%nat) as [Hin|Hout].
  - rewrite (Z.min_l (Z.of_nat a)) by lia. rewrite Nat2Z.id.
    rewrite take_take_drop.
    destruct (decide (Z.of_nat a + w <= Z.of_nat (List.length l))) as [Hb|Hb].
    + rewrite Z.min_l by lia. f_equal. lia.
    + rewrite Z.min_r by lia. rewrite !take_ge by lia. done.
  - rewrite !Z.min_r by lia. rewrite Z.sub_diag. simpl.
    rewrite app_nil_r, !take_ge by lia. done.
Qed.

Lemma batches_take {A} (l : list A) (count : nat) :
  concat ((fun i => PyList.slice l i (i + 64))
            <$> ((fun k => Z.of_nat k * 64) <$> seq 0 count))
  = take (count * 64) l.
Proof.
  induction count as [|k IH]; [done|].
  rewrite seq_S, !fmap_app, concat_app, IH. simpl. rewrite app_nil_r.
  replace (Z.of_nat k * 64) with (Z.of_nat (k * 64)) by lia.
  rewrite take_slice by lia. f_equal. lia.
Qed.

(** The batches, one after the other, are the list. *)
Lemma batches_concat {A} (l : list A) :
  concat ((fun i => PyList.slice l i (i + BATCH_SIZE))
            <$> range_step (PyList.len l) BATCH_SIZE) = l.
Proof.
  unfold range_step, BATCH_SIZE, PyList.len. rewrite batches_take.
  apply take_ge.
  pose proof (Z.div_mod (Z.of_nat (List.length l) + 64 - 1) 64 ltac:(lia)) as Hdiv.
  pose proof (Z.mod_pos_bound (Z.of_nat (List.length l) + 64 - 1) 64 ltac:(lia)).
  lia.
Qed.

Lemma comprehension_rows {A B} (f : A -> string + B) l ys :
  comprehension f l = inr ys -> Forall2 (fun x y => f x = inr y) l ys.
Proof.
  revert ys. induction l as [|x rest IH]; simpl; intros ys Hc.
  - injection Hc as <-. constructor.
  - destruct (f x) as [?|y] eqn:Hx; [discriminate|].
    destruct (comprehension f rest) as [?|ys']; [discriminate|].
    injection Hc as <-. constructor; [done|by apply IH].
Qed.

Lemma concat_fmap_fmap {A B C} (f : B -> C) (g : A -> list B) (l : list A) :
  concat ((fun x => f <$> g x) <$> l) = f <$> concat (g <$> l).
Proof.
  induction l as [|x l IH]; [done|].
  rewrite !fmap_cons. cbn [concat]. by rewrite IH, fmap_app.
Qed.

Lemma metadata_of_text c m :
  metadata_of c = inr m ->
  exists text, getitem "text" c = inr text /\ dict_get "text" m = Some text.
Proof.
  unfold metadata_of. intros Hm.
  destruct (getitem "book" c); [discriminate|].
  destruct (getitem "chunk_idx" c); [discriminate|].
  destruct (getitem "char_start" c); [discriminate|].
  destruct (getitem "char_end" c); [discriminate|].
  destruct (getitem "text" c) as [?|text]; [discriminate|].
  injection Hm as <-. by exists text.
Qed.

Section Model.
Context {V : Type}.
Variable encode : list json -> list V.
Variable normalize : V -> V.
Variable embed : json -> V.

(** The encoder gives a row for each text of a batch. *)
Hypothesis encode_rows : forall batch, encode batch = embed <$> batch.

Lemma create_embeddings_rows chunks embeddings :
  create_embeddings encode chunks = inr embeddings ->
  chunks <> []
  /\ exists texts, comprehension (getitem "text") chunks = inr texts
       /\ embeddings = embed <$> texts.
Proof using encode_rows.
  unfold create_embeddings. intros Hc.
  destruct (comprehension (getitem "text") chunks) as [?|texts] eqn:Htexts;
    [discriminate|].
  split.
  - intros ->. simpl in Htexts. injection Htexts as <-. discriminate.
  - exists texts. split; [done|].
    assert (Hall : concat ((fun i => encode (PyList.slice texts i (i + BATCH_SIZE)))
                             <$> range_step (PyList.len texts) BATCH_SIZE)
                   = embed <$> texts).
    { rewrite (list_fmap_ext _ (fun i => embed <$> PyList.slice texts i (i + BATCH_SIZE))
                 (range_step (PyList.len texts) BATCH_SIZE))
        by (intros; apply encode_rows).
      by rewrite concat_fmap_fmap, batches_concat. }
    destruct (_ <$> range_step _ _); [discriminate|]. congruence.
Qed.

End Model.

(** The index and the metadata the embedding agent writes belong
    together: there is at least one vector, there are as many vectors
    as metadata entries and as chunks, and the vector at a position is
    the normalised embedding of the text in the metadata entry at that
    position. *)
Theorem index_aligned_with_metadata {V : Type}
    (encode : list json -> list V) (normalize : V -> V) (embed : json -> V)
    (chunks : list json) (index : list V) (metadata : list dict) :
  (forall batch, encode batch = embed <$> batch) ->
  main encode normalize (Some chunks) = Written index metadata ->
  (0 < List.length index)%nat
  /\ List.length index = List.length chunks
  /\ List.length metadata = List.length chunks
  /\ forall i m, metadata !! i = Some m ->
       exists text, dict_get "text" m = Some text
         /\ index !! i = Some (normalize (embed text)).
Proof.
  intros Hrows. unfold main.
  destruct (create_embeddings encode chunks) as [?|embeddings] eqn:He; [discriminate|].
  destruct (create_metadata chunks) as [?|metadata'] eqn:Hm; [discriminate|].
  intros [= <- <-].
  destruct (create_embeddings_rows encode embed Hrows _ _ He)
    as (Hsome & texts & Htexts & ->).
  apply comprehension_rows in Htexts. apply comprehension_rows in Hm.
  pose proof (Forall2_length _ _ _ Htexts) as Hlen.
  pose proof (Forall2_length _ _ _ Hm) as Hlen'.
  unfold build_faiss_index. rewrite !length_fmap.
  repeat split; try done.
  - destruct chunks; [done|]. simpl in Hlen. lia.
  - intros i m Hi.
    destruct (Forall2_lookup_r _ _ _ _ _ Hm Hi) as (c & Hc & Hmeta).
    destruct (metadata_of_text _ _ Hmeta) as (text & Htext & Hget).
    exists text. split; [done|].
    destruct (Forall2_lookup_l _ _ _ _ _ Htexts Hc) as (text' & Ht' & Hget').
    rewrite !list_lookup_fmap, Ht'. simpl. congruence.
Qed.

Lemma index_aligned_with_metadata_witness :
  let encode := fun batch : list json => length_of <$> batch in
  let index := [18; 17] in
  exists metadata,
    main encode (fun v => v) (Some sample_chunks) = Written index metadata
    /\ (0 < List.length index)%nat
    /\ List.length index = List.length sample_chunks
    /\ List.length metadata = List.length sample_chunks
    /\ forall i m, metadata !! i = Some m ->
         exists text, dict_get "text" m = Some text
           /\ index !! i = Some (length_of text).
Proof.
  intros encode index. eexists.
  assert (Hmain : main encode (fun v => v) (Some sample_chunks) = Written index _)
    by (vm_compute; reflexivity).
  split; [exact Hmain|].
  apply (index_aligned_with_metadata encode (fun v => v) length_of
           sample_chunks index _ (fun batch => eq_refl) Hmain).
Defined.

End EmbeddingFacts.
